(** * Utility-function scoring engine: model and verified properties

    The repository scores electric vehicles against a per-user linear
    preference model.  Two front-ends share the same scoring code:

    - [server.py], the tool-protocol adapter ([handle_call_tool]);
    - [app.py], the UI adapter ([calculate_single_utility],
      [find_best_from_list]).

    The functions [get_user_coefficients], [scale_features] and
    [calculate_utility_score] are textually the same in both files and are
    modelled once.

    How the Python program is rendered:

    - values: the inductive [value], the image of JSON in Python;
    - floats: IEEE 754 binary64 numbers as specified by [SpecFloat]
      (precision 53, maximal exponent 1024), with infinities and NaN;
      integers are unbounded and converted as [float(n)] does;
    - dictionaries: finite maps keyed by strings (the insertion order of a
      Python dictionary is not represented; nothing below depends on it);
    - exceptions: the constructor [Err] of an error monad.  The error
      kinds of the specification are Python exceptions in the code:
      [MissingCoefficient] is [KeyError], [MalformedCoefficients] is
      [json.JSONDecodeError] (or [UnicodeDecodeError]),
      [InvalidFeatureValue] is [ValueError] or [TypeError];
    - the interpreter and libraries (store client, JSON parser, [round],
      [sum]): the fields of the record [Runtime]. *)

From Stdlib Require Import ZArith Lia Bool.
From Stdlib Require Import Floats.SpecFloat.
From stdpp Require Import base option strings gmap list sorting.

Set Warnings "-register-all".
Set Default Proof Using "Type".
Local Open Scope Z_scope.

(** ** Binary64 floating point numbers *)

Module F64.

Definition prec : Z := 53.
Definition emax : Z := 1024.

Abbreviation float := spec_float.

Definition valid (x : float) : bool := valid_binary prec emax x.

(** [float(n)] for a Python integer that fits: round to nearest, ties to
    even.  The caller checks for overflow. *)
Definition of_Z (z : Z) : float := binary_normalize prec emax z 0 false.

Definition add : float -> float -> float := SFadd prec emax.
Definition mul : float -> float -> float := SFmul prec emax.
Definition div : float -> float -> float := SFdiv prec emax.
Definition sub : float -> float -> float := SFsub prec emax.

(** Python's [a < b], [a == b] on floats. *)
Definition ltb : float -> float -> bool := SFltb.
Definition eqb : float -> float -> bool := SFeqb.
(** Python's [a > b]. *)
Definition gtb (a b : float) : bool := ltb b a.

Definition zero : float := S754_zero false.
Definition one : float := of_Z 1.
(** [float('-inf')] *)
Definition neg_inf : float := S754_infinity true.

Definition is_nan (x : float) : bool :=
  match x with S754_nan => true | _ => false end.

Definition is_finite (x : float) : bool :=
  match x with S754_zero _ | S754_finite _ _ _ => true | _ => false end.

(** The float denoted by the decimal literal [n * 10^-k].  Both [n] and
    [10^k] are exactly representable for the literals used below, and
    IEEE division is correctly rounded, so the quotient is the binary64
    number nearest to the decimal, which is what a Python literal
    denotes. *)
Definition decimal (n : Z) (k : Z) : float := div (of_Z n) (of_Z (10 ^ k)).

Arguments add : simpl never.
Arguments mul : simpl never.
Arguments div : simpl never.
Arguments ltb : simpl never.
Arguments eqb : simpl never.
Arguments gtb : simpl never.
Arguments of_Z : simpl never.
Arguments decimal : simpl never.

End F64.

Abbreviation float := spec_float.

(** ** Python values and exceptions *)

Inductive value : Type :=
| VNone
| VBool (b : bool)
| VInt (z : Z)
| VFloat (f : float)
| VStr (s : string)
| VList (l : list value)
| VDict (d : gmap string value).

(** The exceptions the modelled code can raise. *)
Inductive exn : Type :=
| KeyError (key : string)
| TypeError
| ValueError
| OverflowError
| AttributeError
| JSONDecodeError
| UnicodeDecodeError
| RecursionError
| StoreError.

Inductive result (A : Type) : Type :=
| Ok (a : A)
| Err (e : exn).
Arguments Ok {A} a.
Arguments Err {A} e.

Definition bind {A B : Type} (m : result A) (k : A -> result B) : result B :=
  match m with
  | Ok a => k a
  | Err e => Err e
  end.

Notation "'let*' x ':=' m 'in' k" := (bind m (fun x => k))
  (at level 10, x name, m at level 100, k at level 200).

Fixpoint mapM {A B : Type} (f : A -> result B) (l : list A) : result (list B) :=
  match l with
  | [] => Ok []
  | a :: l' =>
      let* b := f a in
      let* bs := mapM f l' in
      Ok (b :: bs)
  end.

(** ** The Python operations the code relies on *)

(** [float(n)] on an integer: [OverflowError] when [n] is too large. *)
Definition float_of_int (z : Z) : result float :=
  match F64.of_Z z with
  | S754_infinity _ => Err OverflowError
  | f => Ok f
  end.

(** What lies outside the repository: the key-value store client, the JSON
    parser, UTF-8 decoding, parsing of a string by [float(...)],
    [round(x, 4)] on a float, the summation performed by the built-in
    [sum] on floats (plain left-to-right addition in older interpreters,
    compensated summation in recent ones; both are given below), and the
    order in which [list.sort] leaves a list whose keys are not totally
    ordered. *)
Inductive reply : Type :=
| RStr (s : string)      (* a [str] *)
| RBytes (b : string)    (* a [bytes] object, given by its bytes *)
| RObj (v : value).      (* any other object, neither [None], [str] nor [bytes] *)

Record Runtime : Type := {
  (** [redis.get(key)]: [None] when the key is absent. *)
  redis_get : string -> result (option reply);
  (** [json.loads(s)]: the value, or the exception raised.  Text that is
      not JSON raises [JSONDecodeError]; the parser also raises
      [ValueError] on an integer of too many digits and [RecursionError]
      on nesting that is too deep. *)
  json_loads : string -> result value;
  (** [b.decode('utf-8')]: [None] stands for [UnicodeDecodeError]. *)
  decode_utf8 : string -> option string;
  (** [float(s)] on a string: [None] stands for [ValueError]. *)
  float_of_str : string -> option float;
  (** [round(x, 4)] on a float. *)
  round4 : float -> float;
  (** [sum(xs)] on a sequence of floats, starting from the integer [0]. *)
  py_sum : list float -> float;
  (** [list.sort(reverse=True)] on float keys among which one is NaN and
      which are not in order already.  Every comparison with NaN is
      false, so the keys are not totally ordered and the order of the
      result is a matter of the interpreter's merging strategy.  For the
      keys in input order the function gives the rank each position takes
      in the result: positions are arranged by increasing rank, positions
      of equal rank stay in input order, a missing rank counts as [0]. *)
  sort_ranks : list float -> list nat;
}.

(** [float(val)] *)
Definition py_float (rt : Runtime) (val : value) : result float :=
  match val with
  | VFloat f => Ok f
  | VInt z => float_of_int z
  | VBool b => Ok (if b then F64.one else F64.zero)
  | VStr s =>
      match float_of_str rt s with
      | Some f => Ok f
      | None => Err ValueError
      end
  | VNone | VList _ | VDict _ => Err TypeError
  end.

(** [f * c] with [f] a float. *)
Definition py_mul (f : float) (c : value) : result float :=
  match c with
  | VFloat g => Ok (F64.mul f g)
  | VInt z => let* g := float_of_int z in Ok (F64.mul f g)
  | VBool b => Ok (F64.mul f (if b then F64.one else F64.zero))
  | VNone | VStr _ | VList _ | VDict _ => Err TypeError
  end.

(** [f / n] with [f] a float and [n] a small integer literal. *)
Definition py_div_int (f : float) (n : Z) : float := F64.div f (F64.of_Z n).

(** [d.get(key)] *)
Definition py_get (d : value) (key : string) : result value :=
  match d with
  | VDict m => Ok (default VNone (m !! key))
  | _ => Err AttributeError
  end.

(** [d.get(key, dflt)] *)
Definition py_get_default (d : value) (key : string) (dflt : value) : result value :=
  match d with
  | VDict m => Ok (default dflt (m !! key))
  | _ => Err AttributeError
  end.

(** [d[key]] with a string key. *)
Definition py_getitem (d : value) (key : string) : result value :=
  match d with
  | VDict m =>
      match m !! key with
      | Some v => Ok v
      | None => Err (KeyError key)
      end
  | _ => Err TypeError
  end.

(** The elements visited by [for x in v]. *)
Definition py_iter (v : value) : result (list value) :=
  match v with
  | VList l => Ok l
  | VDict m => Ok (VStr <$> (map_to_list m).*1)
  | VStr s => Ok ((fun c => VStr (String c EmptyString)) <$> String.list_ascii_of_string s)
  | VNone | VBool _ | VInt _ | VFloat _ => Err TypeError
  end.

(** [{**car, "utility": u}] *)
Definition with_utility (car : value) (u : float) : result value :=
  match car with
  | VDict m => Ok (VDict (<["utility" := VFloat u]> m))
  | _ => Err TypeError
  end.

(** [sum(xs)] by plain addition from left to right, starting from the
    integer [0] (which is [0.0] once added to a float). *)
Definition sum_left (xs : list float) : float := foldl F64.add F64.zero xs.

(** [sum(xs)] by compensated (Neumaier) summation: the first float is
    added to the integer [0]; from then on a running compensation [c]
    collects the rounding errors, and is added at the end when it is
    finite and not zero. *)
Fixpoint neumaier (f c : float) (xs : list float) : float * float :=
  match xs with
  | [] => (f, c)
  | x :: rest =>
      let t := F64.add f x in
      let c' :=
        if SFleb (SFabs x) (SFabs f)
        then F64.add c (F64.add (F64.sub f t) x)
        else F64.add c (F64.add (F64.sub x t) f) in
      neumaier t c' rest
  end.

Definition sum_compensated (xs : list float) : float :=
  match xs with
  | [] => F64.zero
  | x :: rest =>
      let '(f, c) := neumaier (F64.add F64.zero x) F64.zero rest in
      if negb (F64.eqb c F64.zero) && F64.is_finite c then F64.add f c else f
  end.

(** ** Constants *)

Definition FEATURE_KEYS : list string :=
  ["price"; "range"; "efficiency"; "acceleration"; "fast_charge"; "seat_count"].

Definition DEFAULT_COEFFS_map : gmap string value :=
  <["price" := VFloat (F64.decimal (-5) 1)]>
  (<["range" := VFloat (F64.decimal 8 1)]>
  (<["efficiency" := VFloat (F64.decimal (-3) 1)]>
  (<["acceleration" := VFloat (F64.decimal (-5) 1)]>
  (<["fast_charge" := VFloat (F64.decimal 6 1)]>
  (<["seat_count" := VFloat (F64.decimal 4 1)]> ∅))))).

Definition DEFAULT_COEFFS : value := VDict DEFAULT_COEFFS_map.

(** ** Shared scoring functions *)

Definition get_user_coefficients (rt : Runtime) (user_id : string) : result value :=
  let redis_key := "params:" +:+ user_id in
  let* data_str := redis_get rt redis_key in
  match data_str with
  | None => Ok DEFAULT_COEFFS
  | Some r =>
      let* data :=
        match r with
        | RBytes b =>
            match decode_utf8 rt b with
            | None => Err UnicodeDecodeError
            | Some s => json_loads rt s
            end
        | RStr s => json_loads rt s
        | RObj v => Ok v
        end in
      py_get_default data "coeffs" DEFAULT_COEFFS
  end.

Definition get_val (rt : Runtime) (car_features : value) (key : string) : result float :=
  let* val := py_get car_features key in
  match val with
  | VNone => Ok F64.zero
  | _ => py_float rt val
  end.

Definition scale_features (rt : Runtime) (car_features : value) : result (list float) :=
  let* price := get_val rt car_features "price" in
  let* range := get_val rt car_features "range" in
  let* efficiency := get_val rt car_features "efficiency" in
  let* acceleration := get_val rt car_features "acceleration" in
  let* fast_charge := get_val rt car_features "fast_charge" in
  let* seat_count := get_val rt car_features "seat_count" in
  Ok [ py_div_int price 1000;
       py_div_int range 100;
       py_div_int efficiency 10;
       acceleration;
       py_div_int fast_charge 100;
       seat_count ].

Definition calculate_utility_score (rt : Runtime) (car_features coeffs : value)
  : result float :=
  let* scaled_features := scale_features rt car_features in
  let* coeff_array := mapM (py_getitem coeffs) FEATURE_KEYS in
  (* [sum(f * c for f, c in zip(...))]: the products are computed from
     left to right and the first one that raises ends the call; adding
     never raises, so the total is the sum of the list of products *)
  let* products := mapM (fun fc : float * value => py_mul fc.1 fc.2)
                        (zip scaled_features coeff_array) in
  Ok (py_sum rt products).

(** ** The ranking loop

    Both front-ends run the same loop over the candidates:

<<
    best_car = None
    best_utility = float('-inf')
    all_results = []
    for car in cars:
        utility = calculate_utility_score(car, coeffs)
        car_result = {**car, "utility": SHOWN(utility)}
        all_results.append(car_result)
        if utility > best_utility:
            best_utility = utility
            best_car = car_result
>>

    where [SHOWN(utility)] is [utility] in [server.py] and
    [round(utility, 4)] in [app.py]. *)

Record loop_state : Type := {
  best_car : value;
  best_utility : float;
  all_results : list value;
}.

Definition loop_init : loop_state :=
  {| best_car := VNone; best_utility := F64.neg_inf; all_results := [] |}.

Definition loop_body (rt : Runtime) (shown : float -> float) (coeffs : value)
    (st : loop_state) (car : value) : result loop_state :=
  let* utility := calculate_utility_score rt car coeffs in
  let* car_result := with_utility car (shown utility) in
  let all := all_results st ++ [car_result] in
  if F64.gtb utility (best_utility st)
  then Ok {| best_car := car_result; best_utility := utility; all_results := all |}
  else Ok {| best_car := best_car st; best_utility := best_utility st;
             all_results := all |}.

Fixpoint loop (rt : Runtime) (shown : float -> float) (coeffs : value)
    (st : loop_state) (cars : list value) : result loop_state :=
  match cars with
  | [] => Ok st
  | car :: rest =>
      let* st' := loop_body rt shown coeffs st car in
      loop rt shown coeffs st' rest
  end.

(** ** [server.py]: the tool-protocol adapter *)

Module Server.

(** A tool invocation: the tool name together with the arguments its
    schema declares. *)
Inductive tool_call : Type :=
| CalculateUtility (user_id : string)
    (price range efficiency acceleration fast_charge seat_count : value)
| FindBestCar (user_id : string) (cars : value)
| OtherTool (name : string).

Record utility_result : Type := {
  u_user_id : string;
  u_utility : float;
  u_coefficients_used : value;
  u_car_features : value;
}.

Record ranking_result : Type := {
  r_user_id : string;
  r_best_car : value;
  r_all_cars_with_utilities : list value;
  r_coefficients_used : value;
}.

Inductive tool_output : Type :=
| UtilityOutput (r : utility_result)
| RankingOutput (r : ranking_result).

Definition handle_call_tool (rt : Runtime) (call : tool_call) : result tool_output :=
  match call with
  | CalculateUtility user_id price range efficiency acceleration fast_charge seat_count =>
      let* coeffs := get_user_coefficients rt user_id in
      let car_features :=
        VDict (<["price" := price]>
              (<["range" := range]>
              (<["efficiency" := efficiency]>
              (<["acceleration" := acceleration]>
              (<["fast_charge" := fast_charge]>
              (<["seat_count" := seat_count]> ∅)))))) in
      let* utility := calculate_utility_score rt car_features coeffs in
      Ok (UtilityOutput
            {| u_user_id := user_id;
               u_utility := utility;
               u_coefficients_used := coeffs;
               u_car_features := car_features |})
  | FindBestCar user_id cars =>
      let* coeffs := get_user_coefficients rt user_id in
      let* cars := py_iter cars in
      let* st := loop rt (fun u => u) coeffs loop_init cars in
      Ok (RankingOutput
            {| r_user_id := user_id;
               r_best_car := best_car st;
               r_all_cars_with_utilities := all_results st;
               r_coefficients_used := coeffs |})
  | OtherTool _ => Err ValueError
  end.

End Server.

(** ** [app.py]: the UI adapter *)

Module App.

(** [round(v, 4)] on a coefficient value. *)
Definition py_round4 (rt : Runtime) (v : value) : result value :=
  match v with
  | VFloat f => Ok (VFloat (round4 rt f))
  | VInt z => Ok (VInt z)
  | VBool b => Ok (VInt (Z.b2z b))
  | VNone | VStr _ | VList _ | VDict _ => Err TypeError
  end.

(** [{k: round(v, 4) for k, v in coeffs.items()}] *)
Definition round_coeffs (rt : Runtime) (coeffs : value) : result (gmap string value) :=
  match coeffs with
  | VDict m =>
      let* items :=
        mapM (fun kv : string * value =>
                let* v := py_round4 rt kv.2 in Ok (kv.1, v))
             (map_to_list m) in
      Ok (list_to_map items)
  | _ => Err AttributeError
  end.

(** [coeffs == DEFAULT_COEFFS].  Every default weight is a float that is
    not an integer, so a value equals it only if it is an equal float. *)
Definition eq_default (coeffs : value) : bool :=
  match coeffs with
  | VDict m =>
      bool_decide (dom m = dom DEFAULT_COEFFS_map)
      && forallb (fun k =>
                    match m !! k, DEFAULT_COEFFS_map !! k with
                    | Some (VFloat f), Some (VFloat c) => F64.eqb f c
                    | _, _ => false
                    end) FEATURE_KEYS
  | _ => false
  end.

(** [all_results.sort(key=lambda x: x["utility"], reverse=True)].

    The keys are computed first, one per element; the elements are then
    ordered by comparing keys with [<] only.  Two cases are determined
    by the language:

    - no key is NaN: [<] is a total preorder on the keys and the sort is
      stable, also with [reverse=True], so the result is the one stable
      arrangement in non-increasing order, whatever the algorithm; it is
      computed here by a stable insertion sort ([sort_desc]);
    - no key is smaller than its successor (NaN keys included): the sort
      first looks for a run, finds that the whole list is one, and leaves
      it as it is; [sort_desc] does the same.

    In the remaining case (a NaN key in a list that is not one run) the
    result is still a permutation, but which one depends on the merging
    strategy of the interpreter: it is taken from the runtime
    ([sort_ranks]) and applied by [by_rank], which permutes whatever the
    ranks are. *)
Definition sort_key (x : value) : result float :=
  let* k := py_getitem x "utility" in
  match k with
  | VFloat f => Ok f
  | _ => Err TypeError
  end.

Fixpoint insert_desc {A : Type} (x : float * A) (l : list (float * A))
  : list (float * A) :=
  match l with
  | [] => [x]
  | y :: l' =>
      if F64.ltb x.1 y.1 then y :: insert_desc x l' else x :: y :: l'
  end.

Definition sort_desc {A : Type} (l : list (float * A)) : list (float * A) :=
  foldr insert_desc [] l.

(** No key is smaller than its successor. *)
Fixpoint one_run (keys : list float) : bool :=
  match keys with
  | [] => true
  | x :: rest =>
      match rest with
      | [] => true
      | y :: _ => negb (F64.ltb x y) && one_run rest
      end
  end.

Fixpoint insert_rank {A : Type} (x : nat * A) (l : list (nat * A))
  : list (nat * A) :=
  match l with
  | [] => [x]
  | y :: l' =>
      if (y.1 <? x.1)%nat then y :: insert_rank x l' else x :: y :: l'
  end.

(** The elements of [l] arranged by increasing rank, the element at
    position [i] having the rank [ranks !! i]. *)
Definition by_rank {A : Type} (ranks : list nat) (l : list A) : list A :=
  (foldr insert_rank [] (imap (fun i x => (default 0%nat (ranks !! i), x)) l)).*2.

Definition list_sort_reverse {A : Type} (rt : Runtime) (l : list (float * A))
  : list (float * A) :=
  let keys := l.*1 in
  if forallb (fun k => negb (F64.is_nan k)) keys || one_run keys
  then sort_desc l
  else by_rank (sort_ranks rt keys) l.

Definition sort_by_utility_desc (rt : Runtime) (l : list value)
  : result (list value) :=
  let* keys := mapM sort_key l in
  Ok (list_sort_reverse rt (zip keys l)).*2.

Record utility_result : Type := {
  u_user_id : string;
  u_utility_score : float;
  u_coefficients_used : gmap string value;
  u_car_features : value;
  u_default_note : bool;
}.

Record ranking_result : Type := {
  r_user_id : string;
  r_best_car : value;
  r_all_cars_ranked : list value;
  r_coefficients_used : gmap string value;
  r_default_note : bool;
}.

(** What the function returns, before [json.dumps]: the result, or one
    of the two error payloads. *)
Inductive payload (A : Type) : Type :=
| Success (a : A)
| InvalidJSONFormat
| Failure (e : exn).
Arguments Success {A} a.
Arguments InvalidJSONFormat {A}.
Arguments Failure {A} e.

Definition calculate_single_utility (rt : Runtime) (user_id : string)
    (price range_km efficiency acceleration fast_charge seat_count : value)
  : payload utility_result :=
  let body :=
    let* coeffs := get_user_coefficients rt user_id in
    let car_features :=
      VDict (<["price" := price]>
            (<["range" := range_km]>
            (<["efficiency" := efficiency]>
            (<["acceleration" := acceleration]>
            (<["fast_charge" := fast_charge]>
            (<["seat_count" := seat_count]> ∅)))))) in
    let* utility := calculate_utility_score rt car_features coeffs in
    let* rounded := round_coeffs rt coeffs in
    Ok {| u_user_id := user_id;
          u_utility_score := round4 rt utility;
          u_coefficients_used := rounded;
          u_car_features := car_features;
          u_default_note := eq_default coeffs |} in
  match body with
  | Ok r => Success r
  | Err e => Failure e
  end.

Definition find_best_from_list_body (rt : Runtime) (user_id cars_json : string)
  : result ranking_result :=
  let* cars := json_loads rt cars_json in
  let* coeffs := get_user_coefficients rt user_id in
  let* cars := py_iter cars in
  let* st := loop rt (round4 rt) coeffs loop_init cars in
  let* ranked := sort_by_utility_desc rt (all_results st) in
  let* rounded := round_coeffs rt coeffs in
  Ok {| r_user_id := user_id;
        r_best_car := best_car st;
        r_all_cars_ranked := ranked;
        r_coefficients_used := rounded;
        r_default_note := eq_default coeffs |}.

Definition find_best_from_list (rt : Runtime) (user_id cars_json : string)
  : payload ranking_result :=
  match find_best_from_list_body rt user_id cars_json with
  | Ok r => Success r
  | Err JSONDecodeError => InvalidJSONFormat
  | Err e => Failure e
  end.

End App.

(** ** Notions used to state the properties *)

(** The canonical exponent of binary64: [fexp] at precision 53. *)
Definition fexp64 (e : Z) : Z := Z.max (e - 53) (-1074).

(** The float a JSON number stands for: a binary64 value, or an integer
    within the range of binary64. *)
Definition number_of (v : value) : option float :=
  match v with
  | VFloat f => if F64.valid f then Some f else None
  | VInt z =>
      match float_of_int z with
      | Ok f => Some f
      | Err _ => None
      end
  | _ => None
  end.

(** The divisor of each feature, in the order of [FEATURE_KEYS]:
    1000, 100, 10, 1, 100, 1. *)
Definition divisor (key : string) : Z :=
  if decide (key = "price") then 1000
  else if decide (key = "range") then 100
  else if decide (key = "efficiency") then 10
  else if decide (key = "fast_charge") then 100
  else 1.

(** The sum over the keys, in fixed order, of
    [(raw[key] / divisor[key]) * coeff[key]]. *)
Definition linear_combination (rt : Runtime) (raw coeff : string -> float) : float :=
  py_sum rt ((fun key =>
                F64.mul (F64.div (raw key) (F64.of_Z (divisor key))) (coeff key))
               <$> FEATURE_KEYS).

(** One round of the loop, seen from outside: the utility of a candidate
    and its scored record. *)
Definition scored (rt : Runtime) (shown : float -> float) (coeffs car : value)
  : result (float * value) :=
  let* utility := calculate_utility_score rt car coeffs in
  let* car_result := with_utility car (shown utility) in
  Ok (utility, car_result).

Definition pick (st : loop_state) (r : float * value) : loop_state :=
  if F64.gtb r.1 (best_utility st)
  then {| best_car := r.2; best_utility := r.1;
          all_results := all_results st ++ [r.2] |}
  else {| best_car := best_car st; best_utility := best_utility st;
          all_results := all_results st ++ [r.2] |}.

(** [us] are the utilities of the candidates [ms] under [coeffs]. *)
Definition utilities (rt : Runtime) (coeffs : value)
    (ms : list (gmap string value)) (us : list float) : Prop :=
  Forall2 (fun m u => calculate_utility_score rt (VDict m) coeffs = Ok u) ms us.

(** The scored record of candidate [m] with utility [u]. *)
Definition scored_record (m : gmap string value) (u : float) : value :=
  VDict (<["utility" := VFloat u]> m).

Definition scored_records (shown : float -> float)
    (ms : list (gmap string value)) (us : list float) : list value :=
  zip_with (fun m u => scored_record m (shown u)) ms us.

(** The scored records as [app.py] orders them. *)
Definition ranked_records (rt : Runtime) (shown : float -> float)
    (ms : list (gmap string value)) (us : list float) : list value :=
  (App.list_sort_reverse rt (zip (shown <$> us) (scored_records shown ms us))).*2.

(** [u], at position [i], is the first maximum of [us]: no element is
    greater and every earlier element is smaller. *)
Definition first_maximum (us : list float) (i : nat) (u : float) : Prop :=
  us !! i = Some u
  /\ (forall j v, us !! j = Some v -> SFleb v u = true)
  /\ (forall j v, (j < i)%nat -> us !! j = Some v -> F64.ltb v u = true).

(** The [utility] field of a scored record. *)
Definition utility_field (r : value) : option float :=
  match r with
  | VDict m =>
      match m !! "utility" with
      | Some (VFloat f) => Some f
      | _ => None
      end
  | _ => None
  end.

(** [a] may stand before [b] in a sequence that is non-increasing in
    utility. *)
Definition utility_ge (a b : value) : Prop :=
  exists x y, utility_field a = Some x /\ utility_field b = Some y
              /\ SFleb y x = true.

(** The same on elements paired with their sort key. *)
Definition key_ge {A : Type} (x y : float * A) : Prop := SFleb y.1 x.1 = true.

(** The record's utility equals [u]. *)
Definition has_utility (u : float) (r : value) : bool :=
  match utility_field r with
  | Some x => F64.eqb x u
  | None => false
  end.

(** [out] is the record [m] with the field [utility] set to [u] and
    nothing else changed. *)
Definition utility_added (m : gmap string value) (u : float) (out : value) : Prop :=
  exists mo, out = VDict mo
             /\ mo !! "utility" = Some (VFloat u)
             /\ forall key, key <> "utility" -> mo !! key = m !! key.

(** The stored reply [r] holds the JSON value [v]. *)
Definition holds_json (rt : Runtime) (r : reply) (v : value) : Prop :=
  match r with
  | RStr s => json_loads rt s = Ok v
  | RBytes b => exists s, decode_utf8 rt b = Some s /\ json_loads rt s = Ok v
  | RObj v' => v' = v
  end.

(** The stored reply [r] is text that is not valid JSON. *)
Definition holds_invalid_json (rt : Runtime) (r : reply) : Prop :=
  match r with
  | RStr s => json_loads rt s = Err JSONDecodeError
  | RBytes b =>
      exists s, decode_utf8 rt b = Some s /\ json_loads rt s = Err JSONDecodeError
  | RObj _ => False
  end.

(** The stored reply [r] is text on which the parser raises [e]. *)
Definition parser_raises (rt : Runtime) (r : reply) (e : exn) : Prop :=
  match r with
  | RStr s => json_loads rt s = Err e
  | RBytes b => exists s, decode_utf8 rt b = Some s /\ json_loads rt s = Err e
  | RObj _ => False
  end.

(** ** Sample data

    A concrete runtime and concrete inputs, used by the examples below. *)

Module Sample.

(** [round(x, 4)]: the decimal with four fractional digits nearest to
    [x] (ties to even), converted back to binary64. *)
Definition nearest_even_quotient (a b : Z) : Z :=
  let q := a / b in
  match 2 * (a mod b) ?= b with
  | Lt => q
  | Gt => q + 1
  | Eq => if Z.even q then q else q + 1
  end.

Definition round4_decimal (x : float) : float :=
  match x with
  | S754_finite s m e =>
      let n := if 0 <=? e then Zpos m * 2 ^ e * 10000
               else nearest_even_quotient (Zpos m * 10000) (2 ^ (- e)) in
      match n with
      | Zpos p => F64.div (S754_finite s p 0) (F64.of_Z 10000)
      | _ => S754_zero s
      end
  | _ => x
  end.

Definition dq : string := String (Ascii.ascii_of_nat 34) EmptyString.

(** Stored texts. *)
Definition text_no_coeffs : string :=
  "{" +:+ dq +:+ "updated" +:+ dq +:+ ": 3, "
      +:+ dq +:+ "price" +:+ dq +:+ ": 9.5}".
Definition text_partial : string :=
  "{" +:+ dq +:+ "coeffs" +:+ dq +:+ ": {"
      +:+ dq +:+ "price" +:+ dq +:+ ": -1, "
      +:+ dq +:+ "range" +:+ dq +:+ ": 2}}".
Definition text_corrupt : string := "{coeffs: ".

Definition partial_coeffs : gmap string value :=
  <["price" := VInt (-1)]> (<["range" := VInt 2]> ∅).

(** The candidates of [test_local.py] and of the example list of
    [app.py]. *)
Definition car (name : string) (price range efficiency : Z) (acceleration : float)
    (fast_charge seat_count : Z) : gmap string value :=
  <["name" := VStr name]>
  (<["price" := VInt price]>
  (<["range" := VInt range]>
  (<["efficiency" := VInt efficiency]>
  (<["acceleration" := VFloat acceleration]>
  (<["fast_charge" := VInt fast_charge]>
  (<["seat_count" := VInt seat_count]> ∅)))))).

Definition tesla : gmap string value :=
  car "Tesla Model 3" 45000 500 150 (F64.decimal 61 1) 170 5.
Definition volkswagen : gmap string value :=
  car "Volkswagen ID.4" 40000 420 180 (F64.decimal 85 1) 125 5.
Definition hyundai : gmap string value :=
  car "Hyundai Ioniq 5" 48000 480 165 (F64.decimal 74 1) 220 5.

(** The text of a JSON object with the fields of a candidate. *)
Definition car_text (name price range efficiency acceleration fast_charge
                     seat_count : string) : string :=
  "{" +:+ dq +:+ "name" +:+ dq +:+ ": " +:+ dq +:+ name +:+ dq +:+ ", "
      +:+ dq +:+ "price" +:+ dq +:+ ": " +:+ price +:+ ", "
      +:+ dq +:+ "range" +:+ dq +:+ ": " +:+ range +:+ ", "
      +:+ dq +:+ "efficiency" +:+ dq +:+ ": " +:+ efficiency +:+ ", "
      +:+ dq +:+ "acceleration" +:+ dq +:+ ": " +:+ acceleration +:+ ", "
      +:+ dq +:+ "fast_charge" +:+ dq +:+ ": " +:+ fast_charge +:+ ", "
      +:+ dq +:+ "seat_count" +:+ dq +:+ ": " +:+ seat_count +:+ "}".

(** The example list of [app.py]. *)
Definition example_cars : string :=
  "[" +:+ car_text "Tesla Model 3" "45000" "500" "150" "6.1" "170" "5" +:+ ", "
      +:+ car_text "Volkswagen ID.4" "40000" "420" "180" "8.5" "125" "5" +:+ ", "
      +:+ car_text "Hyundai Ioniq 5" "48000" "480" "165" "7.4" "220" "5" +:+ "]".

(** The same without the first candidate, the last two exchanged. *)
Definition two_cars : string :=
  "[" +:+ car_text "Hyundai Ioniq 5" "48000" "480" "165" "7.4" "220" "5" +:+ ", "
      +:+ car_text "Volkswagen ID.4" "40000" "420" "180" "8.5" "125" "5" +:+ "]".

(** Two candidates that differ in their name only. *)
Definition twin_a : gmap string value := <["name" := VStr "Twin A"]> tesla.
Definition twin_b : gmap string value := <["name" := VStr "Twin B"]> tesla.
Definition twin_cars : string :=
  "[" +:+ car_text "Twin A" "45000" "500" "150" "6.1" "170" "5" +:+ ", "
      +:+ car_text "Twin B" "45000" "500" "150" "6.1" "170" "5" +:+ "]".

(** Two candidates whose utilities, 1.00001 and 1.00002 under the default
    coefficients, differ only beyond the fourth decimal. *)
Definition close_a : gmap string value :=
  <["name" := VStr "A"]> (<["seat_count" := VFloat (F64.decimal 2500025 6)]> ∅).
Definition close_b : gmap string value :=
  <["name" := VStr "B"]> (<["seat_count" := VFloat (F64.decimal 250005 5)]> ∅).
Definition close_cars : string :=
  "[{" +:+ dq +:+ "name" +:+ dq +:+ ": " +:+ dq +:+ "A" +:+ dq +:+ ", "
       +:+ dq +:+ "seat_count" +:+ dq +:+ ": 2.500025}, {"
       +:+ dq +:+ "name" +:+ dq +:+ ": " +:+ dq +:+ "B" +:+ dq +:+ ", "
       +:+ dq +:+ "seat_count" +:+ dq +:+ ": 2.50005}]".

(** A parser that knows the texts above and rejects every other text. *)
Definition json_table : list (string * value) :=
  [ (text_no_coeffs,
     VDict (<["updated" := VInt 3]> (<["price" := VFloat (F64.decimal 95 1)]> ∅)));
    (text_partial, VDict (<["coeffs" := VDict partial_coeffs]> ∅));
    ("[]", VList []);
    (example_cars, VList [VDict tesla; VDict volkswagen; VDict hyundai]);
    (two_cars, VList [VDict hyundai; VDict volkswagen]);
    (twin_cars, VList [VDict twin_a; VDict twin_b]);
    (close_cars, VList [VDict close_a; VDict close_b]) ].

Definition lookup_table {A : Type} (t : list (string * A)) (s : string) : option A :=
  snd <$> List.find (fun kv => String.eqb kv.1 s) t.

Definition parse_table (t : list (string * value)) (s : string) : result value :=
  match lookup_table t s with
  | Some v => Ok v
  | None => Err JSONDecodeError
  end.

(** [float(s)] on text: a text of decimal digits is the integer it
    denotes.  Of the other texts the samples hold only ones that are no
    numbers at all. *)
Fixpoint digits_value (acc : Z) (s : string) : option Z :=
  match s with
  | EmptyString => Some acc
  | String c s' =>
      let n := Z.of_nat (Ascii.nat_of_ascii c) in
      if (48 <=? n) && (n <=? 57) then digits_value (10 * acc + (n - 48)) s'
      else None
  end.

Definition float_of_digits (s : string) : option float :=
  match s with
  | EmptyString => None
  | _ => F64.of_Z <$> digits_value 0 s
  end.

(** The store: four users have a stored value, any other has none. *)
Definition store_table : list (string * reply) :=
  [ ("params:carol", RStr text_no_coeffs);
    ("params:dave", RStr text_partial);
    ("params:erin", RStr text_corrupt);
    ("params:frank", RBytes text_no_coeffs) ].

(** A runtime over this store and this parser, with plain summation.
    The stored bytes are ASCII.  Where the order of a sort is the
    interpreter's, this runtime keeps the input order. *)
Definition rt : Runtime :=
  {| redis_get := fun key => Ok (lookup_table store_table key);
     json_loads := parse_table json_table;
     decode_utf8 := Some;
     float_of_str := float_of_digits;
     round4 := round4_decimal;
     py_sum := sum_left;
     sort_ranks := fun _ => [] |}.

(** The same with compensated summation. *)
Definition rt_compensated : Runtime :=
  {| redis_get := redis_get rt;
     json_loads := json_loads rt;
     decode_utf8 := decode_utf8 rt;
     float_of_str := float_of_str rt;
     round4 := round4 rt;
     py_sum := sum_compensated;
     sort_ranks := sort_ranks rt |}.

(** The candidate of the scenario, without a name. *)
Definition scenario_car : gmap string value := delete "name" tesla.

(** The number stored under [key], when there is one. *)
Definition number_at (m : gmap string value) (key : string) : float :=
  default F64.zero (m !! key ≫= number_of).

(** A candidate with a missing feature and an explicit null. *)
Definition sparse_car : gmap string value :=
  <["name" := VStr "Unknown"]> (<["range" := VNone]> (<["price" := VInt 30000]> ∅)).

End Sample.

(** ** Further code of the repository *)

(** *** [server.py]: the tool list and the call as it arrives

    [handle_list_tools] declares the two tools with the schema of their
    arguments; [handle_call_tool] receives the name of a tool and a
    dictionary of arguments, reads the arguments by key and serialises a
    result dictionary.  The function below returns that dictionary (the
    argument of [json.dumps]). *)

Module Protocol.

Inductive schema : Type :=
| SString (descr : option string)
| SNumber (descr : option string)
| SArray (descr : option string) (items : schema)
| SObject (properties : list (string * schema)) (required : list string).

Record Tool : Type := {
  name : string;
  description : string;
  inputSchema : schema;
}.

(** The two tools that [handle_list_tools] returns. *)
Definition calculate_utility_tool : Tool :=
  {| name := "calculate_utility";
     description :=
       "Calculate the utility score for a car based on a user's preferences";
     inputSchema :=
       SObject
         [ ("user_id", SString (Some "The username/ID whose utility function to use"));
           ("price", SNumber (Some "Car price in euros"));
           ("range", SNumber (Some "Range in kilometers"));
           ("efficiency", SNumber (Some "Efficiency in Wh/km"));
           ("acceleration", SNumber (Some "0-100km/h time in seconds"));
           ("fast_charge", SNumber (Some "Fast charging power in kW"));
           ("seat_count", SNumber (Some "Number of seats")) ]
         [ "user_id"; "price"; "range"; "efficiency"; "acceleration";
           "fast_charge"; "seat_count" ] |}.

Definition find_best_car_tool : Tool :=
  {| name := "find_best_car";
     description :=
       "Find the best car from an array based on a user's utility function";
     inputSchema :=
       SObject
         [ ("user_id", SString (Some "The username/ID whose utility function to use"));
           ("cars",
            SArray (Some "Array of car objects with features")
              (SObject
                 [ ("name", SString None);
                   ("price", SNumber None);
                   ("range", SNumber None);
                   ("efficiency", SNumber None);
                   ("acceleration", SNumber None);
                   ("fast_charge", SNumber None);
                   ("seat_count", SNumber None) ]
                 [ "price"; "range"; "efficiency"; "acceleration";
                   "fast_charge"; "seat_count" ])) ]
         [ "user_id"; "cars" ] |}.

Definition handle_list_tools : list Tool :=
  [calculate_utility_tool; find_best_car_tool].

(** The keys a schema requires. *)
Definition required (s : schema) : list string :=
  match s with
  | SObject _ r => r
  | _ => []
  end.

(** [handle_call_tool(name, arguments)].  [py_str] is the built-in [str],
    which the f-string ["params:{user_id}"] applies to the user
    identifier. *)
Definition handle_call_tool (rt : Runtime) (py_str : value -> string)
    (name : string) (arguments : gmap string value) : result value :=
  if decide (name = "calculate_utility") then
    let* user_id := py_getitem (VDict arguments) "user_id" in
    let* coeffs := get_user_coefficients rt (py_str user_id) in
    let* price := py_getitem (VDict arguments) "price" in
    let* range := py_getitem (VDict arguments) "range" in
    let* efficiency := py_getitem (VDict arguments) "efficiency" in
    let* acceleration := py_getitem (VDict arguments) "acceleration" in
    let* fast_charge := py_getitem (VDict arguments) "fast_charge" in
    let* seat_count := py_getitem (VDict arguments) "seat_count" in
    let car_features :=
      VDict (<["price" := price]>
            (<["range" := range]>
            (<["efficiency" := efficiency]>
            (<["acceleration" := acceleration]>
            (<["fast_charge" := fast_charge]>
            (<["seat_count" := seat_count]> ∅)))))) in
    let* utility := calculate_utility_score rt car_features coeffs in
    Ok (VDict (<["user_id" := user_id]>
              (<["utility" := VFloat utility]>
              (<["coefficients_used" := coeffs]>
              (<["car_features" := car_features]> ∅)))))
  else if decide (name = "find_best_car") then
    let* user_id := py_getitem (VDict arguments) "user_id" in
    let* cars := py_getitem (VDict arguments) "cars" in
    let* coeffs := get_user_coefficients rt (py_str user_id) in
    let* cars := py_iter cars in
    let* st := loop rt (fun u => u) coeffs loop_init cars in
    Ok (VDict (<["user_id" := user_id]>
              (<["best_car" := best_car st]>
              (<["all_cars_with_utilities" := VList (all_results st)]>
              (<["coefficients_used" := coeffs]> ∅)))))
  else Err ValueError.

(** The result dictionary of a typed result. *)
Definition result_dict (o : Server.tool_output) : value :=
  match o with
  | Server.UtilityOutput r =>
      VDict (<["user_id" := VStr (Server.u_user_id r)]>
            (<["utility" := VFloat (Server.u_utility r)]>
            (<["coefficients_used" := Server.u_coefficients_used r]>
            (<["car_features" := Server.u_car_features r]> ∅))))
  | Server.RankingOutput r =>
      VDict (<["user_id" := VStr (Server.r_user_id r)]>
            (<["best_car" := Server.r_best_car r]>
            (<["all_cars_with_utilities" := VList (Server.r_all_cars_with_utilities r)]>
            (<["coefficients_used" := Server.r_coefficients_used r]> ∅))))
  end.

(** The typed call that a name and a dictionary of arguments stand for,
    when the user identifier is text and every argument is there. *)
Definition typed_call (name : string) (arguments : gmap string value)
  : option Server.tool_call :=
  if decide (name = "calculate_utility") then
    match arguments !! "user_id", arguments !! "price", arguments !! "range",
          arguments !! "efficiency", arguments !! "acceleration",
          arguments !! "fast_charge", arguments !! "seat_count" with
    | Some (VStr u), Some p, Some r, Some e, Some a, Some f, Some s =>
        Some (Server.CalculateUtility u p r e a f s)
    | _, _, _, _, _, _, _ => None
    end
  else if decide (name = "find_best_car") then
    match arguments !! "user_id", arguments !! "cars" with
    | Some (VStr u), Some cars => Some (Server.FindBestCar u cars)
    | _, _ => None
    end
  else Some (Server.OtherTool name).

End Protocol.

(** *** [test_local.py]: the comparison of the test script

    [test_with_saved_user] reads the coefficients of the user [benjo],
    prints them rounded, scores three cars, collects the pairs of name
    and utility, and reports the pair that [max] selects.  The function
    below returns that pair; printing is left out, except that the
    rounding of the printed coefficients can raise. *)

Module TestLocal.

(** [max(results, key=...)]: the first element is kept until a later one
    has a strictly greater key; an empty sequence raises [ValueError]. *)
Fixpoint max_from {A : Type} (key : A -> float) (best : A) (l : list A) : A :=
  match l with
  | [] => best
  | x :: l' =>
      if F64.gtb (key x) (key best) then max_from key x l'
      else max_from key best l'
  end.

Definition py_max {A : Type} (key : A -> float) (l : list A) : result A :=
  match l with
  | [] => Err ValueError
  | x :: l' => Ok (max_from key x l')
  end.

Definition cars : list (gmap string value) :=
  [Sample.tesla; Sample.volkswagen; Sample.hyundai].

Definition test_with_saved_user (rt : Runtime) : result (value * float) :=
  let user_id := "benjo" in
  let* coeffs := get_user_coefficients rt user_id in
  let* _ := App.round_coeffs rt coeffs in
  let* results :=
    mapM (fun car =>
            let* utility := calculate_utility_score rt car coeffs in
            let* name := py_getitem car "name" in
            Ok (name, utility))
         (VDict <$> cars) in
  py_max snd results.

End TestLocal.

(** ** Further notions used to state the properties *)

(** The errors that scoring can raise: those of dictionary access, of
    conversion to a float and of arithmetic. *)
Definition scoring_error (e : exn) : Prop :=
  e = AttributeError \/ e = TypeError \/ e = ValueError \/ e = OverflowError
  \/ exists key, e = KeyError key.

(** The value is a number as Python's arithmetic sees it. *)
Definition is_number (v : value) : bool :=
  match v with
  | VBool _ | VInt _ | VFloat _ => true
  | _ => false
  end.

(** The float a coefficient value contributes to a product [f * c]. *)
Definition coefficient_value (c : value) : option float :=
  match c with
  | VFloat g => Some g
  | VInt z =>
      match float_of_int z with
      | Ok g => Some g
      | Err _ => None
      end
  | VBool b => Some (if b then F64.one else F64.zero)
  | _ => None
  end.

(** The feature entries of a record, a missing one given as [None]:
    what a caller passes to [calculate_utility] for this record. *)
Definition feature (m : gmap string value) (key : string) : value :=
  default VNone (m !! key).

(** The feature dictionary built from these entries. *)
Definition feature_arguments (m : gmap string value) : gmap string value :=
  <["price" := feature m "price"]>
  (<["range" := feature m "range"]>
  (<["efficiency" := feature m "efficiency"]>
  (<["acceleration" := feature m "acceleration"]>
  (<["fast_charge" := feature m "fast_charge"]>
  (<["seat_count" := feature m "seat_count"]> ∅))))).

(** [round(v, 4)] on a number. *)
Definition rounded_value (rt : Runtime) (v : value) : value :=
  match v with
  | VFloat f => VFloat (round4 rt f)
  | VBool b => VInt (Z.b2z b)
  | _ => v
  end.

(** ** More sample data *)

Module Sample2.

Definition text_list : string := "[1, 2]".

Definition labelled_coeffs : gmap string value :=
  <["label" := VStr "mine"]> DEFAULT_COEFFS_map.

Definition text_labelled : string :=
  "{" +:+ Sample.dq +:+ "coeffs" +:+ Sample.dq +:+ ": {"
      +:+ Sample.dq +:+ "label" +:+ Sample.dq +:+ ": "
      +:+ Sample.dq +:+ "mine" +:+ Sample.dq +:+ ", "
      +:+ Sample.dq +:+ "price" +:+ Sample.dq +:+ ": -0.5, "
      +:+ Sample.dq +:+ "range" +:+ Sample.dq +:+ ": 0.8, "
      +:+ Sample.dq +:+ "efficiency" +:+ Sample.dq +:+ ": -0.3, "
      +:+ Sample.dq +:+ "acceleration" +:+ Sample.dq +:+ ": -0.5, "
      +:+ Sample.dq +:+ "fast_charge" +:+ Sample.dq +:+ ": 0.6, "
      +:+ Sample.dq +:+ "seat_count" +:+ Sample.dq +:+ ": 0.4}}".

(** A candidate whose price is the text of a number. *)
Definition text_price_car : gmap string value :=
  <["price" := VStr "45000"]> Sample.tesla.

(** A candidate whose price is text that is no number. *)
Definition unpriced_car : gmap string value :=
  <["price" := VStr "n/a"]> Sample.tesla.

(** A list holding one integer of 5000 digits: the text is JSON, and the
    parser raises [ValueError] on it, since the integer has more digits
    than the interpreter converts. *)
Fixpoint nines (n : nat) : string :=
  match n with
  | O => EmptyString
  | S n' => String (Ascii.ascii_of_nat 57) (nines n')
  end.

Definition text_long_number : string := "[" +:+ nines 5000 +:+ "]".

(** A list whose second candidate has no usable price. *)
Definition text_unpriced_cars : string :=
  "[" +:+ Sample.car_text "Tesla Model 3" "45000" "500" "150" "6.1" "170" "5" +:+ ", "
      +:+ Sample.car_text "Tesla Model 3" (Sample.dq +:+ "n/a" +:+ Sample.dq)
            "500" "150" "6.1" "170" "5" +:+ ", "
      +:+ Sample.car_text "Hyundai Ioniq 5" "48000" "480" "165" "7.4" "220" "5" +:+ "]".

(** A candidate without a name. *)
Definition nameless_car : gmap string value := delete "name" Sample.volkswagen.

Definition json_table : list (string * value) :=
  Sample.json_table
  ++ [ (text_list, VList [VInt 1; VInt 2]);
       (text_labelled, VDict (<["coeffs" := VDict labelled_coeffs]> ∅));
       ("{}", VDict ∅);
       ("42", VInt 42);
       ("null", VNone);
       (text_unpriced_cars,
        VList [VDict Sample.tesla; VDict unpriced_car; VDict Sample.hyundai]) ].

Definition store_table : list (string * reply) :=
  Sample.store_table
  ++ [ ("params:gina", RStr text_list);
       ("params:hank", RStr text_labelled);
       ("params:jack", RStr text_long_number) ].

(** A runtime in which the store fails for the user [ivy] and the parser
    raises [ValueError] on the long number. *)
Definition rt : Runtime :=
  {| redis_get := fun key =>
       if String.eqb key "params:ivy" then Err StoreError
       else Ok (Sample.lookup_table store_table key);
     json_loads := fun s =>
       if String.eqb s text_long_number then Err ValueError
       else Sample.parse_table json_table s;
     decode_utf8 := Some;
     float_of_str := Sample.float_of_digits;
     round4 := Sample.round4_decimal;
     py_sum := sum_left;
     sort_ranks := fun _ => [] |}.

(** Seven scored records, the fourth with the utility NaN, and a runtime
    that arranges them as CPython 3.11 does. *)
Definition scored_sample (name : string) (u : float) : value :=
  VDict (<["name" := VStr name]> (<["utility" := VFloat u]> ∅)).

Definition seven_records : list value :=
  [ scored_sample "A" (F64.of_Z 1);
    scored_sample "B" (F64.decimal 2 1);
    scored_sample "C" (F64.of_Z 1);
    scored_sample "D" S754_nan;
    scored_sample "E" (F64.of_Z 7);
    scored_sample "F" (F64.decimal 5 1);
    scored_sample "G" (F64.of_Z 0) ].

Definition rt_merging : Runtime :=
  {| redis_get := redis_get rt;
     json_loads := json_loads rt;
     decode_utf8 := decode_utf8 rt;
     float_of_str := float_of_str rt;
     round4 := round4 rt;
     py_sum := py_sum rt;
     sort_ranks := fun _ => [3; 5; 0; 1; 2; 4; 6]%nat |}.

(** [str] on text is the text itself; the samples use no other value. *)
Definition py_str (v : value) : string :=
  match v with
  | VStr s => s
  | _ => "?"
  end.

End Sample2.

(** * Properties *)

(** ** Facts about binary64 numbers *)

Module F64Facts.

(** *** The order *)

Ltac compare_cases :=
  repeat match goal with
  | H : context [Pos.compare_cont Eq ?a ?b] |- _ =>
      change (Pos.compare_cont Eq a b) with (Pos.compare a b) in H
  | |- context [Pos.compare_cont Eq ?a ?b] =>
      change (Pos.compare_cont Eq a b) with (Pos.compare a b)
  | H : context [Z.compare ?a ?b] |- _ => destruct (Z.compare_spec a b)
  | |- context [Z.compare ?a ?b] => destruct (Z.compare_spec a b)
  | H : context [Pos.compare ?a ?b] |- _ => destruct (Pos.compare_spec a b)
  | |- context [Pos.compare ?a ?b] => destruct (Pos.compare_spec a b)
  end.

Ltac float_cases x := destruct x as [[]|[]| |[] ? ?].

Ltac order_solve :=
  cbn; try discriminate; try reflexivity; intros;
  compare_cases; cbn in *; try discriminate; try reflexivity; try lia.

Lemma ltb_irrefl x : F64.ltb x x = false.
Proof. unfold F64.ltb, SFltb. float_cases x; order_solve. Qed.

Lemma ltb_trans x y z :
  F64.ltb x y = true -> F64.ltb y z = true -> F64.ltb x z = true.
Proof.
  unfold F64.ltb, SFltb.
  float_cases x; float_cases y; cbn; try discriminate;
    float_cases z; order_solve.
Qed.

Lemma ltb_asym x y : F64.ltb x y = true -> F64.ltb y x = false.
Proof.
  intros H. destruct (F64.ltb y x) eqn:E; [|reflexivity].
  pose proof (ltb_trans _ _ _ H E) as Hxx.
  rewrite ltb_irrefl in Hxx. discriminate.
Qed.

Lemma ltb_not_nan_l x y : F64.ltb x y = true -> F64.is_nan x = false.
Proof. unfold F64.ltb, SFltb. float_cases x; float_cases y; order_solve. Qed.

Lemma ltb_not_nan_r x y : F64.ltb x y = true -> F64.is_nan y = false.
Proof. unfold F64.ltb, SFltb. float_cases x; float_cases y; order_solve. Qed.

(** Without NaN the order is total. *)
Lemma not_ltb_leb x y :
  F64.is_nan x = false -> F64.is_nan y = false ->
  F64.ltb x y = false -> SFleb y x = true.
Proof.
  unfold F64.ltb, SFltb, SFleb. float_cases x; float_cases y; order_solve.
Qed.

Lemma ltb_leb x y : F64.ltb x y = true -> SFleb x y = true.
Proof.
  unfold F64.ltb, SFltb, SFleb. float_cases x; float_cases y; order_solve.
Qed.

Lemma leb_not_nan x y :
  SFleb x y = true -> F64.is_nan x = false /\ F64.is_nan y = false.
Proof.
  unfold SFleb. float_cases x; float_cases y; cbn; try discriminate; auto.
Qed.

Lemma leb_not_ltb x y : SFleb y x = true -> F64.ltb x y = false.
Proof.
  unfold F64.ltb, SFltb, SFleb. float_cases x; float_cases y; order_solve.
Qed.

Lemma leb_trans x y z : SFleb x y = true -> SFleb y z = true -> SFleb x z = true.
Proof.
  unfold SFleb.
  float_cases x; float_cases y; cbn; try discriminate;
    float_cases z; order_solve.
Qed.

Lemma leb_ltb_trans x y z :
  F64.is_nan x = false ->
  F64.ltb y x = false -> F64.ltb y z = true -> F64.ltb x z = true.
Proof.
  unfold F64.ltb, SFltb.
  float_cases x; float_cases y; cbn; try discriminate;
    float_cases z; order_solve.
Qed.

Lemma eqb_ltb_neq x y u :
  F64.eqb x u = true -> F64.ltb x y = true -> F64.eqb y u = false.
Proof.
  unfold F64.eqb, F64.ltb, SFeqb, SFltb.
  float_cases x; float_cases u; cbn; try discriminate;
    float_cases y; order_solve.
Qed.

Lemma finite_above_neg_inf x :
  F64.is_finite x = true -> F64.gtb x F64.neg_inf = true.
Proof. float_cases x; order_solve. Qed.

End F64Facts.

(** *** Rounding: integers convert to valid numbers, division by one is exact *)

Module F64Rounding.

Lemma digits2_pos_bounds m :
  2 ^ (Zpos (digits2_pos m) - 1) <= Zpos m < 2 ^ Zpos (digits2_pos m).
Proof.
  induction m as [m IH|m IH|]; cbn [digits2_pos].
  - rewrite Pos2Z.inj_succ.
    replace (Z.succ (Zpos (digits2_pos m)) - 1) with (Z.succ (Zpos (digits2_pos m) - 1)) by lia.
    rewrite !Z.pow_succ_r by lia. lia.
  - rewrite Pos2Z.inj_succ.
    replace (Z.succ (Zpos (digits2_pos m)) - 1) with (Z.succ (Zpos (digits2_pos m) - 1)) by lia.
    rewrite !Z.pow_succ_r by lia. lia.
  - simpl. lia.
Qed.

Lemma digits2_pos_unique m k :
  2 ^ (k - 1) <= Zpos m < 2 ^ k -> Zpos (digits2_pos m) = k.
Proof.
  intros [Hl Hu]. pose proof (digits2_pos_bounds m) as [Hl' Hu'].
  assert (0 < k).
  { destruct (Z.lt_ge_cases 0 k); [assumption|].
    destruct (Z.eq_dec k 0) as [->|]; [simpl in Hu; lia|].
    rewrite Z.pow_neg_r in Hu by lia. lia. }
  set (d := Zpos (digits2_pos m)) in *.
  destruct (Z.lt_trichotomy d k) as [Hlt|[Heq|Hgt]]; [|assumption|].
  - assert (2 ^ d <= 2 ^ (k - 1)) by (apply Z.pow_le_mono_r; lia). lia.
  - assert (2 ^ k <= 2 ^ (d - 1)) by (apply Z.pow_le_mono_r; lia). lia.
Qed.

Lemma iter_pos_nat {A} (f : A -> A) p x :
  SpecFloat.iter_pos f p x = Nat.iter (Pos.to_nat p) f x.
Proof.
  revert x. induction p as [p IH|p IH|]; intros x; cbn [SpecFloat.iter_pos].
  - rewrite !IH, Pos2Nat.inj_xI.
    replace (S (2 * Pos.to_nat p))%nat
      with (Pos.to_nat p + (Pos.to_nat p + 1))%nat by lia.
    rewrite !Nat.iter_add. reflexivity.
  - rewrite !IH, Pos2Nat.inj_xO.
    replace (2 * Pos.to_nat p)%nat with (Pos.to_nat p + Pos.to_nat p)%nat by lia.
    rewrite Nat.iter_add. reflexivity.
  - reflexivity.
Qed.

Lemma shr_1_m r : 0 <= shr_m r -> shr_m (shr_1 r) = shr_m r / 2.
Proof.
  destruct r as [m b s]. cbn [shr_m]. intros Hm.
  destruct m as [|[p|p|]|p]; cbn [shr_1 shr_m];
    [reflexivity | | | reflexivity | lia].
  - apply (Z.div_unique _ _ _ 1); lia.
  - apply (Z.div_unique _ _ _ 0); lia.
Qed.

Lemma shr_iter_m n r :
  0 <= shr_m r -> shr_m (Nat.iter n shr_1 r) = shr_m r / 2 ^ Z.of_nat n.
Proof.
  intros Hr. induction n as [|n IH].
  - simpl. rewrite Z.div_1_r. reflexivity.
  - change (Nat.iter (S n) shr_1 r) with (shr_1 (Nat.iter n shr_1 r)). rewrite shr_1_m.
    + rewrite IH, Nat2Z.inj_succ, Z.pow_succ_r by lia.
      rewrite Z.div_div by lia. f_equal. lia.
    + rewrite IH. apply Z.div_pos; lia.
Qed.

Lemma fexp_eq e : fexp F64.prec F64.emax e = fexp64 e.
Proof. reflexivity. Qed.

Lemma Zdigits2_bounds m :
  0 < m -> 2 ^ (Zdigits2 m - 1) <= m < 2 ^ Zdigits2 m.
Proof.
  destruct m as [|p|p]; try lia. intros _. apply digits2_pos_bounds.
Qed.

Lemma Zdigits2_unique m k :
  2 ^ (k - 1) <= m < 2 ^ k -> 0 < m -> Zdigits2 m = k.
Proof.
  destruct m as [|p|p]; try lia. intros H _. apply digits2_pos_unique, H.
Qed.

Lemma Zdigits2_div_pow2 m n :
  0 < m -> 0 <= n < Zdigits2 m -> Zdigits2 (m / 2 ^ n) = Zdigits2 m - n
  /\ 0 < m / 2 ^ n.
Proof.
  intros Hm Hn. pose proof (Zdigits2_bounds m Hm) as [Hl Hu].
  set (d := Zdigits2 m) in *.
  assert (Hp : 0 < 2 ^ n) by (apply Z.pow_pos_nonneg; lia).
  assert (Hl' : 2 ^ (d - n - 1) <= m / 2 ^ n).
  { apply Z.div_le_lower_bound; [lia|].
    rewrite <- Z.pow_add_r by lia. replace (n + (d - n - 1)) with (d - 1) by lia.
    assumption. }
  assert (Hu' : m / 2 ^ n < 2 ^ (d - n)).
  { apply Z.div_lt_upper_bound; [lia|].
    rewrite <- Z.pow_add_r by lia. replace (n + (d - n)) with d by lia.
    assumption. }
  assert (0 < 2 ^ (d - n - 1)) by (apply Z.pow_pos_nonneg; lia).
  split; [|lia]. apply Zdigits2_unique; [|lia].
  replace (d - n - 1) with (d - n - 1) in Hl' by lia. split; assumption.
Qed.

Lemma shr_m_of_loc m l : shr_m (shr_record_of_loc m l) = m.
Proof. destruct l as [|[]]; reflexivity. Qed.

Lemma shr_spec r e n :
  0 <= shr_m r -> 0 <= n ->
  shr_m (shr r e n).1 = shr_m r / 2 ^ n /\ (shr r e n).2 = e + n.
Proof.
  intros Hr Hn. destruct n as [|p|p]; [| |lia].
  - cbn [shr fst snd]. rewrite Z.div_1_r. lia.
  - cbn [shr fst snd]. rewrite iter_pos_nat, shr_iter_m by assumption.
    rewrite positive_nat_Z. auto.
Qed.

Lemma shr_fexp_spec m e l :
  0 <= m -> e <= fexp64 (Zdigits2 m + e) ->
  shr_m (shr_fexp F64.prec F64.emax m e l).1 = m / 2 ^ (fexp64 (Zdigits2 m + e) - e)
  /\ (shr_fexp F64.prec F64.emax m e l).2 = fexp64 (Zdigits2 m + e).
Proof.
  intros Hm He. unfold shr_fexp. rewrite fexp_eq.
  destruct (shr_spec (shr_record_of_loc m l) e (fexp64 (Zdigits2 m + e) - e))
    as [H1 H2]; [rewrite shr_m_of_loc; lia | lia |].
  rewrite H1, H2, shr_m_of_loc. split; [reflexivity | lia].
Qed.

Lemma round_nearest_even_cases m l :
  round_nearest_even m l = m \/ round_nearest_even m l = m + 1.
Proof.
  destruct l as [|[]]; cbn [round_nearest_even]; auto.
  destruct (Z.even m); auto.
Qed.

(** Rounding a mantissa that has at least as many digits as its exponent
    calls for gives a valid number: the first shift makes it canonical,
    rounding adds at most one, and the second shift repairs the carry. *)
Lemma binary_round_aux_valid s m e l :
  e <= fexp64 (Zpos (digits2_pos m) + e) ->
  F64.valid (binary_round_aux F64.prec F64.emax s (Zpos m) e l) = true.
Proof.
  intros He. unfold binary_round_aux.
  destruct (shr_fexp_spec (Zpos m) e l) as [H1 H2]; [lia | exact He |].
  destruct (shr_fexp F64.prec F64.emax (Zpos m) e l) as [r1 e1].
  cbn [fst snd] in H1, H2. cbn [Zdigits2] in H1, H2.
  set (d := Zpos (digits2_pos m)) in *.
  set (n := fexp64 (d + e) - e) in *.
  set (m1 := shr_m r1) in *.
  set (m2 := round_nearest_even m1 (loc_of_shr_record r1)).
  assert (Hm1 : 0 <= m1) by (rewrite H1; apply Z.div_pos; [lia | apply Z.pow_pos_nonneg; lia]).
  assert (Hm2 : m2 = m1 \/ m2 = m1 + 1) by apply round_nearest_even_cases.
  (* the rounded mantissa [m2] at exponent [e1] needs at most one more shift *)
  assert (Hfin : forall m3 e3,
             (shr_fexp F64.prec F64.emax m2 e1 loc_Exact) = (m3, e3) ->
             match shr_m m3 with
             | Zpos p => fexp64 (Zpos (digits2_pos p) + e3) = e3
             | Z0 => True
             | Zneg _ => False
             end).
  { intros m3 e3 Heq.
    destruct (Z.eq_dec m2 0) as [Hz|Hnz].
    - (* nothing left *)
      rewrite Hz in Heq. unfold shr_fexp in Heq. cbn [Zdigits2 shr_record_of_loc] in Heq.
      assert (Hm3 : shr_m m3 = 0).
      { replace m3 with (shr {| shr_m := 0; shr_r := false; shr_s := false |} e1
                          (fexp F64.prec F64.emax (0 + e1) - e1)).1 by (rewrite Heq; reflexivity).
        destruct (fexp F64.prec F64.emax (0 + e1) - e1) as [|p|p]; try reflexivity.
        cbn [shr fst]. rewrite iter_pos_nat.
        induction (Pos.to_nat p) as [|k IH]; [reflexivity|].
        change (Nat.iter (S k) shr_1 ?x) with (shr_1 (Nat.iter k shr_1 x)).
        rewrite shr_1_m; rewrite IH; [reflexivity | lia]. }
      rewrite Hm3. exact I.
    - assert (Hpos2 : 0 < m2) by lia.
      assert (Hd2 : e1 <= fexp64 (Zdigits2 m2 + e1) /\
                    (fexp64 (Zdigits2 m2 + e1) = e1
                     \/ (fexp64 (Zdigits2 m2 + e1) = e1 + 1 /\ m2 = 2 ^ 53))).
      { destruct (Z.eq_dec m1 0) as [Hz1|Hnz1].
        - (* everything was shifted out and the rest rounded up to one *)
          assert (m2 = 1) by lia. subst m2. rewrite H.
          assert (d <= n).
          { destruct (Z.lt_ge_cases n d) as [Hlt|]; [|assumption].
            destruct (Zdigits2_div_pow2 (Zpos m) n) as [_ Hq];
              [lia | cbn [Zdigits2]; fold d; lia |].
            rewrite <- H1 in Hq. lia. }
          cbn [Zdigits2 digits2_pos]. unfold fexp64 in *. lia.
        - assert (Hn : n < d).
          { destruct (Z.lt_ge_cases n d) as [|Hge]; [assumption|].
            exfalso. apply Hnz1. rewrite H1. apply Z.div_small.
            split; [lia|]. pose proof (digits2_pos_bounds m) as [_ Hu]. fold d in Hu.
            assert (2 ^ d <= 2 ^ n) by (apply Z.pow_le_mono_r; lia). lia. }
          destruct (Zdigits2_div_pow2 (Zpos m) n) as [Hq _];
            [lia | cbn [Zdigits2]; fold d; lia |].
          rewrite <- H1 in Hq. cbn [Zdigits2] in Hq. fold d in Hq.
          pose proof (Zdigits2_bounds m1 ltac:(lia)) as [Hl1 Hu1].
          rewrite Hq in Hl1, Hu1.
          destruct Hm2 as [Hm2|Hm2].
          + rewrite Hm2, Hq. unfold fexp64 in *. lia.
          + destruct (Z.eq_dec (m1 + 1) (2 ^ (d - n))) as [Hcarry|Hnc].
            * assert (Hdig : Zdigits2 m2 = d - n + 1).
              { apply Zdigits2_unique; [|lia]. rewrite Hm2, Hcarry.
                replace (d - n + 1 - 1) with (d - n) by lia.
                split; [lia|]. apply Z.pow_lt_mono_r; lia. }
              rewrite Hdig. unfold fexp64 in *.
              destruct (Z.eq_dec (d - n) 53) as [E53|N53].
              -- rewrite Hm2, Hcarry, E53. lia.
              -- lia.
            * assert (Hdig : Zdigits2 m2 = d - n).
              { apply Zdigits2_unique; [|lia]. rewrite Hm2. lia. }
              rewrite Hdig. unfold fexp64 in *. lia. }
      destruct Hd2 as [Hle Hd2].
      destruct (shr_fexp_spec m2 e1 loc_Exact) as [G1 G2]; [lia | exact Hle |].
      rewrite Heq in G1, G2. cbn [fst snd] in G1, G2.
      destruct Hd2 as [Hsame|[Hshift Hpow]].
      + rewrite Hsame in G1, G2. replace (e1 - e1) with 0 in G1 by lia.
        rewrite Z.div_1_r in G1. rewrite G1.
        destruct m2 as [|p2|p2]; try lia. cbn [Zdigits2] in Hsame. rewrite G2. exact Hsame.
      + rewrite Hshift in G1, G2. replace (e1 + 1 - e1) with 1 in G1 by lia.
        rewrite Hpow in G1. change (2 ^ 53 / 2 ^ 1) with 4503599627370496 in G1.
        rewrite G1, G2. change (Zpos (digits2_pos 4503599627370496)) with 53.
        rewrite Hpow in Hshift. change (Zdigits2 (2 ^ 53)) with 54 in Hshift.
        unfold fexp64 in *. lia. }
  destruct (shr_fexp F64.prec F64.emax m2 e1 loc_Exact) as [m3 e3].
  specialize (Hfin m3 e3 eq_refl).
  destruct (shr_m m3) as [|p|p]; [reflexivity | | contradiction].
  destruct (Z.leb_spec e3 (F64.emax - F64.prec)) as [Hb|Hb]; [|reflexivity].
  unfold F64.valid, valid_binary, bounded, canonical_mantissa.
  rewrite fexp_eq, Hfin, Z.eqb_refl. cbn [andb]. apply Z.leb_le. exact Hb.
Qed.

Lemma digits2_pos_iter_xO m k :
  digits2_pos (Pos.iter xO m k) = (digits2_pos m + k)%positive.
Proof.
  induction k as [|k IH] using Pos.peano_ind.
  - cbn. lia.
  - rewrite Pos.iter_succ. cbn [digits2_pos]. rewrite IH. lia.
Qed.

Lemma binary_round_valid s m e :
  F64.valid (binary_round F64.prec F64.emax s m e) = true.
Proof.
  unfold binary_round, shl_align. rewrite fexp_eq.
  set (d := Zpos (digits2_pos m)).
  destruct (fexp64 (d + e) - e) as [|k|k] eqn:Hk.
  - apply binary_round_aux_valid. fold d. lia.
  - apply binary_round_aux_valid. fold d. lia.
  - apply binary_round_aux_valid. rewrite digits2_pos_iter_xO, Pos2Z.inj_add. fold d.
    replace (d + Zpos k + fexp64 (d + e)) with (d + e) by lia. lia.
Qed.

(** The conversion of an integer is a binary64 number. *)
Lemma of_Z_valid z : F64.valid (F64.of_Z z) = true.
Proof.
  destruct z; [reflexivity | apply binary_round_valid ..].
Qed.

Lemma float_of_int_valid z x : float_of_int z = Ok x -> F64.valid x = true.
Proof.
  unfold float_of_int. pose proof (of_Z_valid z) as Hv.
  destruct (F64.of_Z z); intros [=]; subst; exact Hv.
Qed.

Lemma one_eq : F64.one = S754_finite false 4503599627370496 (-52).
Proof. reflexivity. Qed.

Lemma div_eucl_eq a b : Z.div_eucl a b = (a / b, a mod b).
Proof. unfold Z.div, Z.modulo. destruct (Z.div_eucl a b); reflexivity. Qed.

Lemma bounded_inv m e :
  bounded F64.prec F64.emax m e = true ->
  Z.max (Zpos (digits2_pos m) + e - 53) (-1074) = e /\ e <= 971.
Proof.
  unfold bounded, canonical_mantissa, fexp, emin, F64.prec, F64.emax.
  intros H. apply andb_prop in H as [H1 H2].
  apply Z.eqb_eq in H1. apply Z.leb_le in H2. simpl in H1, H2. lia.
Qed.

Lemma shr_fexp_canonical m e :
  Z.max (Zpos (digits2_pos m) + e - 53) (-1074) = e ->
  shr_fexp F64.prec F64.emax (Zpos m) e loc_Exact
  = ({| shr_m := Zpos m; shr_r := false; shr_s := false |}, e).
Proof.
  intros H. unfold shr_fexp, fexp, emin, F64.prec, F64.emax. 
  cbn [Zdigits2 shr_record_of_loc].
  replace (Z.max (Z.pos (digits2_pos m) + e - 53) (3 - 1024 - 53) - e) with 0
    by (change (3 - 1024 - 53) with (-1074); lia).
  reflexivity.
Qed.

Lemma binary_round_aux_canonical s m e :
  bounded F64.prec F64.emax m e = true ->
  binary_round_aux F64.prec F64.emax s (Zpos m) e loc_Exact = S754_finite s m e.
Proof.
  intros H. apply bounded_inv in H as [H1 H2].
  unfold binary_round_aux. rewrite shr_fexp_canonical by assumption.
  cbn [shr_m loc_of_shr_record round_nearest_even].
  rewrite shr_fexp_canonical by assumption. cbn [shr_m].
  unfold F64.emax, F64.prec. change (1024 - 53) with 971.
  destruct (Z.leb_spec e 971); [reflexivity | lia].
Qed.

Lemma SFdiv_core_binary_shift m1 e1 m2 e2 e' p :
  Z.min (fexp F64.prec F64.emax (Zdigits2 m1 + e1 - (Zdigits2 m2 + e2))) (e1 - e2) = e' ->
  e1 - e2 - e' = Zpos p ->
  SFdiv_core_binary F64.prec F64.emax m1 e1 m2 e2
  = (m1 * 2 ^ Zpos p / m2, e', new_location m2 ((m1 * 2 ^ Zpos p) mod m2)).
Proof.
  intros He' Hs. unfold SFdiv_core_binary. cbv zeta.
  rewrite He', Hs, div_eucl_eq, Z.shiftl_mul_pow2 by lia. reflexivity.
Qed.

(** Dividing a binary64 number by [1.0] gives the number itself. *)
Lemma div_one x : F64.valid x = true -> F64.div x F64.one = x.
Proof.
  rewrite one_eq. destruct x as [s|s| |s m e]; intros Hv.
  - simpl. destruct s; reflexivity.
  - simpl. destruct s; reflexivity.
  - reflexivity.
  - unfold F64.valid, valid_binary in Hv.
    pose proof (bounded_inv _ _ Hv) as [Hc He].
    unfold F64.div, SFdiv. rewrite xorb_false_r.
    destruct (Z.eq_dec e (-1074)) as [->|Hne].
    + rewrite (SFdiv_core_binary_shift _ _ _ _ (-1074) 52).
      * change (2 ^ 52) with 4503599627370496.
        rewrite Z.div_mul, Z.mod_mul by lia.
        change (new_location 4503599627370496 0) with loc_Exact.
        apply binary_round_aux_canonical. assumption.
      * unfold fexp, emin, F64.prec, F64.emax. cbn [Zdigits2].
        change (Z.pos (digits2_pos 4503599627370496)) with 53. lia.
      * reflexivity.
    + rewrite (SFdiv_core_binary_shift _ _ _ _ (e - 1) 53).
      * change (2 ^ 53) with (2 * 4503599627370496).
        rewrite Z.mul_assoc, Z.div_mul, Z.mod_mul by lia.
        change (new_location 4503599627370496 0) with loc_Exact.
        replace (Z.pos m * 2) with (Z.pos m~0) by lia.
        unfold binary_round_aux.
        assert (Hs : shr_fexp F64.prec F64.emax (Zpos m~0) (e - 1) loc_Exact
                     = ({| shr_m := Zpos m; shr_r := false; shr_s := false |}, e)).
        { unfold shr_fexp, fexp, emin, F64.prec, F64.emax.
          cbn [Zdigits2 shr_record_of_loc digits2_pos].
          rewrite Pos2Z.inj_succ. change (3 - 1024 - 53) with (-1074).
          replace (Z.max (Z.succ (Z.pos (digits2_pos m)) + (e - 1) - 53) (-1074) - (e - 1))
            with 1 by lia.
          cbn. f_equal. lia. }
        rewrite Hs. cbn [shr_m loc_of_shr_record round_nearest_even].
        rewrite shr_fexp_canonical by assumption. cbn [shr_m].
        unfold F64.emax, F64.prec. change (1024 - 53) with 971.
        destruct (Z.leb_spec e 971); [reflexivity | lia].
      * unfold fexp, emin, F64.prec, F64.emax. cbn [Zdigits2].
        change (Z.pos (digits2_pos 4503599627370496)) with 53. lia.
      * lia.
Qed.

End F64Rounding.


(** ** The error monad *)

Lemma bind_Ok {A B : Type} (m : result A) (k : A -> result B) (b : B) :
  bind m k = Ok b -> exists a, m = Ok a /\ k a = Ok b.
Proof. destruct m as [a|e]; cbn; [eauto | discriminate]. Qed.

Ltac inv_bind H :=
  let a := fresh "a" in
  let Ha := fresh "Ha" in
  apply bind_Ok in H as (a & Ha & H).

Lemma mapM_Ok_length {A B : Type} (f : A -> result B) l bs :
  mapM f l = Ok bs -> length bs = length l.
Proof.
  revert bs. induction l as [|a l IH]; intros bs H; cbn in H.
  - injection H as <-. reflexivity.
  - inv_bind H. inv_bind H. injection H as <-. cbn. f_equal. eauto.
Qed.

Lemma mapM_Forall2 {A B : Type} (f : A -> result B) l bs :
  Forall2 (fun a b => f a = Ok b) l bs -> mapM f l = Ok bs.
Proof.
  induction 1 as [|a b l bs Hab _ IH]; cbn; [reflexivity|].
  rewrite Hab, IH. reflexivity.
Qed.

(** An error of a traversal is the error of one of its elements. *)
Lemma mapM_error {A B : Type} (f : A -> result B) l e :
  mapM f l = Err e -> exists a, a ∈ l /\ f a = Err e.
Proof.
  induction l as [|a l IH]; cbn; [discriminate|].
  destruct (f a) as [b|e'] eqn:Ha; cbn.
  - destruct (mapM f l) as [bs|e'']; cbn; [discriminate|].
    intros [= ->]. destruct (IH eq_refl) as (a' & Hin & Ha').
    exists a'. split; [right|]; assumption.
  - intros [= ->]. exists a. split; [left|assumption].
Qed.

(** Rounding the coefficients for display raises no other error. *)
Lemma round_coeffs_errors rt coeffs e :
  App.round_coeffs rt coeffs = Err e -> e = TypeError \/ e = AttributeError.
Proof.
  destruct coeffs; cbn; try (intros [= <-]; auto).
  destruct (mapM _ (map_to_list d)) as [items|e'] eqn:Hm; cbn [bind]; [discriminate|].
  intros [= ->]. apply mapM_error in Hm as ([k v] & _ & Hv). cbn in Hv.
  destruct v; cbn in Hv; try discriminate; injection Hv as <-; auto.
Qed.

(** ** The scoring functions *)

Lemma get_val_dict rt car key x :
  get_val rt car key = Ok x -> exists m, car = VDict m.
Proof. destruct car; cbn; try discriminate. eauto. Qed.

Lemma scale_features_dict rt car scaled :
  scale_features rt car = Ok scaled -> exists m, car = VDict m.
Proof.
  unfold scale_features. intros H. inv_bind H. eapply get_val_dict; eauto.
Qed.

Lemma calculate_utility_score_dict rt car coeffs u :
  calculate_utility_score rt car coeffs = Ok u -> exists m, car = VDict m.
Proof.
  unfold calculate_utility_score. intros H. inv_bind H.
  eapply scale_features_dict; eauto.
Qed.

(** ** The loop *)

Lemma loop_body_pick rt shown coeffs st car :
  loop_body rt shown coeffs st car
  = let* r := scored rt shown coeffs car in Ok (pick st r).
Proof.
  unfold loop_body, scored, pick.
  destruct (calculate_utility_score rt car coeffs) as [u|e]; cbn; [|reflexivity].
  destruct (with_utility car (shown u)) as [out|e]; cbn; [|reflexivity].
  destruct (F64.gtb u (best_utility st)); reflexivity.
Qed.

Lemma loop_fold rt shown coeffs cars : forall st,
  loop rt shown coeffs st cars
  = let* rs := mapM (scored rt shown coeffs) cars in Ok (foldl pick st rs).
Proof.
  induction cars as [|car cars IH]; intros st; cbn; [reflexivity|].
  rewrite loop_body_pick.
  destruct (scored rt shown coeffs car) as [r|e]; cbn; [|reflexivity].
  rewrite IH. destruct (mapM (scored rt shown coeffs) cars); reflexivity.
Qed.

Lemma foldl_pick_all rs : forall st,
  all_results (foldl pick st rs) = all_results st ++ rs.*2.
Proof.
  induction rs as [|r rs IH]; intros st; cbn.
  - rewrite app_nil_r. reflexivity.
  - rewrite IH. unfold pick. destruct (F64.gtb r.1 (best_utility st)); cbn;
      rewrite <- app_assoc; reflexivity.
Qed.

(** The candidate recorded by the loop: either nothing exceeded the
    running best, or the record kept is the first of those that no other
    exceeds. *)
Lemma foldl_pick_best rs : forall st,
  (best_car (foldl pick st rs) = best_car st
   /\ best_utility (foldl pick st rs) = best_utility st
   /\ Forall (fun r => F64.gtb r.1 (best_utility st) = false) rs)
  \/ (exists i u out,
        rs !! i = Some (u, out)
        /\ best_car (foldl pick st rs) = out
        /\ best_utility (foldl pick st rs) = u
        /\ F64.gtb u (best_utility st) = true
        /\ (forall j r, rs !! j = Some r -> F64.gtb r.1 u = false)
        /\ (forall j r, (j < i)%nat -> rs !! j = Some r ->
                        F64.is_nan r.1 = false -> F64.ltb r.1 u = true)).
Proof.
  induction rs as [|[u1 o1] rs IH]; intros st; cbn [foldl].
  - left. auto.
  - destruct (F64.gtb u1 (best_utility st)) eqn:Hgt.
    + assert (Hst : pick st (u1, o1)
                    = {| best_car := o1; best_utility := u1;
                         all_results := all_results st ++ [o1] |})
        by (unfold pick; cbn; rewrite Hgt; reflexivity).
      rewrite Hst. right.
      destruct (IH {| best_car := o1; best_utility := u1;
                      all_results := all_results st ++ [o1] |})
        as [(Hc & Hu & Hall)|(i & u & out & Hi & Hc & Hu & Hgt' & Hmax & Hfirst)];
        cbn [best_car best_utility] in *.
      * exists 0%nat, u1, o1. repeat split; auto.
        -- intros [|j] r Hr; cbn in Hr.
           ++ injection Hr as <-. apply F64Facts.ltb_irrefl.
           ++ rewrite Forall_lookup in Hall. eapply Hall; eauto.
        -- intros j r Hj. lia.
      * exists (S i), u, out. repeat split; auto.
        -- unfold F64.gtb in *. eapply F64Facts.ltb_trans; eauto.
        -- intros [|j] r Hr; cbn in Hr.
           ++ injection Hr as <-. cbn [fst]. unfold F64.gtb in *.
              apply F64Facts.ltb_asym. assumption.
           ++ eapply Hmax; eauto.
        -- intros [|j] r Hj Hr Hnan; cbn in Hr.
           ++ injection Hr as <-. exact Hgt'.
           ++ eapply Hfirst; eauto. lia.
    + assert (Hst : pick st (u1, o1)
                    = {| best_car := best_car st; best_utility := best_utility st;
                         all_results := all_results st ++ [o1] |})
        by (unfold pick; cbn; rewrite Hgt; reflexivity).
      rewrite Hst.
      destruct (IH {| best_car := best_car st; best_utility := best_utility st;
                      all_results := all_results st ++ [o1] |})
        as [(Hc & Hu & Hall)|(i & u & out & Hi & Hc & Hu & Hgt' & Hmax & Hfirst)];
        cbn [best_car best_utility] in *.
      * left. repeat split; auto.
      * right. exists (S i), u, out. repeat split; auto.
        -- intros [|j] r Hr; cbn in Hr.
           ++ injection Hr as <-. cbn [fst]. unfold F64.gtb in *.
              destruct (F64.ltb u u1) eqn:E; [|reflexivity].
              rewrite (F64Facts.ltb_trans _ _ _ Hgt' E) in Hgt. discriminate.
           ++ eapply Hmax; eauto.
        -- intros [|j] r Hj Hr Hnan; cbn in Hr.
           ++ injection Hr as <-.
              exact (F64Facts.leb_ltb_trans u1 (best_utility st) u Hnan Hgt Hgt').
           ++ eapply Hfirst; eauto. lia.
Qed.

(** ** The sort *)

(** Arranging by rank permutes, whatever the ranks. *)
Lemma insert_rank_perm {A : Type} (p : nat * A) (k : list (nat * A)) :
  App.insert_rank p k ≡ₚ p :: k.
Proof.
  induction k as [|q k IH]; [reflexivity|].
  cbn [App.insert_rank]. destruct (q.1 <? p.1)%nat; [|reflexivity].
  rewrite IH. apply Permutation_swap.
Qed.

Lemma imap_ranks_snd {A : Type} (g : nat -> nat) (k : list A) :
  (imap (fun (i : nat) (a : A) => (g i, a)) k).*2 = k.
Proof.
  revert g. induction k as [|a k IH]; intros g; [reflexivity|].
  cbn. f_equal. apply (IH (g ∘ S)).
Qed.

Lemma by_rank_perm {A : Type} (ranks : list nat) (k : list A) : App.by_rank ranks k ≡ₚ k.
Proof.
  unfold App.by_rank.
  assert (H : forall j : list (nat * A), foldr App.insert_rank [] j ≡ₚ j).
  { induction j as [|p j IH]; [reflexivity|].
    cbn [foldr]. rewrite insert_rank_perm, IH. reflexivity. }
  rewrite H.
  pose proof (imap_ranks_snd (fun i => default 0%nat (ranks !! i)) k) as E.
  cbn beta in E. rewrite E. reflexivity.
Qed.

Section SortDesc.
Context {A : Type}.
Implicit Types (x y : float * A) (l : list (float * A)).

Lemma insert_desc_perm x l : App.insert_desc x l ≡ₚ x :: l.
Proof.
  induction l as [|y l IH]; cbn; [reflexivity|].
  destruct (F64.ltb x.1 y.1); [|reflexivity].
  rewrite IH. apply Permutation_swap.
Qed.

Lemma sort_desc_perm l : App.sort_desc l ≡ₚ l.
Proof.
  induction l as [|x l IH]; [reflexivity|].
  unfold App.sort_desc. cbn [foldr]. fold (App.sort_desc l).
  rewrite insert_desc_perm, IH. reflexivity.
Qed.

Lemma insert_desc_sorted x l :
  F64.is_nan x.1 = false ->
  Forall (fun y => F64.is_nan y.1 = false) l ->
  StronglySorted key_ge l ->
  StronglySorted key_ge (App.insert_desc x l).
Proof.
  intros Hx Hl Hs. induction Hs as [|y l Hs IH Hy]; cbn.
  - repeat constructor.
  - apply Forall_cons in Hl as [Hny Hl].
    destruct (F64.ltb x.1 y.1) eqn:Hlt.
    + constructor; [auto|].
      rewrite insert_desc_perm. constructor; [|assumption].
      apply F64Facts.ltb_leb. assumption.
    + assert (Hxy : key_ge x y) by (apply F64Facts.not_ltb_leb; assumption).
      constructor; [constructor; assumption|].
      constructor; [assumption|].
      eapply Forall_impl; [exact Hy|]. intros z Hz.
      unfold key_ge in *. eapply F64Facts.leb_trans; eassumption.
Qed.

Lemma sort_desc_sorted l :
  Forall (fun y => F64.is_nan y.1 = false) l ->
  StronglySorted key_ge (App.sort_desc l).
Proof.
  induction 1 as [|x l Hx Hl IH]; [constructor|].
  unfold App.sort_desc. cbn [foldr]. fold (App.sort_desc l).
  apply insert_desc_sorted; [assumption| |assumption].
  rewrite sort_desc_perm. assumption.
Qed.

(** Stability: the elements whose key equals [u] keep their order. *)
Lemma insert_desc_filter u x l :
  List.filter (fun y => F64.eqb y.1 u) (App.insert_desc x l)
  = List.filter (fun y => F64.eqb y.1 u) (x :: l).
Proof.
  induction l as [|y l IH]; [reflexivity|].
  cbn [App.insert_desc]. destruct (F64.ltb x.1 y.1) eqn:Hlt; [|reflexivity].
  cbn [List.filter] in *. rewrite IH.
  destruct (F64.eqb x.1 u) eqn:Ex; [|reflexivity].
  rewrite (F64Facts.eqb_ltb_neq _ _ _ Ex Hlt). reflexivity.
Qed.

Lemma sort_desc_filter u l :
  List.filter (fun y => F64.eqb y.1 u) (App.sort_desc l)
  = List.filter (fun y => F64.eqb y.1 u) l.
Proof.
  induction l as [|x l IH]; [reflexivity|].
  unfold App.sort_desc. cbn [foldr]. fold (App.sort_desc l).
  rewrite insert_desc_filter. cbn [List.filter]. rewrite IH. reflexivity.
Qed.

Lemma StronglySorted_Forall (R : relation (float * A)) (P : float * A -> Prop) l :
  StronglySorted R l -> Forall P l ->
  StronglySorted (fun a b => P a /\ P b /\ R a b) l.
Proof.
  induction 1 as [|a l Hs IH Ha]; intros HP; [constructor|].
  apply Forall_cons in HP as [HPa HPl]. constructor; [auto|].
  rewrite Forall_forall in *. intros b Hb. auto.
Qed.

(** A list in which no key is smaller than its successor is left as it
    is. *)
Lemma sort_desc_ordered l :
  (forall i x y, l !! i = Some x -> l !! S i = Some y -> F64.ltb x.1 y.1 = false) ->
  App.sort_desc l = l.
Proof.
  induction l as [|x l IH]; intros H; [reflexivity|].
  unfold App.sort_desc. cbn [foldr]. fold (App.sort_desc l).
  rewrite IH by (intros i a b Ha Hb; exact (H (S i) a b Ha Hb)).
  destruct l as [|y l]; [reflexivity|]. cbn [App.insert_desc].
  rewrite (H 0%nat x y eq_refl eq_refl). reflexivity.
Qed.

Lemma one_run_ordered l :
  App.one_run l.*1 = true ->
  forall i x y, l !! i = Some x -> l !! S i = Some y -> F64.ltb x.1 y.1 = false.
Proof.
  induction l as [|a l IH]; intros H i x y Hx Hy; [discriminate|].
  destruct l as [|b l]; [discriminate|].
  cbn in H. apply andb_true_iff in H as [Hab Hrest].
  destruct i as [|i]; cbn in Hx, Hy.
  - injection Hx as <-. injection Hy as <-. apply negb_true_iff. exact Hab.
  - exact (IH Hrest i x y Hx Hy).
Qed.

Lemma ordered_one_run l :
  (forall i x y, l !! i = Some x -> l !! S i = Some y -> F64.ltb x.1 y.1 = false) ->
  App.one_run l.*1 = true.
Proof.
  induction l as [|a l IH]; intros H; [reflexivity|].
  destruct l as [|b l]; [reflexivity|].
  cbn. apply andb_true_iff. split.
  - apply negb_true_iff. exact (H 0%nat a b eq_refl eq_refl).
  - apply IH. intros i x y Hx Hy. exact (H (S i) x y Hx Hy).
Qed.

(** What holds of the sort in each case. *)
Lemma list_sort_reverse_perm rt l : App.list_sort_reverse rt l ≡ₚ l.
Proof.
  unfold App.list_sort_reverse.
  destruct (_ || _); [apply sort_desc_perm | apply by_rank_perm].
Qed.

Lemma list_sort_reverse_total rt l :
  Forall (fun y => F64.is_nan y.1 = false) l ->
  App.list_sort_reverse rt l = App.sort_desc l.
Proof.
  intros H. unfold App.list_sort_reverse.
  assert (E : forallb (fun k => negb (F64.is_nan k)) l.*1 = true).
  { apply forallb_forall. intros k Hk. apply list_elem_of_In in Hk.
    apply list_elem_of_fmap in Hk as (y & -> & Hy).
    rewrite Forall_forall in H. rewrite (H y Hy). reflexivity. }
  rewrite E. reflexivity.
Qed.

Lemma list_sort_reverse_run rt l :
  (forall i x y, l !! i = Some x -> l !! S i = Some y -> F64.ltb x.1 y.1 = false) ->
  App.list_sort_reverse rt l = l.
Proof.
  intros H. unfold App.list_sort_reverse.
  rewrite (ordered_one_run l H), orb_true_r. apply sort_desc_ordered. exact H.
Qed.

End SortDesc.


(** ** The ranking operation as a whole *)

Lemma utility_field_scored_record m u : utility_field (scored_record m u) = Some u.
Proof. unfold utility_field, scored_record. rewrite lookup_insert_eq. reflexivity. Qed.

Lemma scored_records_length shown ms us :
  length ms = length us -> length (scored_records shown ms us) = length us.
Proof. intros H. unfold scored_records. rewrite length_zip_with. lia. Qed.

Lemma scored_records_lookup shown ms us i m u :
  ms !! i = Some m -> us !! i = Some u ->
  scored_records shown ms us !! i = Some (scored_record m (shown u)).
Proof.
  intros Hm Hu. unfold scored_records. rewrite lookup_zip_with, Hm. cbn.
  rewrite Hu. reflexivity.
Qed.

Lemma mapM_scored rt shown coeffs ms us :
  utilities rt coeffs ms us ->
  mapM (scored rt shown coeffs) (VDict <$> ms)
  = Ok (zip us (scored_records shown ms us)).
Proof.
  induction 1 as [|m u ms us Hu _ IH]; [reflexivity|].
  cbn. unfold scored at 1. rewrite Hu. cbn. rewrite IH. reflexivity.
Qed.

Lemma sort_keys shown ms us :
  length ms = length us ->
  mapM App.sort_key (scored_records shown ms us) = Ok (shown <$> us).
Proof.
  revert us. induction ms as [|m ms IH]; intros [|u us] Hlen; try discriminate;
    [reflexivity|].
  cbn. unfold App.sort_key at 1. cbn. rewrite lookup_insert_eq. cbn.
  unfold scored_records in IH. rewrite IH by (cbn in Hlen; lia). reflexivity.
Qed.

Lemma sort_by_utility_desc_scored rt shown ms us :
  length ms = length us ->
  App.sort_by_utility_desc rt (scored_records shown ms us)
  = Ok (ranked_records rt shown ms us).
Proof.
  intros Hlen. unfold App.sort_by_utility_desc. rewrite sort_keys by assumption.
  reflexivity.
Qed.

Lemma keyed_records shown ms us :
  Forall (fun p : float * value => utility_field p.2 = Some p.1)
         (zip (shown <$> us) (scored_records shown ms us)).
Proof.
  revert us. induction ms as [|m ms IH]; intros [|u us]; cbn; constructor.
  - apply utility_field_scored_record.
  - apply IH.
Qed.

Lemma ranked_records_perm rt shown ms us :
  length ms = length us ->
  ranked_records rt shown ms us ≡ₚ scored_records shown ms us.
Proof.
  intros Hlen. unfold ranked_records. rewrite list_sort_reverse_perm.
  rewrite snd_zip; [reflexivity|].
  rewrite length_fmap, scored_records_length by assumption. lia.
Qed.

Lemma keyed_records_not_nan shown ms us :
  Forall (fun u => F64.is_nan (shown u) = false) us ->
  Forall (fun p : float * value => F64.is_nan p.1 = false)
         (zip (shown <$> us) (scored_records shown ms us)).
Proof.
  intros Hnan. apply Forall_forall. intros [k r] Hin.
  apply elem_of_zip_l in Hin. cbn.
  apply list_elem_of_fmap in Hin as (u & -> & Hu).
  rewrite Forall_forall in Hnan. auto.
Qed.

Lemma ranked_records_sorted rt shown ms us :
  Forall (fun u => F64.is_nan (shown u) = false) us ->
  StronglySorted utility_ge (ranked_records rt shown ms us).
Proof.
  intros Hnan. unfold ranked_records.
  set (z := zip (shown <$> us) (scored_records shown ms us)).
  assert (Hz : Forall (fun p : float * value => F64.is_nan p.1 = false) z)
    by (apply keyed_records_not_nan; exact Hnan).
  rewrite (list_sort_reverse_total rt z Hz).
  assert (Hk : Forall (fun p : float * value => utility_field p.2 = Some p.1)
                      (App.sort_desc z))
    by (rewrite sort_desc_perm; apply keyed_records).
  eapply StronglySorted_fmap;
    [|exact (StronglySorted_Forall _ _ _ (sort_desc_sorted z Hz) Hk)].
  intros [k1 r1] [k2 r2] (H1 & H2 & Hge). cbn in *.
  exists k1, k2. auto.
Qed.

Lemma ranked_records_stable rt shown ms us u :
  Forall (fun u => F64.is_nan (shown u) = false) us ->
  List.filter (has_utility u) (ranked_records rt shown ms us)
  = List.filter (has_utility u) (zip (shown <$> us) (scored_records shown ms us)).*2.
Proof.
  intros Hnan. unfold ranked_records.
  set (z := zip (shown <$> us) (scored_records shown ms us)).
  rewrite (list_sort_reverse_total rt z (keyed_records_not_nan shown ms us Hnan)).
  assert (Hagree : forall l : list (float * value),
             Forall (fun p => utility_field p.2 = Some p.1) l ->
             List.filter (has_utility u) l.*2
             = (List.filter (fun p : float * value => F64.eqb p.1 u) l).*2).
  { intros l Hl. change (l.*2) with (map snd l). rewrite filter_map_swap.
    change (map snd ?x) with (x.*2). f_equal.
    apply filter_ext_in. intros p Hp.
    rewrite Forall_forall in Hl. unfold has_utility.
    rewrite (Hl p) by (apply list_elem_of_In; assumption). reflexivity. }
  rewrite !Hagree.
  - rewrite sort_desc_filter. reflexivity.
  - apply keyed_records.
  - rewrite sort_desc_perm. apply keyed_records.
Qed.

Lemma server_find_best_car rt user_id coeffs ms us :
  get_user_coefficients rt user_id = Ok coeffs ->
  utilities rt coeffs ms us ->
  Server.handle_call_tool rt (Server.FindBestCar user_id (VList (VDict <$> ms)))
  = Ok (Server.RankingOutput
          {| Server.r_user_id := user_id;
             Server.r_best_car :=
               best_car (foldl pick loop_init
                           (zip us (scored_records (fun u => u) ms us)));
             Server.r_all_cars_with_utilities := scored_records (fun u => u) ms us;
             Server.r_coefficients_used := coeffs |}).
Proof.
  intros Hc Hu. pose proof (Forall2_length _ _ _ Hu) as Hlen.
  cbn. rewrite Hc. cbn. rewrite loop_fold, (mapM_scored _ _ _ _ _ Hu). cbn.
  rewrite foldl_pick_all. cbn.
  rewrite snd_zip by (rewrite scored_records_length by assumption; lia).
  reflexivity.
Qed.

Lemma app_find_best_from_list rt user_id cars_json coeffs rounded ms us :
  json_loads rt cars_json = Ok (VList (VDict <$> ms)) ->
  get_user_coefficients rt user_id = Ok coeffs ->
  App.round_coeffs rt coeffs = Ok rounded ->
  utilities rt coeffs ms us ->
  App.find_best_from_list rt user_id cars_json
  = App.Success
      {| App.r_user_id := user_id;
         App.r_best_car :=
           best_car (foldl pick loop_init
                       (zip us (scored_records (round4 rt) ms us)));
         App.r_all_cars_ranked := ranked_records rt (round4 rt) ms us;
         App.r_coefficients_used := rounded;
         App.r_default_note := App.eq_default coeffs |}.
Proof.
  intros Hj Hc Hr Hu. pose proof (Forall2_length _ _ _ Hu) as Hlen.
  unfold App.find_best_from_list, App.find_best_from_list_body.
  rewrite Hj. cbn. rewrite Hc. cbn.
  rewrite loop_fold, (mapM_scored _ _ _ _ _ Hu). cbn.
  rewrite foldl_pick_all. cbn.
  rewrite snd_zip by (rewrite scored_records_length by assumption; lia).
  rewrite sort_by_utility_desc_scored by assumption. cbn.
  rewrite Hr. reflexivity.
Qed.

(** ** Scaling and scoring *)

Ltac key_in := apply list_elem_of_In; cbn; auto 10.

Lemma get_val_number rt (car : gmap string value) key x :
  car !! key ≫= number_of = Some x ->
  get_val rt (VDict car) key = Ok x /\ F64.valid x = true.
Proof.
  unfold get_val. cbn. destruct (car !! key) as [v|]; cbn; [|discriminate].
  destruct v as [ |b|z|f|s|l|d]; cbn; try discriminate.
  - unfold float_of_int. intros H.
    pose proof (F64Rounding.of_Z_valid z) as Hv.
    destruct (F64.of_Z z); try discriminate; injection H as <-; auto.
  - destruct (F64.valid f) eqn:Hv; [|discriminate]. intros [= <-]. auto.
Qed.

Lemma py_mul_number f c x :
  number_of c = Some x -> py_mul f c = Ok (F64.mul f x).
Proof.
  destruct c as [ |b|z|g|s|l|d]; cbn; try discriminate.
  - destruct (float_of_int z); [|discriminate]. intros [= <-]. reflexivity.
  - destruct (F64.valid g); [|discriminate]. intros [= <-]. reflexivity.
Qed.

Lemma py_getitem_number (coeffs : gmap string value) key x :
  coeffs !! key ≫= number_of = Some x ->
  exists c, py_getitem (VDict coeffs) key = Ok c /\ number_of c = Some x.
Proof.
  cbn. destruct (coeffs !! key) as [c|]; cbn; [eauto | discriminate].
Qed.

(** C1. For a raw record whose six features are present and numeric, and
    a coefficient vector whose six weights are present and numeric,
    scaling divides the features by 1000, 100, 10, 1, 100 and 1, and
    scoring yields exactly the sum over the keys, in fixed order, of
    [(raw[key] / divisor[key]) * coeff[key]]. *)
Theorem scale_then_score_is_linear_combination
    (rt : Runtime) (car coeffs : gmap string value) (raw coeff : string -> float) :
  (forall key, key ∈ FEATURE_KEYS -> car !! key ≫= number_of = Some (raw key)) ->
  (forall key, key ∈ FEATURE_KEYS -> coeffs !! key ≫= number_of = Some (coeff key)) ->
  scale_features rt (VDict car)
  = Ok ((fun key => F64.div (raw key) (F64.of_Z (divisor key))) <$> FEATURE_KEYS)
  /\ calculate_utility_score rt (VDict car) (VDict coeffs)
     = Ok (linear_combination rt raw coeff)
  /\ (py_sum rt = sum_left ->
      calculate_utility_score rt (VDict car) (VDict coeffs)
      = Ok (foldl (fun acc key =>
                     F64.add acc
                       (F64.mul (F64.div (raw key) (F64.of_Z (divisor key)))
                                (coeff key)))
                  F64.zero FEATURE_KEYS)).
Proof.
  intros Hraw Hcoeff.
  cut (scale_features rt (VDict car)
       = Ok ((fun key => F64.div (raw key) (F64.of_Z (divisor key))) <$> FEATURE_KEYS)
       /\ calculate_utility_score rt (VDict car) (VDict coeffs)
          = Ok (linear_combination rt raw coeff)).
  { intros [H1 H2]. split; [exact H1|]. split; [exact H2|].
    intros Hsum. rewrite H2. unfold linear_combination. rewrite Hsum. reflexivity. }
  destruct (get_val_number rt car "price" _ (Hraw "price" ltac:(key_in))) as [G1 _].
  destruct (get_val_number rt car "range" _ (Hraw "range" ltac:(key_in))) as [G2 _].
  destruct (get_val_number rt car "efficiency" _ (Hraw "efficiency" ltac:(key_in))) as [G3 _].
  destruct (get_val_number rt car "acceleration" _ (Hraw "acceleration" ltac:(key_in))) as [G4 V4].
  destruct (get_val_number rt car "fast_charge" _ (Hraw "fast_charge" ltac:(key_in))) as [G5 _].
  destruct (get_val_number rt car "seat_count" _ (Hraw "seat_count" ltac:(key_in))) as [G6 V6].
  assert (Hscale : scale_features rt (VDict car)
            = Ok ((fun key => F64.div (raw key) (F64.of_Z (divisor key)))
                    <$> FEATURE_KEYS)).
  { unfold scale_features. rewrite G1, G2, G3, G4, G5, G6. cbn [bind].
    unfold py_div_int, FEATURE_KEYS. cbn [fmap list_fmap].
    change (divisor "price") with 1000. change (divisor "range") with 100.
    change (divisor "efficiency") with 10. change (divisor "acceleration") with 1.
    change (divisor "fast_charge") with 100. change (divisor "seat_count") with 1.
    change (F64.of_Z 1) with F64.one.
    rewrite !F64Rounding.div_one by assumption. reflexivity. }
  split; [exact Hscale|].
  unfold calculate_utility_score. rewrite Hscale. cbn [bind].
  destruct (py_getitem_number coeffs "price" _ (Hcoeff "price" ltac:(key_in))) as (c1 & C1 & N1).
  destruct (py_getitem_number coeffs "range" _ (Hcoeff "range" ltac:(key_in))) as (c2 & C2 & N2).
  destruct (py_getitem_number coeffs "efficiency" _ (Hcoeff "efficiency" ltac:(key_in))) as (c3 & C3 & N3).
  destruct (py_getitem_number coeffs "acceleration" _ (Hcoeff "acceleration" ltac:(key_in))) as (c4 & C4 & N4).
  destruct (py_getitem_number coeffs "fast_charge" _ (Hcoeff "fast_charge" ltac:(key_in))) as (c5 & C5 & N5).
  destruct (py_getitem_number coeffs "seat_count" _ (Hcoeff "seat_count" ltac:(key_in))) as (c6 & C6 & N6).
  unfold FEATURE_KEYS. cbn [mapM]. rewrite C1, C2, C3, C4, C5, C6. cbn [bind].
  cbn [fmap list_fmap zip zip_with mapM fst snd].
  rewrite (py_mul_number _ _ _ N1), (py_mul_number _ _ _ N2),
    (py_mul_number _ _ _ N3), (py_mul_number _ _ _ N4),
    (py_mul_number _ _ _ N5), (py_mul_number _ _ _ N6).
  reflexivity.
Qed.

Lemma scale_then_score_is_linear_combination_witness :
  calculate_utility_score Sample.rt (VDict Sample.scenario_car) DEFAULT_COEFFS
  = Ok (linear_combination Sample.rt
                           (Sample.number_at Sample.scenario_car)
                           (Sample.number_at DEFAULT_COEFFS_map)).
Proof.
  refine (proj1 (proj2 (scale_then_score_is_linear_combination Sample.rt
           Sample.scenario_car DEFAULT_COEFFS_map
           (Sample.number_at Sample.scenario_car)
           (Sample.number_at DEFAULT_COEFFS_map) _ _))).
  - intros key Hk. apply list_elem_of_In in Hk. cbn in Hk.
    repeat (destruct Hk as [<-|Hk]; [vm_compute; reflexivity|]). destruct Hk.
  - intros key Hk. apply list_elem_of_In in Hk. cbn in Hk.
    repeat (destruct Hk as [<-|Hk]; [vm_compute; reflexivity|]). destruct Hk.
Defined.

(** C7. When a feature key is missing from the record, or present with
    the value null, its component of the scaled vector is [0.0], whatever
    its divisor: the divisor is applied to zero. *)
Theorem missing_or_null_feature_scales_to_zero
    (rt : Runtime) (car : gmap string value) (i : nat) (key : string) :
  FEATURE_KEYS !! i = Some key ->
  car !! key = None \/ car !! key = Some VNone ->
  get_val rt (VDict car) key = Ok F64.zero
  /\ F64.div F64.zero (F64.of_Z (divisor key)) = F64.zero
  /\ forall scaled, scale_features rt (VDict car) = Ok scaled ->
                    scaled !! i = Some F64.zero.
Proof.
  intros Hkey Hmiss.
  assert (Hg : get_val rt (VDict car) key = Ok F64.zero).
  { unfold get_val. cbn. destruct Hmiss as [-> | ->]; reflexivity. }
  split; [exact Hg|]. split.
  { unfold FEATURE_KEYS in Hkey.
    do 6 (destruct i as [|i]; [injection Hkey as <-; vm_compute; reflexivity|]).
    discriminate. }
  intros scaled Hs. unfold scale_features in Hs.
  destruct (get_val rt (VDict car) "price") as [x1|] eqn:E1; [|discriminate].
  destruct (get_val rt (VDict car) "range") as [x2|] eqn:E2; [|discriminate].
  destruct (get_val rt (VDict car) "efficiency") as [x3|] eqn:E3; [|discriminate].
  destruct (get_val rt (VDict car) "acceleration") as [x4|] eqn:E4; [|discriminate].
  destruct (get_val rt (VDict car) "fast_charge") as [x5|] eqn:E5; [|discriminate].
  destruct (get_val rt (VDict car) "seat_count") as [x6|] eqn:E6; [|discriminate].
  cbn [bind] in Hs. injection Hs as <-.
  unfold FEATURE_KEYS in Hkey.
  do 6 (destruct i as [|i];
        [injection Hkey as <-; cbn;
         first [ rewrite Hg in E1; injection E1 as <-
               | rewrite Hg in E2; injection E2 as <-
               | rewrite Hg in E3; injection E3 as <-
               | rewrite Hg in E4; injection E4 as <-
               | rewrite Hg in E5; injection E5 as <-
               | rewrite Hg in E6; injection E6 as <- ];
         reflexivity|]).
  discriminate.
Qed.

Lemma missing_or_null_feature_scales_to_zero_witness :
  get_val Sample.rt (VDict Sample.sparse_car) "range" = Ok F64.zero
  /\ F64.div F64.zero (F64.of_Z (divisor "range")) = F64.zero
  /\ forall scaled, scale_features Sample.rt (VDict Sample.sparse_car) = Ok scaled ->
                    scaled !! 1%nat = Some F64.zero.
Proof.
  apply (missing_or_null_feature_scales_to_zero Sample.rt Sample.sparse_car 1 "range").
  - reflexivity.
  - right. vm_compute. reflexivity.
Defined.

(** C9. With the default coefficients, the candidate
    [{price: 45000, range: 500, efficiency: 150, acceleration: 6.1,
      fast_charge: 170, seat_count: 5}] scales to
    [[45, 5, 15, 6.1, 1.7, 5]]; the six products are [-22.5], [4.0],
    [-4.5], [-3.05], [1.02] and [2.0], and the utility is exactly
    [-23.03], which is also the value of
    [-22.5 + 4.0 - 4.5 - 3.05 + 1.02 + 2.0]. *)
Theorem scenario_default_coefficients (rt : Runtime) :
  py_sum rt = sum_left \/ py_sum rt = sum_compensated ->
  let scaled := [ F64.of_Z 45; F64.of_Z 5; F64.of_Z 15; F64.decimal 61 1;
                  F64.decimal 17 1; F64.of_Z 5 ] in
  let weights := [ F64.decimal (-5) 1; F64.decimal 8 1; F64.decimal (-3) 1;
                   F64.decimal (-5) 1; F64.decimal 6 1; F64.decimal 4 1 ] in
  scale_features rt (VDict Sample.scenario_car) = Ok scaled
  /\ zip_with F64.mul scaled weights
     = [ F64.decimal (-225) 1; F64.of_Z 4; F64.decimal (-45) 1;
         F64.decimal (-305) 2; F64.decimal 102 2; F64.of_Z 2 ]
  /\ calculate_utility_score rt (VDict Sample.scenario_car) DEFAULT_COEFFS
     = Ok (F64.decimal (-2303) 2)
  /\ F64.add (F64.add (F64.sub (F64.sub (F64.add (F64.decimal (-225) 1) (F64.of_Z 4))
                                        (F64.decimal 45 1))
                               (F64.decimal 305 2))
                      (F64.decimal 102 2))
             (F64.of_Z 2)
     = F64.decimal (-2303) 2.
Proof.
  intros Hsum. cbv zeta. repeat split; try (vm_compute; reflexivity).
  unfold calculate_utility_score.
  replace (scale_features rt (VDict Sample.scenario_car))
    with (Ok [ F64.of_Z 45; F64.of_Z 5; F64.of_Z 15; F64.decimal 61 1;
               F64.decimal 17 1; F64.of_Z 5 ]) by (vm_compute; reflexivity).
  cbn [bind].
  replace (mapM (py_getitem DEFAULT_COEFFS) FEATURE_KEYS)
    with (Ok [ VFloat (F64.decimal (-5) 1); VFloat (F64.decimal 8 1);
               VFloat (F64.decimal (-3) 1); VFloat (F64.decimal (-5) 1);
               VFloat (F64.decimal 6 1); VFloat (F64.decimal 4 1) ])
    by (vm_compute; reflexivity).
  cbn [bind zip zip_with mapM py_mul fst snd].
  destruct Hsum as [-> | ->]; vm_compute; reflexivity.
Qed.

Lemma scenario_default_coefficients_witness :
  calculate_utility_score Sample.rt (VDict Sample.scenario_car) DEFAULT_COEFFS
  = Ok (F64.decimal (-2303) 2)
  /\ calculate_utility_score Sample.rt_compensated (VDict Sample.scenario_car)
       DEFAULT_COEFFS
     = Ok (F64.decimal (-2303) 2).
Proof.
  split.
  - apply (scenario_default_coefficients Sample.rt). left. reflexivity.
  - apply (scenario_default_coefficients Sample.rt_compensated). right. reflexivity.
Defined.

(** ** Resolving the coefficients *)

(** The default vector holds the six weights. *)
Lemma DEFAULT_COEFFS_entries :
  map_to_list DEFAULT_COEFFS_map
  ≡ₚ [ ("price", VFloat (F64.decimal (-5) 1));
       ("range", VFloat (F64.decimal 8 1));
       ("efficiency", VFloat (F64.decimal (-3) 1));
       ("acceleration", VFloat (F64.decimal (-5) 1));
       ("fast_charge", VFloat (F64.decimal 6 1));
       ("seat_count", VFloat (F64.decimal 4 1)) ].
Proof.
  unfold DEFAULT_COEFFS_map.
  repeat (rewrite map_to_list_insert by (vm_compute; reflexivity);
          apply Permutation_skip).
  rewrite map_to_list_empty. reflexivity.
Qed.

(** C3. The store is read at the key ["params:" + user_id].  When it has
    no value there, the default coefficient vector is returned as it is.
    When it holds text that is not valid JSON, the call fails with the
    parser's error ([json.JSONDecodeError]) and the default is not
    returned. *)
Theorem coefficients_absent_or_malformed (rt : Runtime) (user_id : string) :
  (redis_get rt ("params:" +:+ user_id) = Ok None ->
   get_user_coefficients rt user_id = Ok DEFAULT_COEFFS)
  /\ (forall r,
        redis_get rt ("params:" +:+ user_id) = Ok (Some r) ->
        holds_invalid_json rt r ->
        get_user_coefficients rt user_id = Err JSONDecodeError).
Proof.
  unfold get_user_coefficients. split.
  - intros ->. reflexivity.
  - intros r -> Hbad. cbn. destruct r as [s|b|v]; cbn in Hbad.
    + rewrite Hbad. reflexivity.
    + destruct Hbad as (s & -> & ->). reflexivity.
    + contradiction.
Qed.

Lemma coefficients_absent_or_malformed_witness :
  get_user_coefficients Sample.rt "zed" = Ok DEFAULT_COEFFS
  /\ get_user_coefficients Sample.rt "erin" = Err JSONDecodeError.
Proof.
  split.
  - destruct (coefficients_absent_or_malformed Sample.rt "zed") as [H _].
    apply H. reflexivity.
  - destruct (coefficients_absent_or_malformed Sample.rt "erin") as [_ H].
    apply (H (RStr Sample.text_corrupt)); reflexivity.
Defined.

(** C4. When the stored value is a JSON object without the field
    [coeffs], the whole default vector is returned, whatever else the
    object holds; when the field is there, its content is returned as it
    is, without any check. *)
Theorem coefficients_field_or_default
    (rt : Runtime) (user_id : string) (r : reply) (m : gmap string value) :
  redis_get rt ("params:" +:+ user_id) = Ok (Some r) ->
  holds_json rt r (VDict m) ->
  (m !! "coeffs" = None -> get_user_coefficients rt user_id = Ok DEFAULT_COEFFS)
  /\ (forall v, m !! "coeffs" = Some v -> get_user_coefficients rt user_id = Ok v).
Proof.
  intros Hget Hjson.
  assert (H : get_user_coefficients rt user_id
              = Ok (default DEFAULT_COEFFS (m !! "coeffs"))).
  { unfold get_user_coefficients. rewrite Hget. cbn.
    destruct r as [s|b|v]; cbn in Hjson.
    - rewrite Hjson. reflexivity.
    - destruct Hjson as (s & -> & ->). reflexivity.
    - subst v. reflexivity. }
  rewrite H. split.
  - intros ->. reflexivity.
  - intros v ->. reflexivity.
Qed.

Lemma coefficients_field_or_default_witness :
  get_user_coefficients Sample.rt "carol" = Ok DEFAULT_COEFFS
  /\ get_user_coefficients Sample.rt "frank" = Ok DEFAULT_COEFFS
  /\ get_user_coefficients Sample.rt "dave" = Ok (VDict Sample.partial_coeffs).
Proof.
  split; [|split].
  - destruct (coefficients_field_or_default Sample.rt "carol"
                (RStr Sample.text_no_coeffs)
                (<["updated" := VInt 3]> (<["price" := VFloat (F64.decimal 95 1)]> ∅)))
      as [H _]; [reflexivity | reflexivity |].
    apply H. reflexivity.
  - destruct (coefficients_field_or_default Sample.rt "frank"
                (RBytes Sample.text_no_coeffs)
                (<["updated" := VInt 3]> (<["price" := VFloat (F64.decimal 95 1)]> ∅)))
      as [H _]; [reflexivity | exists Sample.text_no_coeffs; split; reflexivity |].
    apply H. reflexivity.
  - destruct (coefficients_field_or_default Sample.rt "dave"
                (RStr Sample.text_partial)
                (<["coeffs" := VDict Sample.partial_coeffs]> ∅))
      as [_ H]; [reflexivity | reflexivity |].
    apply H. reflexivity.
Defined.

(** ** A missing coefficient *)

Lemma mapM_first_error {A B : Type} (f : A -> result B) pre a post e :
  (forall x, x ∈ pre -> exists b, f x = Ok b) ->
  f a = Err e ->
  mapM f (pre ++ a :: post) = Err e.
Proof.
  intros Hpre Ha. induction pre as [|x pre IH]; cbn.
  - rewrite Ha. reflexivity.
  - destruct (Hpre x) as [b ->]; [left|]. cbn.
    rewrite IH; [reflexivity|]. intros y Hy. apply Hpre. right. assumption.
Qed.

(** C8. When scaling succeeds and the coefficient vector lacks one of the
    six keys, scoring fails with [KeyError] on the first absent key in the
    fixed key order.  The failure ends the call: the tool-protocol
    adapter raises it, the UI adapter returns it as an error payload, and
    no default value takes its place. *)
Theorem missing_coefficient_is_fatal
    (rt : Runtime) (car : value) (coeffs : gmap string value)
    (scaled : list float) (pre post : list string) (key : string) :
  scale_features rt car = Ok scaled ->
  FEATURE_KEYS = pre ++ key :: post ->
  (forall k, k ∈ pre -> is_Some (coeffs !! k)) ->
  coeffs !! key = None ->
  calculate_utility_score rt car (VDict coeffs) = Err (KeyError key)
  /\ forall user_id,
       get_user_coefficients rt user_id = Ok (VDict coeffs) ->
       (forall rest,
          Server.handle_call_tool rt
            (Server.FindBestCar user_id (VList (car :: rest)))
          = Err (KeyError key))
       /\ (forall rest cars_json,
             json_loads rt cars_json = Ok (VList (car :: rest)) ->
             App.find_best_from_list rt user_id cars_json
             = App.Failure (KeyError key))
       /\ (forall price range efficiency acceleration fast_charge seat_count,
             car = VDict (<["price" := price]>
                         (<["range" := range]>
                         (<["efficiency" := efficiency]>
                         (<["acceleration" := acceleration]>
                         (<["fast_charge" := fast_charge]>
                         (<["seat_count" := seat_count]> ∅)))))) ->
             Server.handle_call_tool rt
               (Server.CalculateUtility user_id price range efficiency
                  acceleration fast_charge seat_count)
             = Err (KeyError key)
             /\ App.calculate_single_utility rt user_id price range efficiency
                  acceleration fast_charge seat_count
                = App.Failure (KeyError key)).
Proof.
  intros Hscale Hkeys Hpre Hkey.
  assert (Hscore : calculate_utility_score rt car (VDict coeffs) = Err (KeyError key)).
  { unfold calculate_utility_score. rewrite Hscale, Hkeys. cbn [bind].
    rewrite (mapM_first_error _ pre key post (KeyError key)); [reflexivity| |].
    - intros k Hk. destruct (Hpre k Hk) as [v Hv]. exists v. cbn. rewrite Hv.
      reflexivity.
    - cbn. rewrite Hkey. reflexivity. }
  split; [exact Hscore|]. intros user_id Hc. repeat split.
  - intros rest. cbn. rewrite Hc. cbn. unfold loop_body. rewrite Hscore. reflexivity.
  - intros rest cars_json Hj.
    unfold App.find_best_from_list, App.find_best_from_list_body.
    rewrite Hj. cbn. rewrite Hc. cbn. unfold loop_body. rewrite Hscore. reflexivity.
  - subst car. cbn. rewrite Hc. cbn. rewrite Hscore. reflexivity.
  - subst car. unfold App.calculate_single_utility. rewrite Hc. cbn.
    rewrite Hscore. reflexivity.
Qed.

Lemma missing_coefficient_is_fatal_witness :
  calculate_utility_score Sample.rt (VDict Sample.tesla) (VDict Sample.partial_coeffs)
  = Err (KeyError "efficiency")
  /\ Server.handle_call_tool Sample.rt
       (Server.FindBestCar "dave" (VList [VDict Sample.tesla; VDict Sample.hyundai]))
     = Err (KeyError "efficiency").
Proof.
  destruct (missing_coefficient_is_fatal Sample.rt (VDict Sample.tesla)
              Sample.partial_coeffs
              [ F64.of_Z 45; F64.of_Z 5; F64.of_Z 15; F64.decimal 61 1;
                F64.decimal 17 1; F64.of_Z 5 ]
              ["price"; "range"] ["acceleration"; "fast_charge"; "seat_count"]
              "efficiency") as [H1 H2].
  - vm_compute. reflexivity.
  - reflexivity.
  - intros k Hk. apply list_elem_of_In in Hk. cbn in Hk.
    destruct Hk as [<-|[<-|[]]]; vm_compute; eauto.
  - vm_compute. reflexivity.
  - split; [exact H1|].
    destruct (H2 "dave") as [H3 _]; [vm_compute; reflexivity|].
    apply H3.
Defined.

(** ** The best candidate *)

Lemma first_maximum_unique us i u i' u' :
  first_maximum us i u -> first_maximum us i' u' -> i = i' /\ u = u'.
Proof.
  intros (Hi & Hmax & Hfirst) (Hi' & Hmax' & Hfirst').
  assert (i = i') as <-.
  { destruct (Nat.lt_trichotomy i i') as [Hlt|[Heq|Hgt]]; [|assumption|].
    - pose proof (Hfirst' i u Hlt Hi) as Hlt'.
      pose proof (F64Facts.leb_not_ltb _ _ (Hmax i' u' Hi')) as Hge.
      rewrite Hlt' in Hge. discriminate.
    - pose proof (Hfirst i' u' Hgt Hi') as Hlt'.
      pose proof (F64Facts.leb_not_ltb _ _ (Hmax' i u Hi)) as Hge.
      rewrite Hlt' in Hge. discriminate. }
  split; [reflexivity|]. congruence.
Qed.

Lemma scored_pairs_lookup shown ms us j v :
  length ms = length us -> us !! j = Some v ->
  exists out, zip us (scored_records shown ms us) !! j = Some (v, out).
Proof.
  intros Hlen Hv.
  destruct (lookup_lt_is_Some_2 (scored_records shown ms us) j) as [out Hout].
  { rewrite scored_records_length by assumption. eapply lookup_lt_Some; eauto. }
  exists out. apply lookup_zip_Some. auto.
Qed.

Lemma loop_best shown ms us :
  ms <> [] -> length ms = length us ->
  Forall (fun u => F64.gtb u F64.neg_inf = true) us ->
  exists i m u,
    ms !! i = Some m /\ first_maximum us i u
    /\ best_car (foldl pick loop_init (zip us (scored_records shown ms us)))
       = scored_record m (shown u).
Proof.
  intros Hne Hlen Hreal.
  destruct (foldl_pick_best (zip us (scored_records shown ms us)) loop_init)
    as [(_ & _ & Hall)|(i & u & out & Hi & Hc & _ & _ & Hmax & Hfirst)].
  - exfalso. destruct ms as [|m ms]; [congruence|].
    destruct us as [|u us]; [discriminate|]. cbn in Hall.
    apply Forall_cons in Hall as [Hu _]. apply Forall_cons in Hreal as [Hu' _].
    cbn in Hu. rewrite Hu in Hu'. discriminate.
  - apply lookup_zip_Some in Hi as [Hu Hout].
    apply lookup_zip_with_Some in Hout as (m & u' & -> & Hm & Hu').
    assert (u' = u) as -> by congruence.
    assert (Hnan : forall j v, us !! j = Some v -> F64.is_nan v = false).
    { intros j v Hv. rewrite Forall_lookup in Hreal.
      eapply F64Facts.ltb_not_nan_r. exact (Hreal j v Hv). }
    exists i, m, u. repeat split; auto.
    + intros j v Hv.
      destruct (scored_pairs_lookup shown ms us j v Hlen Hv) as [o Ho].
      apply F64Facts.not_ltb_leb; eauto. exact (Hmax j (v, o) Ho).
    + intros j v Hj Hv.
      destruct (scored_pairs_lookup shown ms us j v Hlen Hv) as [o Ho].
      apply (Hfirst j (v, o) Hj Ho). cbn. eauto.
Qed.

(** When no utility exceeds negative infinity (each is negative infinity
    or NaN), the loop records no candidate. *)
Lemma loop_best_none shown ms us :
  Forall (fun u => F64.gtb u F64.neg_inf = false) us ->
  best_car (foldl pick loop_init (zip us (scored_records shown ms us))) = VNone.
Proof.
  intros Hall.
  destruct (foldl_pick_best (zip us (scored_records shown ms us)) loop_init)
    as [(Hc & _ & _)|(i & u & out & Hi & _ & _ & Hgt & _)]; [exact Hc|].
  exfalso. apply lookup_zip_Some in Hi as [Hu _].
  rewrite Forall_lookup in Hall. cbn in Hgt. rewrite (Hall i u Hu) in Hgt.
  discriminate.
Qed.


Lemma sample_utilities :
  utilities Sample.rt DEFAULT_COEFFS
    [Sample.tesla; Sample.volkswagen; Sample.hyundai]
    [F64.decimal (-2303) 2; F64.decimal (-2354) 2; F64.decimal (-2549) 2].
Proof. repeat constructor; vm_compute; reflexivity. Qed.


(** The candidate of [test_local.py] comes first: the example list is
    already in ranking order. *)
Example sample_best_is_tesla :
  exists r,
    Server.handle_call_tool Sample.rt
      (Server.FindBestCar "zed"
         (VList (VDict <$> [Sample.tesla; Sample.volkswagen; Sample.hyundai])))
    = Ok (Server.RankingOutput r)
    /\ Server.r_best_car r = scored_record Sample.tesla (F64.decimal (-2303) 2).
Proof.
  eexists. split.
  - apply (server_find_best_car Sample.rt "zed" DEFAULT_COEFFS _ _ eq_refl
             sample_utilities).
  - reflexivity.
Qed.


(** ** An empty candidate list *)

(** C2, as the code behaves.  With an empty candidate list the ranking
    operation raises no error for the empty list; no such error exists
    in the code.  Once the coefficients are resolved, the tool adapter
    returns a result whose best candidate is [None] and whose sequence is
    empty.  The UI adapter returns the same, with the coefficients
    rounded for display, when that rounding succeeds; when it fails (an
    entry of the coefficients is not a number) the UI adapter returns the
    error of the rounding as its error payload. *)
Theorem empty_candidate_list_result
    (rt : Runtime) (user_id : string) (coeffs : value) :
  get_user_coefficients rt user_id = Ok coeffs ->
  Server.handle_call_tool rt (Server.FindBestCar user_id (VList []))
  = Ok (Server.RankingOutput
          {| Server.r_user_id := user_id;
             Server.r_best_car := VNone;
             Server.r_all_cars_with_utilities := [];
             Server.r_coefficients_used := coeffs |})
  /\ (forall cars_json rounded,
        json_loads rt cars_json = Ok (VList []) ->
        App.round_coeffs rt coeffs = Ok rounded ->
        App.find_best_from_list rt user_id cars_json
        = App.Success
            {| App.r_user_id := user_id;
               App.r_best_car := VNone;
               App.r_all_cars_ranked := [];
               App.r_coefficients_used := rounded;
               App.r_default_note := App.eq_default coeffs |})
  /\ (forall cars_json e,
        json_loads rt cars_json = Ok (VList []) ->
        App.round_coeffs rt coeffs = Err e ->
        (e = TypeError \/ e = AttributeError)
        /\ App.find_best_from_list rt user_id cars_json = App.Failure e).
Proof.
  intros Hc. split; [|split].
  - cbn. rewrite Hc. reflexivity.
  - intros cars_json rounded Hj Hr.
    unfold App.find_best_from_list, App.find_best_from_list_body.
    rewrite Hj. cbn. rewrite Hc. cbn. rewrite Hr. reflexivity.
  - intros cars_json e Hj Hr.
    pose proof (round_coeffs_errors _ _ _ Hr) as He. split; [exact He|].
    unfold App.find_best_from_list, App.find_best_from_list_body.
    rewrite Hj. cbn. rewrite Hc. cbn. rewrite Hr. cbn.
    destruct He as [-> | ->]; reflexivity.
Qed.

Lemma empty_candidate_list_result_witness :
  Server.handle_call_tool Sample.rt (Server.FindBestCar "dave" (VList []))
  = Ok (Server.RankingOutput
          {| Server.r_user_id := "dave";
             Server.r_best_car := VNone;
             Server.r_all_cars_with_utilities := [];
             Server.r_coefficients_used := VDict Sample.partial_coeffs |}).
Proof.
  destruct (empty_candidate_list_result Sample.rt "dave" (VDict Sample.partial_coeffs))
    as [H _]; [reflexivity | exact H].
Defined.

(** C2, as the claim states it, fails: for the user [zed], who has no
    stored coefficients, the call with an empty list fails with no error
    at all; both adapters return a result. *)
Lemma empty_candidate_list_counterexample :
  (forall e, Server.handle_call_tool Sample.rt (Server.FindBestCar "zed" (VList []))
             <> Err e)
  /\ (exists r, App.find_best_from_list Sample.rt "zed" "[]" = App.Success r
                /\ App.r_best_car r = VNone /\ App.r_all_cars_ranked r = []).
Proof.
  split.
  - intros e He. vm_compute in He. discriminate He.
  - eexists. split; [vm_compute; reflexivity|]. split; reflexivity.
Qed.

(** ** The order of the output sequence *)




(** With a NaN among the keys of a list that is not in order already,
    the sort is the interpreter's.  For the seven records below CPython
    3.11 puts [C] before [A], two records of equal utility given in the
    other order; a runtime that arranges them so, and one that keeps the
    input order, are both admitted. *)
Example order_with_nan_is_the_interpreters :
  App.sort_by_utility_desc Sample2.rt_merging Sample2.seven_records
  = Ok [ Sample2.scored_sample "C" (F64.of_Z 1);
         Sample2.scored_sample "D" S754_nan;
         Sample2.scored_sample "E" (F64.of_Z 7);
         Sample2.scored_sample "A" (F64.of_Z 1);
         Sample2.scored_sample "F" (F64.decimal 5 1);
         Sample2.scored_sample "B" (F64.decimal 2 1);
         Sample2.scored_sample "G" (F64.of_Z 0) ]
  /\ App.sort_by_utility_desc Sample2.rt Sample2.seven_records
     = Ok Sample2.seven_records.
Proof. split; vm_compute; reflexivity. Qed.

(** ** What scoring leaves unchanged *)

Lemma scored_record_utility_added m u : utility_added m u (scored_record m u).
Proof.
  exists (<["utility" := VFloat u]> m). split; [reflexivity|]. split.
  - apply lookup_insert_eq.
  - intros key Hkey. apply lookup_insert_ne. congruence.
Qed.

Lemma scored_records_utility_added shown ms us :
  Forall2 (fun (mu : gmap string value * float) out =>
             utility_added mu.1 (shown mu.2) out)
          (zip ms us) (scored_records shown ms us).
Proof.
  revert us. induction ms as [|m ms IH]; intros [|u us]; cbn; constructor.
  - apply scored_record_utility_added.
  - apply IH.
Qed.



(** A [utility] field of the input is overwritten, the name is kept. *)
Example utility_field_is_overwritten :
  let car := <["utility" := VStr "n/a"]> Sample.tesla in
  exists r,
    Server.handle_call_tool Sample.rt (Server.FindBestCar "zed" (VList [VDict car]))
    = Ok (Server.RankingOutput r)
    /\ exists out,
         Server.r_all_cars_with_utilities r = [VDict out]
         /\ out !! "utility" = Some (VFloat (F64.decimal (-2303) 2))
         /\ out !! "name" = Some (VStr "Tesla Model 3").
Proof.
  cbv zeta. eexists. split.
  - apply (server_find_best_car Sample.rt "zed" DEFAULT_COEFFS
             [<["utility" := VStr "n/a"]> Sample.tesla]
             [F64.decimal (-2303) 2] eq_refl).
    repeat constructor; vm_compute; reflexivity.
  - eexists. split; [reflexivity|]. split; vm_compute; reflexivity.
Qed.

(** ** Further examples *)

Lemma twin_utilities :
  utilities Sample.rt DEFAULT_COEFFS [Sample.twin_a; Sample.twin_b]
    [F64.decimal (-2303) 2; F64.decimal (-2303) 2].
Proof. repeat constructor; vm_compute; reflexivity. Qed.

(** Of two candidates with the same utility the first is the best, and the
    UI adapter leaves them in input order. *)
Example tie_keeps_the_first :
  (exists r,
     Server.handle_call_tool Sample.rt
       (Server.FindBestCar "zed" (VList [VDict Sample.twin_a; VDict Sample.twin_b]))
     = Ok (Server.RankingOutput r)
     /\ Server.r_best_car r = scored_record Sample.twin_a (F64.decimal (-2303) 2))
  /\ (exists r,
        App.find_best_from_list Sample.rt "zed" Sample.twin_cars = App.Success r
        /\ App.r_best_car r = scored_record Sample.twin_a (F64.decimal (-2303) 2)
        /\ App.r_all_cars_ranked r
           = [ scored_record Sample.twin_a (F64.decimal (-2303) 2);
               scored_record Sample.twin_b (F64.decimal (-2303) 2) ]).
Proof.
  split.
  - eexists. split.
    + apply (server_find_best_car Sample.rt "zed" DEFAULT_COEFFS
               [Sample.twin_a; Sample.twin_b]
               [F64.decimal (-2303) 2; F64.decimal (-2303) 2] eq_refl twin_utilities).
    + reflexivity.
  - eexists. split.
    + eapply (app_find_best_from_list Sample.rt "zed" Sample.twin_cars DEFAULT_COEFFS
                _ [Sample.twin_a; Sample.twin_b]
                [F64.decimal (-2303) 2; F64.decimal (-2303) 2]);
        [reflexivity | reflexivity | vm_compute; reflexivity | exact twin_utilities].
    + split; vm_compute; reflexivity.
Qed.

Lemma close_utilities :
  utilities Sample.rt DEFAULT_COEFFS [Sample.close_a; Sample.close_b]
    [F64.decimal 100001 5; F64.decimal 100002 5].
Proof. repeat constructor; vm_compute; reflexivity. Qed.

(** The UI adapter compares the utilities as computed and records them
    rounded.  For the utilities 1.00001 and 1.00002 the second candidate
    is the best, both records show 1.0, and the ranked sequence keeps the
    first candidate in front. *)
Example best_is_chosen_before_rounding :
  exists r,
    App.find_best_from_list Sample.rt "zed" Sample.close_cars = App.Success r
    /\ App.r_best_car r = scored_record Sample.close_b (F64.of_Z 1)
    /\ App.r_all_cars_ranked r
       = [ scored_record Sample.close_a (F64.of_Z 1);
           scored_record Sample.close_b (F64.of_Z 1) ].
Proof.
  eexists. split.
  - eapply (app_find_best_from_list Sample.rt "zed" Sample.close_cars DEFAULT_COEFFS
              _ [Sample.close_a; Sample.close_b]
              [F64.decimal 100001 5; F64.decimal 100002 5]);
      [reflexivity | reflexivity | vm_compute; reflexivity | exact close_utilities].
  - split; vm_compute; reflexivity.
Qed.

(** The two summations differ on the third candidate of the example
    list, by one unit in the last place. *)
Example summations_differ :
  calculate_utility_score Sample.rt (VDict Sample.hyundai) DEFAULT_COEFFS
  = Ok (S754_finite true 7174797156354621 (-48))
  /\ calculate_utility_score Sample.rt_compensated (VDict Sample.hyundai) DEFAULT_COEFFS
     = Ok (S754_finite true 7174797156354622 (-48)).
Proof. split; vm_compute; reflexivity. Qed.

(** * Further properties *)

(** ** What a score depends on *)

Lemma scale_features_mapM rt car :
  scale_features rt car
  = let* xs := mapM (get_val rt car) FEATURE_KEYS in
    match xs with
    | [price; range; efficiency; acceleration; fast_charge; seat_count] =>
        Ok [ py_div_int price 1000; py_div_int range 100;
             py_div_int efficiency 10; acceleration;
             py_div_int fast_charge 100; seat_count ]
    | _ => Err TypeError
    end.
Proof.
  unfold scale_features, FEATURE_KEYS. cbn [mapM].
  destruct (get_val rt car "price"); cbn [bind]; [|reflexivity].
  destruct (get_val rt car "range"); cbn [bind]; [|reflexivity].
  destruct (get_val rt car "efficiency"); cbn [bind]; [|reflexivity].
  destruct (get_val rt car "acceleration"); cbn [bind]; [|reflexivity].
  destruct (get_val rt car "fast_charge"); cbn [bind]; [|reflexivity].
  destruct (get_val rt car "seat_count"); cbn [bind]; reflexivity.
Qed.

Lemma mapM_ext_in {A B : Type} (f g : A -> result B) l :
  (forall a, a ∈ l -> f a = g a) -> mapM f l = mapM g l.
Proof.
  induction l as [|a l IH]; intros H; cbn; [reflexivity|].
  rewrite (H a) by left. rewrite IH; [reflexivity|].
  intros b Hb. apply H. right. assumption.
Qed.

Lemma scale_features_ext rt car car' :
  (forall key, key ∈ FEATURE_KEYS -> get_val rt car key = get_val rt car' key) ->
  scale_features rt car = scale_features rt car'.
Proof.
  intros H. rewrite !scale_features_mapM.
  rewrite (mapM_ext_in _ _ _ H). reflexivity.
Qed.

Lemma calculate_utility_score_ext rt car car' coeffs :
  (forall key, key ∈ FEATURE_KEYS -> get_val rt car key = get_val rt car' key) ->
  calculate_utility_score rt car coeffs = calculate_utility_score rt car' coeffs.
Proof.
  intros H. unfold calculate_utility_score.
  rewrite (scale_features_ext _ _ _ H). reflexivity.
Qed.

(** X1. The scaled vector and the score of a record depend on its six
    feature entries only: two records that agree on them scale and score
    alike, whatever else they hold. *)
Theorem score_depends_on_features_only
    (rt : Runtime) (m m' : gmap string value) (coeffs : value) :
  (forall key, key ∈ FEATURE_KEYS -> m !! key = m' !! key) ->
  scale_features rt (VDict m) = scale_features rt (VDict m')
  /\ calculate_utility_score rt (VDict m) coeffs
     = calculate_utility_score rt (VDict m') coeffs.
Proof.
  intros H.
  assert (Hg : forall key, key ∈ FEATURE_KEYS ->
                 get_val rt (VDict m) key = get_val rt (VDict m') key).
  { intros key Hk. unfold get_val. cbn. rewrite (H key Hk). reflexivity. }
  split.
  - apply scale_features_ext. exact Hg.
  - apply calculate_utility_score_ext. exact Hg.
Qed.

Lemma score_depends_on_features_only_witness :
  calculate_utility_score Sample.rt (VDict Sample.twin_a) DEFAULT_COEFFS
  = calculate_utility_score Sample.rt (VDict Sample.scenario_car) DEFAULT_COEFFS.
Proof.
  apply (score_depends_on_features_only Sample.rt Sample.twin_a Sample.scenario_car).
  intros key Hk. apply list_elem_of_In in Hk. cbn in Hk.
  repeat (destruct Hk as [<-|Hk]; [vm_compute; reflexivity|]). destruct Hk.
Defined.

(** X2. A feature counts through [float(value)] only: a feature given as
    text that [float] parses, as a boolean or as an integer scores as the
    float it converts to. *)
Theorem feature_counts_through_float
    (rt : Runtime) (m : gmap string value) (key : string) (v : value) (x : float)
    (coeffs : value) :
  m !! key = Some v ->
  py_float rt v = Ok x ->
  calculate_utility_score rt (VDict m) coeffs
  = calculate_utility_score rt (VDict (<[key := VFloat x]> m)) coeffs.
Proof.
  intros Hv Hx. apply calculate_utility_score_ext. intros k _.
  unfold get_val. cbn. destruct (decide (k = key)) as [->|Hne].
  - rewrite lookup_insert_eq, Hv. cbn. destruct v; cbn in *; try discriminate; auto.
  - rewrite lookup_insert_ne by congruence. reflexivity.
Qed.

Lemma feature_counts_through_float_witness :
  calculate_utility_score Sample2.rt (VDict Sample2.text_price_car) DEFAULT_COEFFS
  = calculate_utility_score Sample2.rt
      (VDict (<["price" := VFloat (F64.of_Z 45000)]> Sample2.text_price_car))
      DEFAULT_COEFFS.
Proof.
  apply (feature_counts_through_float Sample2.rt Sample2.text_price_car "price"
           (VStr "45000")); reflexivity.
Defined.

(** ** Values that cannot be converted *)

Lemma split_keys (pre post : list string) (key : string) :
  FEATURE_KEYS = pre ++ key :: post ->
  (pre = [] /\ key = "price")
  \/ (pre = ["price"] /\ key = "range")
  \/ (pre = ["price"; "range"] /\ key = "efficiency")
  \/ (pre = ["price"; "range"; "efficiency"] /\ key = "acceleration")
  \/ (pre = ["price"; "range"; "efficiency"; "acceleration"] /\ key = "fast_charge")
  \/ (pre = ["price"; "range"; "efficiency"; "acceleration"; "fast_charge"]
      /\ key = "seat_count").
Proof.
  unfold FEATURE_KEYS. intros H.
  do 6 (destruct pre as [|? pre]; [injection H as <-; intros; subst; auto 10|];
        injection H as <- H).
  destruct pre; discriminate.
Qed.

(** The errors [float(val)] raises on a feature. *)
Lemma get_val_error rt (m : gmap string value) key e :
  get_val rt (VDict m) key = Err e ->
  exists v, m !! key = Some v
            /\ ((e = TypeError /\ (exists l, v = VList l) \/ (e = TypeError /\ exists d, v = VDict d))
                \/ (e = ValueError /\ exists s, v = VStr s /\ float_of_str rt s = None)
                \/ (e = OverflowError /\ exists z, v = VInt z)).
Proof.
  unfold get_val. cbn. destruct (m !! key) as [v|]; cbn; [|discriminate].
  intros H. exists v. split; [reflexivity|].
  destruct v as [ |b|z|f|s|l|d]; cbn in H; try discriminate.
  - right. right. unfold float_of_int in H.
    destruct (F64.of_Z z); try discriminate. injection H as <-. eauto.
  - right. left. destruct (float_of_str rt s) eqn:E; [discriminate|].
    injection H as <-. eauto.
  - left. left. injection H as <-. eauto.
  - left. right. injection H as <-. eauto.
Qed.

(** X3. The features are converted in the fixed key order, and the first
    one that cannot be converted ends the call with its error: scaling
    fails, and so does scoring, whatever the coefficient vector is.  The
    error is [TypeError] for a list or an object, [ValueError] for text
    that [float] does not parse and [OverflowError] for an integer beyond
    the range of floats. *)
Theorem first_unconvertible_feature_fails
    (rt : Runtime) (m : gmap string value) (pre post : list string) (key : string)
    (e : exn) :
  FEATURE_KEYS = pre ++ key :: post ->
  (forall k, k ∈ pre -> exists x, get_val rt (VDict m) k = Ok x) ->
  get_val rt (VDict m) key = Err e ->
  scale_features rt (VDict m) = Err e
  /\ (forall coeffs, calculate_utility_score rt (VDict m) coeffs = Err e)
  /\ exists v, m !! key = Some v
               /\ match v with
                  | VList _ | VDict _ => e = TypeError
                  | VStr s => e = ValueError /\ float_of_str rt s = None
                  | VInt z => e = OverflowError
                  | _ => False
                  end.
Proof.
  intros Hkeys Hpre Hkey.
  assert (Hs : scale_features rt (VDict m) = Err e).
  { rewrite scale_features_mapM, Hkeys.
    rewrite (mapM_first_error _ pre key post e Hpre Hkey). reflexivity. }
  split; [exact Hs|]. split.
  - intros coeffs. unfold calculate_utility_score. rewrite Hs. reflexivity.
  - destruct (get_val_error _ _ _ _ Hkey) as (v & Hv & Hcase). exists v.
    split; [exact Hv|].
    destruct Hcase as [[[-> [l ->]]|[-> [d ->]]]|[[-> (s & -> & Hs')]|[-> [z ->]]]];
      auto.
Qed.

Lemma first_unconvertible_feature_fails_witness :
  scale_features Sample.rt (VDict Sample2.unpriced_car) = Err ValueError
  /\ calculate_utility_score Sample.rt (VDict Sample2.unpriced_car) DEFAULT_COEFFS
     = Err ValueError.
Proof.
  destruct (first_unconvertible_feature_fails Sample.rt Sample2.unpriced_car
              [] ["range"; "efficiency"; "acceleration"; "fast_charge"; "seat_count"]
              "price" ValueError) as (H1 & H2 & _).
  - reflexivity.
  - intros k Hk. apply list_elem_of_In in Hk. destruct Hk.
  - vm_compute. reflexivity.
  - split; [exact H1 | apply H2].
Defined.

(** Scoring raises nothing but the errors of dictionary access, of
    conversion and of arithmetic. *)
Lemma calculate_utility_score_errors rt car coeffs e :
  calculate_utility_score rt car coeffs = Err e -> scoring_error e.
Proof.
  unfold calculate_utility_score, scoring_error.
  destruct (scale_features rt car) as [scaled|e1] eqn:Hs; cbn [bind].
  - destruct (mapM (py_getitem coeffs) FEATURE_KEYS) as [cs|e2] eqn:Hc; cbn [bind].
    + destruct (mapM _ (zip scaled cs)) as [ps|e3] eqn:Hp; cbn [bind]; [discriminate|].
      intros [= ->]. apply mapM_error in Hp as ([f c] & _ & Hfc). cbn in Hfc.
      destruct c; cbn in Hfc; try (injection Hfc as <-; auto 10); try discriminate.
      unfold float_of_int in Hfc. destruct (F64.of_Z z); cbn in Hfc; try discriminate.
      injection Hfc as <-. auto 10.
    + intros [= ->]. apply mapM_error in Hc as (k & _ & Hk).
      destruct coeffs; cbn in Hk; try (injection Hk as <-; auto 10).
      destruct (d !! k); [discriminate|]. injection Hk as <-. eauto 10.
  - intros [= ->]. rewrite scale_features_mapM in Hs.
    destruct (mapM (get_val rt car) FEATURE_KEYS) as [xs|e2] eqn:Hx; cbn [bind] in Hs.
    + apply mapM_Ok_length in Hx. cbn in Hx.
      do 7 (destruct xs as [|? xs]; try discriminate).
    + injection Hs as <-. apply mapM_error in Hx as (k & _ & Hk).
      destruct car; cbn in Hk; try (injection Hk as <-; auto 10).
      destruct (get_val_error _ _ _ _ Hk) as (v & _ & [[[-> _]|[-> _]]|[[-> _]|[-> _]]]);
        auto 10.
Qed.

(** ** Coefficients that are not numbers *)

Lemma py_mul_coefficient f c g :
  coefficient_value c = Some g -> py_mul f c = Ok (F64.mul f g).
Proof.
  destruct c as [ |b|z|x|s|l|d]; cbn; try discriminate.
  - destruct b; intros [= <-]; reflexivity.
  - destruct (float_of_int z); [|discriminate]. intros [= <-]. reflexivity.
  - intros [= <-]. reflexivity.
Qed.

Lemma py_mul_not_coefficient f c :
  coefficient_value c = None ->
  py_mul f c = Err (if is_number c then OverflowError else TypeError).
Proof.
  destruct c as [ |b|z|x|s|l|d]; cbn; try discriminate; try reflexivity.
  unfold float_of_int. destruct (F64.of_Z z); cbn; try discriminate; reflexivity.
Qed.

Lemma scale_features_length rt car scaled :
  scale_features rt car = Ok scaled -> length scaled = 6%nat.
Proof.
  unfold scale_features. intros H.
  repeat inv_bind H. injection H as <-. reflexivity.
Qed.

Lemma zip_app_cons {A B : Type} (l1 : list A) a l2 (k1 : list B) b k2 :
  length l1 = length k1 ->
  zip (l1 ++ a :: l2) (k1 ++ b :: k2) = zip l1 k1 ++ (a, b) :: zip l2 k2.
Proof.
  revert k1. induction l1 as [|x l1 IH]; intros [|y k1] Hlen; try discriminate.
  - reflexivity.
  - cbn. f_equal. apply IH. cbn in Hlen. lia.
Qed.

(** X4. The products are formed in the fixed key order, and a
    coefficient that is not a number ends the call: when every key has
    an entry and the first entry that does not contribute a float is
    text, a list, an object or null, scoring raises [TypeError] (text is
    not parsed, unlike a feature given as text); when it is an integer
    beyond the range of floats, scoring raises [OverflowError]. *)
Theorem non_numeric_coefficient_fails
    (rt : Runtime) (car : value) (coeffs : gmap string value)
    (scaled : list float) (pre post : list string) (key : string) (c : value) :
  scale_features rt car = Ok scaled ->
  (forall k, k ∈ FEATURE_KEYS -> is_Some (coeffs !! k)) ->
  FEATURE_KEYS = pre ++ key :: post ->
  (forall k, k ∈ pre ->
             exists v, coeffs !! k = Some v /\ is_Some (coefficient_value v)) ->
  coeffs !! key = Some c ->
  coefficient_value c = None ->
  calculate_utility_score rt car (VDict coeffs)
  = Err (if is_number c then OverflowError else TypeError).
Proof.
  intros Hs Hall Hkeys Hpre Hc Hnone.
  unfold calculate_utility_score. rewrite Hs. cbn [bind].
  assert (Hcs : forall ks, (forall k, k ∈ ks -> is_Some (coeffs !! k)) ->
            exists cs, mapM (py_getitem (VDict coeffs)) ks = Ok cs
                       /\ Forall2 (fun k v => coeffs !! k = Some v) ks cs).
  { induction ks as [|k ks IH]; intros Hin.
    - exists []. split; [reflexivity | constructor].
    - destruct (Hin k) as [v Hv]; [left|].
      destruct IH as (cs & Hm & Hf); [intros; apply Hin; right; assumption|].
      exists (v :: cs). split; [|constructor; assumption].
      cbn. rewrite Hv. cbn. cbn in Hm. rewrite Hm. reflexivity. }
  destruct (Hcs FEATURE_KEYS Hall) as (cs & Hm & Hf). rewrite Hm. cbn [bind].
  rewrite Hkeys in Hf.
  apply Forall2_app_inv_l in Hf as (cs1 & cs2 & Hf1 & Hf2 & ->).
  inversion Hf2 as [|k0 c' ks cs3 Hk Hf3]; subst.
  assert (c' = c) as -> by congruence.
  pose proof (scale_features_length _ _ _ Hs) as Hlen.
  pose proof (Forall2_length _ _ _ Hf1) as Hl1.
  pose proof (Forall2_length _ _ _ Hf3) as Hl3.
  assert (Hk6 : (length pre + S (length post) = 6)%nat).
  { pose proof (f_equal length Hkeys) as E. rewrite length_app in E. cbn in E. lia. }
  rewrite <- (take_drop (length pre) scaled).
  destruct (drop (length pre) scaled) as [|f rest] eqn:Hd.
  { pose proof (f_equal length Hd) as E. rewrite length_drop in E. cbn in E. lia. }
  rewrite zip_app_cons by (rewrite length_take; lia).
  rewrite (mapM_first_error _ _ (f, c) _
             (if is_number c then OverflowError else TypeError)); [reflexivity| |].
  - intros [x v] Hin. cbn.
    apply list_elem_of_lookup in Hin as [i Hi].
    apply lookup_zip_with_Some in Hi as (x' & v' & [= <- <-] & _ & Hv).
    destruct (Forall2_lookup_r _ _ _ _ _ Hf1 Hv) as (k & Hk' & Hkv).
    destruct (Hpre k) as (v'' & Hv'' & [g Hg]).
    { eapply list_elem_of_lookup_2; eassumption. }
    assert (v'' = v) as -> by congruence.
    exists (F64.mul x g). apply py_mul_coefficient. assumption.
  - cbn. apply py_mul_not_coefficient. assumption.
Qed.

Lemma non_numeric_coefficient_fails_witness :
  calculate_utility_score Sample.rt (VDict Sample.tesla)
    (VDict (<["range" := VStr "0.8"]> DEFAULT_COEFFS_map))
  = Err TypeError.
Proof.
  apply (non_numeric_coefficient_fails Sample.rt (VDict Sample.tesla)
           (<["range" := VStr "0.8"]> DEFAULT_COEFFS_map)
           [ F64.of_Z 45; F64.of_Z 5; F64.of_Z 15; F64.decimal 61 1;
             F64.decimal 17 1; F64.of_Z 5 ]
           ["price"] ["efficiency"; "acceleration"; "fast_charge"; "seat_count"]
           "range" (VStr "0.8")).
  - vm_compute. reflexivity.
  - intros k Hk. apply list_elem_of_In in Hk.
    repeat (destruct Hk as [<-|Hk]; [vm_compute; eauto|]). destruct Hk.
  - reflexivity.
  - intros k Hk. apply list_elem_of_In in Hk.
    destruct Hk as [<-|[]]. eexists. split; [vm_compute; reflexivity|].
    vm_compute. eauto.
  - reflexivity.
  - reflexivity.
Defined.

(** ** A candidate that cannot be scored *)

Lemma scored_error rt shown coeffs car e :
  calculate_utility_score rt car coeffs = Err e ->
  scored rt shown coeffs car = Err e.
Proof. intros H. unfold scored. rewrite H. reflexivity. Qed.

Lemma scored_dict rt shown coeffs m u :
  calculate_utility_score rt (VDict m) coeffs = Ok u ->
  scored rt shown coeffs (VDict m) = Ok (u, scored_record m (shown u)).
Proof. intros H. unfold scored. rewrite H. reflexivity. Qed.

Lemma loop_first_error rt shown coeffs ms us bad rest e st :
  utilities rt coeffs ms us ->
  calculate_utility_score rt bad coeffs = Err e ->
  loop rt shown coeffs st ((VDict <$> ms) ++ bad :: rest) = Err e.
Proof.
  intros Hu Hbad. rewrite loop_fold.
  rewrite (mapM_first_error _ (VDict <$> ms) bad rest e); [reflexivity| |].
  - intros x Hx. apply list_elem_of_fmap in Hx as (m & -> & Hm).
    apply list_elem_of_lookup in Hm as [i Hi].
    destruct (Forall2_lookup_l _ _ _ _ _ Hu Hi) as (u & _ & Hmu).
    eexists. apply scored_dict. eassumption.
  - apply scored_error. assumption.
Qed.

Lemma first_unscorable rt coeffs (cars : list value) bad e0 :
  bad ∈ cars ->
  calculate_utility_score rt bad coeffs = Err e0 ->
  exists ms us first rest e,
    cars = (VDict <$> ms) ++ first :: rest
    /\ utilities rt coeffs ms us
    /\ calculate_utility_score rt first coeffs = Err e.
Proof.
  induction cars as [|c cars IH]; intros Hin Hbad.
  - apply elem_of_nil in Hin. destruct Hin.
  - destruct (calculate_utility_score rt c coeffs) as [u|e] eqn:Hc.
    + destruct (calculate_utility_score_dict _ _ _ _ Hc) as [m ->].
      apply elem_of_cons in Hin as [->|Hin]; [congruence|].
      destruct (IH Hin Hbad) as (ms & us & first & rest & e & -> & Hu & Hf).
      exists (m :: ms), (u :: us), first, rest, e.
      split; [reflexivity|]. split; [constructor; assumption | exact Hf].
    + exists [], [], c, cars, e.
      split; [reflexivity|]. split; [constructor | exact Hc].
Qed.

(** X5. A ranking is all or nothing.  When some candidate of the list
    cannot be scored, the call fails, whatever precedes or follows that
    candidate, and the error is that of the first candidate that cannot
    be scored: the tool adapter raises it and the UI adapter returns it
    as its error payload (never as "Invalid JSON format").  No partial
    ranking is returned. *)
Theorem one_bad_candidate_fails_the_ranking
    (rt : Runtime) (user_id : string) (coeffs : value)
    (cars : list value) (bad : value) (e0 : exn) :
  get_user_coefficients rt user_id = Ok coeffs ->
  bad ∈ cars ->
  calculate_utility_score rt bad coeffs = Err e0 ->
  exists ms us first rest e,
    cars = (VDict <$> ms) ++ first :: rest
    /\ utilities rt coeffs ms us
    /\ calculate_utility_score rt first coeffs = Err e
    /\ Server.handle_call_tool rt (Server.FindBestCar user_id (VList cars)) = Err e
    /\ forall cars_json,
         json_loads rt cars_json = Ok (VList cars) ->
         App.find_best_from_list rt user_id cars_json = App.Failure e.
Proof.
  intros Hc Hin Hbad.
  destruct (first_unscorable rt coeffs cars bad e0 Hin Hbad)
    as (ms & us & first & rest & e & -> & Hu & Hf).
  exists ms, us, first, rest, e.
  split; [reflexivity|]. split; [exact Hu|]. split; [exact Hf|]. split.
  - cbn. rewrite Hc. cbn.
    rewrite (loop_first_error _ _ _ _ _ _ _ _ _ Hu Hf). reflexivity.
  - intros cars_json Hj. unfold App.find_best_from_list, App.find_best_from_list_body.
    rewrite Hj. cbn [bind]. rewrite Hc. cbn.
    rewrite (loop_first_error _ _ _ _ _ _ _ _ _ Hu Hf). cbn.
    destruct (calculate_utility_score_errors _ _ _ _ Hf)
      as [->|[->|[->|[->|[k ->]]]]]; reflexivity.
Qed.

Lemma one_bad_candidate_fails_the_ranking_witness :
  Server.handle_call_tool Sample2.rt
    (Server.FindBestCar "zed"
       (VList [VDict Sample.tesla; VDict Sample2.unpriced_car; VDict Sample.hyundai]))
  = Err ValueError
  /\ App.find_best_from_list Sample2.rt "zed" Sample2.text_unpriced_cars
     = App.Failure ValueError.
Proof.
  destruct (one_bad_candidate_fails_the_ranking Sample2.rt "zed" DEFAULT_COEFFS
              [VDict Sample.tesla; VDict Sample2.unpriced_car; VDict Sample.hyundai]
              (VDict Sample2.unpriced_car) ValueError)
    as (ms & us & first & rest & e & _ & _ & _ & Htool & Hui).
  - reflexivity.
  - right. left.
  - vm_compute. reflexivity.
  - assert (E : Server.handle_call_tool Sample2.rt
                  (Server.FindBestCar "zed"
                     (VList [VDict Sample.tesla; VDict Sample2.unpriced_car;
                             VDict Sample.hyundai]))
                = Err ValueError) by (vm_compute; reflexivity).
    rewrite E in Htool. injection Htool as <-.
    split; [exact E|]. apply Hui. vm_compute. reflexivity.
Defined.

(** ** Candidates that are not a list *)

Lemma loop_not_a_record rt shown coeffs st s rest :
  loop rt shown coeffs st (VStr s :: rest) = Err AttributeError.
Proof. reflexivity. Qed.

(** X6. What the ranking does with a [cars] value that is not a list,
    once the coefficients are resolved.  Null, a boolean or a number
    cannot be iterated: [TypeError].  A non-empty object or a non-empty
    text is iterated, over its keys or its characters, and the first of
    them is not a record: [AttributeError].  The empty object and the
    empty text are ranked like the empty list.  The UI adapter returns
    the errors as its error payload. *)
Theorem candidates_not_a_list
    (rt : Runtime) (user_id : string) (coeffs : value) (cars : value) :
  get_user_coefficients rt user_id = Ok coeffs ->
  let tool c := Server.handle_call_tool rt (Server.FindBestCar user_id c) in
  let ui := App.find_best_from_list rt user_id in
  (cars = VNone \/ is_number cars = true ->
   tool cars = Err TypeError
   /\ forall cars_json, json_loads rt cars_json = Ok cars ->
                        ui cars_json = App.Failure TypeError)
  /\ ((exists s, cars = VStr s /\ s <> "") \/ (exists m, cars = VDict m /\ m <> ∅) ->
      tool cars = Err AttributeError
      /\ forall cars_json, json_loads rt cars_json = Ok cars ->
                           ui cars_json = App.Failure AttributeError)
  /\ (cars = VStr "" \/ cars = VDict ∅ ->
      tool cars = tool (VList [])
      /\ forall cars_json empty_json,
           json_loads rt cars_json = Ok cars ->
           json_loads rt empty_json = Ok (VList []) ->
           ui cars_json = ui empty_json).
Proof.
  intros Hc tool ui. subst tool ui. cbn beta.
  unfold App.find_best_from_list, App.find_best_from_list_body.
  cbn [Server.handle_call_tool]. rewrite Hc. cbn [bind].
  split; [|split].
  - intros H. assert (Hi : py_iter cars = Err TypeError).
    { destruct H as [->|H]; [reflexivity|].
      destruct cars; try discriminate; reflexivity. }
    rewrite Hi. split; [reflexivity|].
    intros cars_json ->. cbn [bind]. rewrite Hi. reflexivity.
  - intros H.
    assert (Hi : exists k rest, py_iter cars = Ok (VStr k :: rest)).
    { destruct H as [(s & -> & Hs)|(m & -> & Hm)].
      - destruct s as [|a s]; [congruence|]. cbn. eauto.
      - cbn. destruct (map_to_list m) as [|[k v] l] eqn:E.
        + apply map_to_list_empty_iff in E. congruence.
        + cbn. eauto. }
    destruct Hi as (k & rest & Hi). rewrite Hi. cbn [bind].
    rewrite loop_not_a_record. split; [reflexivity|].
    intros cars_json ->. cbn [bind]. rewrite Hi.
    cbn [bind]. rewrite loop_not_a_record. reflexivity.
  - intros H. assert (Hi : py_iter cars = Ok []).
    { destruct H as [->| ->]; [reflexivity|]. cbn. rewrite map_to_list_empty.
      reflexivity. }
    rewrite Hi. split; [reflexivity|].
    intros cars_json empty_json -> ->. cbn [bind].
    rewrite Hi. reflexivity.
Qed.

Lemma candidates_not_a_list_witness :
  Server.handle_call_tool Sample2.rt (Server.FindBestCar "zed" (VInt 42))
  = Err TypeError
  /\ App.find_best_from_list Sample2.rt "zed" "42" = App.Failure TypeError
  /\ App.find_best_from_list Sample2.rt "zed" "{}"
     = App.find_best_from_list Sample2.rt "zed" "[]".
Proof.
  destruct (candidates_not_a_list Sample2.rt "zed" DEFAULT_COEFFS (VInt 42) eq_refl)
    as (H1 & _ & _).
  destruct (candidates_not_a_list Sample2.rt "zed" DEFAULT_COEFFS (VDict ∅) eq_refl)
    as (_ & _ & H3).
  destruct (H1 (or_intror eq_refl)) as [T U].
  destruct (H3 (or_intror eq_refl)) as [_ E].
  split; [exact T|]. split; [apply U; reflexivity|].
  apply E; reflexivity.
Defined.

(** ** Failures of the coefficient lookup *)

(** X7. The coefficient lookup fails in exactly four situations: the
    store raises; the stored bytes are not UTF-8; the parser raises on
    the stored text ([JSONDecodeError] when the text is not JSON, and
    whatever else the parser raises, such as [ValueError] on an integer
    of too many digits); the stored JSON value is not an object (a list,
    a number, a text, null), which raises [AttributeError].  In none of
    them are the default coefficients used. *)
Theorem coefficient_lookup_failures (rt : Runtime) (user_id : string) (e : exn) :
  get_user_coefficients rt user_id = Err e
  <-> redis_get rt ("params:" +:+ user_id) = Err e
      \/ exists r,
           redis_get rt ("params:" +:+ user_id) = Ok (Some r)
           /\ ((exists b, r = RBytes b /\ decode_utf8 rt b = None
                          /\ e = UnicodeDecodeError)
               \/ parser_raises rt r e
               \/ (exists v, holds_json rt r v /\ (forall m, v <> VDict m)
                             /\ e = AttributeError)).
Proof.
  unfold get_user_coefficients.
  destruct (redis_get rt ("params:" +:+ user_id)) as [[r|]|e0]; cbn [bind].
  - assert (Hget : forall v, py_get_default v "coeffs" DEFAULT_COEFFS = Err e
                     <-> (forall m, v <> VDict m) /\ e = AttributeError).
    { intros v. destruct v; cbn; split;
        try (intros [= <-]; split; [discriminate | reflexivity]);
        try (intros [_ ->]; reflexivity); try discriminate.
      intros [H _]. exfalso. eapply H. reflexivity. }
    split.
    + intros H. right. exists r. split; [reflexivity|].
      destruct r as [s|b|v]; cbn in *.
      * destruct (json_loads rt s) as [v|e'] eqn:Hj; cbn [bind] in H.
        -- right. right. apply Hget in H as [H1 H2]. eauto.
        -- injection H as <-. right. left. reflexivity.
      * destruct (decode_utf8 rt b) as [s|] eqn:Hd; cbn [bind] in H.
        -- destruct (json_loads rt s) as [v|e'] eqn:Hj; cbn [bind] in H.
           ++ right. right. apply Hget in H as [H1 H2]. eauto 10.
           ++ injection H as <-. right. left. eauto.
        -- injection H as <-. left. eauto.
      * right. right. apply Hget in H as [H1 H2]. eauto.
    + intros [H|(r' & [= <-] & H)]; [discriminate|].
      destruct H as [(b & -> & Hd & ->)|[Hp|(v & Hv & Hn & ->)]].
      * rewrite Hd. reflexivity.
      * destruct r as [s|b|v]; cbn in Hp.
        -- rewrite Hp. reflexivity.
        -- destruct Hp as (s & -> & ->). reflexivity.
        -- destruct Hp.
      * destruct r as [s|b|v']; cbn in Hv.
        -- rewrite Hv. cbn [bind]. apply Hget. auto.
        -- destruct Hv as (s & -> & ->). cbn [bind]. apply Hget. auto.
        -- subst v'. cbn [bind]. apply Hget. auto.
  - split; [discriminate|]. intros [H|(r & H & _)]; discriminate.
  - split.
    + intros [= ->]. left. reflexivity.
    + intros [[= ->]|(r & H & _)]; [reflexivity | discriminate].
Qed.

Lemma coefficient_lookup_failures_witness :
  get_user_coefficients Sample2.rt "gina" = Err AttributeError
  /\ get_user_coefficients Sample2.rt "ivy" = Err StoreError
  /\ get_user_coefficients Sample2.rt "jack" = Err ValueError.
Proof.
  split; [|split].
  - apply (proj2 (coefficient_lookup_failures Sample2.rt "gina" AttributeError)).
    right. exists (RStr Sample2.text_list). split; [reflexivity|].
    right. right. exists (VList [VInt 1; VInt 2]).
    split; [vm_compute; reflexivity|]. split; [discriminate | reflexivity].
  - apply (proj2 (coefficient_lookup_failures Sample2.rt "ivy" StoreError)).
    left. reflexivity.
  - apply (proj2 (coefficient_lookup_failures Sample2.rt "jack" ValueError)).
    right. exists (RStr Sample2.text_long_number). split; [reflexivity|].
    right. left. vm_compute. reflexivity.
Defined.

(** ** The error payloads of the UI adapter *)

Lemma loop_errors rt shown coeffs cars : forall st e,
  loop rt shown coeffs st cars = Err e -> scoring_error e.
Proof.
  induction cars as [|car cars IH]; intros st e; cbn; [discriminate|].
  destruct (loop_body rt shown coeffs st car) as [st'|e'] eqn:Hb; cbn [bind].
  - apply IH.
  - intros [= ->]. unfold loop_body in Hb.
    destruct (calculate_utility_score rt car coeffs) as [u|e''] eqn:Hu; cbn [bind] in Hb.
    + destruct (calculate_utility_score_dict _ _ _ _ Hu) as [m ->]. cbn in Hb.
      destruct (F64.gtb u (best_utility st)); discriminate.
    + injection Hb as <-. eapply calculate_utility_score_errors. eassumption.
Qed.

Lemma mapM_sort_key_errors l e :
  mapM App.sort_key l = Err e -> e <> JSONDecodeError.
Proof.
  intros H. apply mapM_error in H as (x & _ & Hx). unfold App.sort_key in Hx.
  destruct x; cbn in Hx; try (injection Hx as <-; discriminate).
  destruct (d !! "utility") as [v|]; cbn in Hx.
  - destruct v; try discriminate; injection Hx as <-; discriminate.
  - injection Hx as <-. discriminate.
Qed.

Lemma scoring_error_not_json e : scoring_error e -> e <> JSONDecodeError.
Proof. intros [->|[->|[->|[->|[k ->]]]]]; discriminate. Qed.

(** X8. The UI ranking answers "Invalid JSON format" in exactly two
    situations: the parser rejects the text of the candidate list with
    [JSONDecodeError], or it parses the text and the coefficient lookup
    raises [JSONDecodeError] (the stored coefficients of the user are
    corrupt).  No later step gives that answer; and when the parser
    raises another error on the text of the list (an integer of too many
    digits, nesting too deep), the answer is that error as the generic
    error payload. *)
Theorem invalid_json_format_iff (rt : Runtime) (user_id cars_json : string) :
  (App.find_best_from_list rt user_id cars_json = App.InvalidJSONFormat
   <-> json_loads rt cars_json = Err JSONDecodeError
       \/ ((exists cars, json_loads rt cars_json = Ok cars)
           /\ get_user_coefficients rt user_id = Err JSONDecodeError))
  /\ (forall e,
        json_loads rt cars_json = Err e -> e <> JSONDecodeError ->
        App.find_best_from_list rt user_id cars_json = App.Failure e).
Proof.
  unfold App.find_best_from_list, App.find_best_from_list_body.
  destruct (json_loads rt cars_json) as [cars|e0]; cbn [bind].
  2:{ split.
      - split.
        + intros H. left. destruct e0; try discriminate. reflexivity.
        + intros [[= ->]|[[cars H] _]]; [reflexivity | discriminate].
      - intros e [= ->] He. destruct e; try reflexivity. congruence. }
  split; [|discriminate].
  destruct (get_user_coefficients rt user_id) as [coeffs|e] eqn:Hc; cbn [bind].
  2:{ split.
      - intros H. right. split; [eauto|]. destruct e; try discriminate. reflexivity.
      - intros [H|[_ [= ->]]]; [discriminate | reflexivity]. }
  split; [|intros [H|[_ H]]; discriminate].
  intros H. exfalso.
  destruct (py_iter cars) as [l|e] eqn:Hi; cbn [bind] in H.
  2:{ destruct cars; cbn in Hi; try discriminate; injection Hi as <-; discriminate. }
  destruct (loop rt (round4 rt) coeffs loop_init l) as [st|e] eqn:Hl; cbn [bind] in H.
  2:{ apply loop_errors, scoring_error_not_json in Hl. destruct e; congruence. }
  destruct (App.sort_by_utility_desc rt (all_results st)) as [ranked|e] eqn:Hs;
    cbn [bind] in H.
  2:{ unfold App.sort_by_utility_desc in Hs.
      destruct (mapM App.sort_key (all_results st)) as [ks|e'] eqn:Hk;
        cbn [bind] in Hs; [discriminate|].
      injection Hs as <-. apply mapM_sort_key_errors in Hk.
      destruct e'; congruence. }
  destruct (App.round_coeffs rt coeffs) as [rounded|e] eqn:Hr; cbn [bind] in H.
  - discriminate.
  - apply round_coeffs_errors in Hr as [-> | ->]; discriminate.
Qed.

Lemma invalid_json_format_iff_witness :
  App.find_best_from_list Sample.rt "erin" Sample.example_cars = App.InvalidJSONFormat
  /\ App.find_best_from_list Sample.rt "zed" "[1, " = App.InvalidJSONFormat
  /\ App.find_best_from_list Sample2.rt "zed" Sample2.text_long_number
     = App.Failure ValueError.
Proof.
  split; [|split].
  - apply (proj1 (invalid_json_format_iff Sample.rt "erin" Sample.example_cars)).
    right. split; [vm_compute; eauto | reflexivity].
  - apply (proj1 (invalid_json_format_iff Sample.rt "zed" "[1, ")).
    left. reflexivity.
  - apply (proj2 (invalid_json_format_iff Sample2.rt "zed" Sample2.text_long_number)).
    + vm_compute. reflexivity.
    + discriminate.
Defined.

(** ** The two adapters on one record *)

(** X9. The two adapters score a record alike.  When the tool adapter
    returns a utility, the UI adapter returns that utility rounded to
    four decimals, for the same features, provided the coefficients can
    be rounded for display; when the tool adapter raises, the UI adapter
    returns the same error as its payload; and the UI adapter succeeds
    only when the tool adapter does. *)
Theorem single_score_adapters_agree
    (rt : Runtime) (user_id : string)
    (price range efficiency acceleration fast_charge seat_count : value) :
  let tool := Server.handle_call_tool rt
                (Server.CalculateUtility user_id price range efficiency
                   acceleration fast_charge seat_count) in
  let ui := App.calculate_single_utility rt user_id price range efficiency
              acceleration fast_charge seat_count in
  (forall o rounded,
     tool = Ok (Server.UtilityOutput o) ->
     App.round_coeffs rt (Server.u_coefficients_used o) = Ok rounded ->
     ui = App.Success
            {| App.u_user_id := user_id;
               App.u_utility_score := round4 rt (Server.u_utility o);
               App.u_coefficients_used := rounded;
               App.u_car_features := Server.u_car_features o;
               App.u_default_note := App.eq_default (Server.u_coefficients_used o) |})
  /\ (forall e, tool = Err e -> ui = App.Failure e)
  /\ (forall r, ui = App.Success r ->
                exists o, tool = Ok (Server.UtilityOutput o)
                          /\ App.u_utility_score r = round4 rt (Server.u_utility o)
                          /\ App.u_car_features r = Server.u_car_features o).
Proof.
  intros tool ui. subst tool ui.
  unfold App.calculate_single_utility. cbn [Server.handle_call_tool].
  destruct (get_user_coefficients rt user_id) as [coeffs|e0]; cbn [bind].
  2:{ split; [discriminate|]. split; [intros e [= ->]; reflexivity | discriminate]. }
  destruct (calculate_utility_score rt _ coeffs) as [u|e0]; cbn [bind].
  2:{ split; [discriminate|]. split; [intros e [= ->]; reflexivity | discriminate]. }
  split; [|split].
  - intros o rounded [= <-]. cbn. intros ->. reflexivity.
  - discriminate.
  - intros r H. eexists. split; [reflexivity|]. cbn.
    destruct (App.round_coeffs rt coeffs); cbn [bind] in H; [|discriminate].
    injection H as <-. split; reflexivity.
Qed.

Lemma sample_rounded_defaults :
  App.round_coeffs Sample.rt DEFAULT_COEFFS = Ok DEFAULT_COEFFS_map.
Proof. vm_compute. reflexivity. Qed.

Lemma single_score_adapters_agree_witness :
  App.calculate_single_utility Sample.rt "zed" (VInt 45000) (VInt 500) (VInt 150)
    (VFloat (F64.decimal 61 1)) (VInt 170) (VInt 5)
  = App.Success
      {| App.u_user_id := "zed";
         App.u_utility_score := Sample.round4_decimal (F64.decimal (-2303) 2);
         App.u_coefficients_used := DEFAULT_COEFFS_map;
         App.u_car_features := VDict Sample.scenario_car;
         App.u_default_note := App.eq_default DEFAULT_COEFFS |}.
Proof.
  destruct (single_score_adapters_agree Sample.rt "zed" (VInt 45000) (VInt 500)
              (VInt 150) (VFloat (F64.decimal 61 1)) (VInt 170) (VInt 5))
    as (H & _ & _).
  apply (H {| Server.u_user_id := "zed";
              Server.u_utility := F64.decimal (-2303) 2;
              Server.u_coefficients_used := DEFAULT_COEFFS;
              Server.u_car_features := VDict Sample.scenario_car |}
           DEFAULT_COEFFS_map).
  - vm_compute. reflexivity.
  - exact sample_rounded_defaults.
Defined.

(** ** The recorded candidate, in general *)

(** [u], at position [i], is what the loop records for the utilities
    [us]: it exceeds the initial value, no utility exceeds it, and every
    earlier utility that is a number is smaller. *)
Lemma greatest_index_unique (us : list float) i u i' u' :
  us !! i = Some u -> F64.gtb u F64.neg_inf = true ->
  (forall j v, us !! j = Some v -> F64.gtb v u = false) ->
  (forall j v, (j < i)%nat -> us !! j = Some v ->
               F64.is_nan v = false -> F64.ltb v u = true) ->
  us !! i' = Some u' -> F64.gtb u' F64.neg_inf = true ->
  (forall j v, us !! j = Some v -> F64.gtb v u' = false) ->
  (forall j v, (j < i')%nat -> us !! j = Some v ->
               F64.is_nan v = false -> F64.ltb v u' = true) ->
  i = i'.
Proof.
  intros Hi Hg Hmax Hbefore Hi' Hg' Hmax' Hbefore'.
  pose proof (F64Facts.ltb_not_nan_r _ _ Hg) as Hn.
  pose proof (F64Facts.ltb_not_nan_r _ _ Hg') as Hn'.
  destruct (Nat.lt_total i i') as [Hlt|[->|Hlt]]; [|reflexivity|].
  - pose proof (Hbefore' _ _ Hlt Hi Hn) as H1.
    pose proof (Hmax _ _ Hi') as H2. unfold F64.gtb in H2. congruence.
  - pose proof (Hbefore _ _ Hlt Hi' Hn') as H1.
    pose proof (Hmax' _ _ Hi) as H2. unfold F64.gtb in H2. congruence.
Qed.

Lemma scored_pairs_lookup_inv shown ms us i u out :
  zip us (scored_records shown ms us) !! i = Some (u, out) ->
  us !! i = Some u
  /\ exists m, ms !! i = Some m /\ out = scored_record m (shown u).
Proof.
  intros H. apply lookup_zip_with_Some in H as (u0 & o & E & Hu & Ho).
  injection E as -> ->.
  split; [exact Hu|]. unfold scored_records in Ho.
  apply lookup_zip_with_Some in Ho as (m & u1 & -> & Hm & Hu1).
  assert (u1 = u0) as -> by congruence. eauto.
Qed.

Lemma best_of_scored shown ms us :
  length ms = length us ->
  let best := best_car (foldl pick loop_init (zip us (scored_records shown ms us))) in
  (Forall (fun u => F64.gtb u F64.neg_inf = false) us /\ best = VNone)
  \/ (exists i m u,
        ms !! i = Some m /\ us !! i = Some u
        /\ best = scored_record m (shown u)
        /\ F64.gtb u F64.neg_inf = true
        /\ (forall j v, us !! j = Some v -> F64.gtb v u = false)
        /\ (forall j v, (j < i)%nat -> us !! j = Some v ->
                        F64.is_nan v = false -> F64.ltb v u = true)).
Proof.
  intros Hlen best. subst best.
  destruct (foldl_pick_best (zip us (scored_records shown ms us)) loop_init)
    as [(Hb & _ & Hall)|(i & u & out & Hi & Hb & _ & Hg & Hmax & Hbefore)].
  - left. split; [|exact Hb].
    apply Forall_lookup. intros j v Hv.
    destruct (scored_pairs_lookup shown ms us j v Hlen Hv) as [out Hout].
    exact (proj1 (Forall_lookup _ _) Hall _ _ Hout).
  - right. apply scored_pairs_lookup_inv in Hi as (Hu & m & Hm & ->).
    exists i, m, u. repeat split; try assumption.
    + intros j v Hv.
      destruct (scored_pairs_lookup shown ms us j v Hlen Hv) as [out Hout].
      exact (Hmax _ _ Hout).
    + intros j v Hj Hv Hn.
      destruct (scored_pairs_lookup shown ms us j v Hlen Hv) as [out Hout].
      exact (Hbefore _ _ Hj Hout Hn).
Qed.



(** ** One record through both tools *)

Lemma feature_arguments_lookup m key :
  key ∈ FEATURE_KEYS -> feature_arguments m !! key = Some (feature m key).
Proof.
  intros H. apply list_elem_of_In in H. cbn in H.
  repeat (destruct H as [<-|H]; [reflexivity|]). destruct H.
Qed.

Lemma get_val_feature_arguments rt m key :
  key ∈ FEATURE_KEYS ->
  get_val rt (VDict (feature_arguments m)) key = get_val rt (VDict m) key.
Proof.
  intros H. unfold get_val, py_get.
  rewrite (feature_arguments_lookup m key H). unfold feature.
  destruct (m !! key); reflexivity.
Qed.

(** X11. The two tools score a record alike.  Passing the six feature
    entries of a record to [calculate_utility] (a missing entry as null)
    returns the utility that [find_best_car] writes into the scored
    record of that record, and fails with the same error when the record
    cannot be scored. *)
Theorem tools_agree_on_a_record
    (rt : Runtime) (user_id : string) (coeffs : value) (m : gmap string value) :
  get_user_coefficients rt user_id = Ok coeffs ->
  let single :=
    Server.handle_call_tool rt
      (Server.CalculateUtility user_id (feature m "price") (feature m "range")
         (feature m "efficiency") (feature m "acceleration")
         (feature m "fast_charge") (feature m "seat_count")) in
  let ranking :=
    Server.handle_call_tool rt (Server.FindBestCar user_id (VList [VDict m])) in
  (forall u,
     calculate_utility_score rt (VDict m) coeffs = Ok u ->
     (exists o, single = Ok (Server.UtilityOutput o) /\ Server.u_utility o = u)
     /\ (exists r, ranking = Ok (Server.RankingOutput r)
                   /\ Server.r_all_cars_with_utilities r = [scored_record m u]))
  /\ (forall e,
        calculate_utility_score rt (VDict m) coeffs = Err e ->
        single = Err e /\ ranking = Err e).
Proof.
  intros Hc single ranking. subst single ranking.
  cbn [Server.handle_call_tool]. rewrite Hc. cbn [bind py_iter].
  fold (feature_arguments m).
  rewrite (calculate_utility_score_ext rt (VDict (feature_arguments m)) (VDict m) coeffs)
    by (intros key Hkey; apply get_val_feature_arguments; exact Hkey).
  split.
  - intros u Hu. rewrite Hu. cbn [bind]. split.
    + eexists. split; reflexivity.
    + cbn [loop]. unfold loop_body. rewrite Hu. cbn.
      destruct (F64.gtb u F64.neg_inf); eexists; split; reflexivity.
  - intros e He. rewrite He. split; [reflexivity|].
    cbn [loop]. unfold loop_body. rewrite He. reflexivity.
Qed.

Lemma tools_agree_on_a_record_witness :
  (exists o,
     Server.handle_call_tool Sample.rt
       (Server.CalculateUtility "zed" (feature Sample.sparse_car "price")
          (feature Sample.sparse_car "range") (feature Sample.sparse_car "efficiency")
          (feature Sample.sparse_car "acceleration")
          (feature Sample.sparse_car "fast_charge")
          (feature Sample.sparse_car "seat_count"))
     = Ok (Server.UtilityOutput o)
     /\ Server.u_utility o = F64.of_Z (-15))
  /\ (exists r,
        Server.handle_call_tool Sample.rt
          (Server.FindBestCar "zed" (VList [VDict Sample.sparse_car]))
        = Ok (Server.RankingOutput r)
        /\ Server.r_all_cars_with_utilities r
           = [scored_record Sample.sparse_car (F64.of_Z (-15))]).
Proof.
  destruct (tools_agree_on_a_record Sample.rt "zed" DEFAULT_COEFFS Sample.sparse_car
              eq_refl) as [H _].
  apply H. vm_compute. reflexivity.
Defined.

(** ** A record without features *)

Lemma mul_zero_finite g :
  F64.is_finite g = true -> exists s, F64.mul F64.zero g = S754_zero s.
Proof.
  destruct g as [s|s| |s m e]; cbn; try discriminate; intros _;
    unfold F64.mul, F64.zero; cbn; eauto.
Qed.

Lemma sum_of_zeros s1 s2 s3 s4 s5 s6 :
  let zs := [S754_zero s1; S754_zero s2; S754_zero s3;
             S754_zero s4; S754_zero s5; S754_zero s6] in
  sum_left zs = F64.zero /\ sum_compensated zs = F64.zero.
Proof.
  destruct s1, s2, s3, s4, s5, s6; split; vm_compute; reflexivity.
Qed.

(** X12. A record that has none of the six features (each is missing or
    null) is not rejected: under coefficients that are finite numbers
    its utility is [0.0], with either summation. *)
Theorem featureless_record_scores_zero
    (rt : Runtime) (m coeffs : gmap string value) :
  py_sum rt = sum_left \/ py_sum rt = sum_compensated ->
  (forall key, key ∈ FEATURE_KEYS -> m !! key = None \/ m !! key = Some VNone) ->
  (forall key, key ∈ FEATURE_KEYS ->
               exists c g, coeffs !! key = Some c /\ coefficient_value c = Some g
                           /\ F64.is_finite g = true) ->
  calculate_utility_score rt (VDict m) (VDict coeffs) = Ok F64.zero.
Proof.
  intros Hsum Hm Hc.
  assert (Hv : forall key, key ∈ FEATURE_KEYS -> get_val rt (VDict m) key = Ok F64.zero).
  { intros key Hkey. unfold get_val, py_get. cbn [bind].
    destruct (Hm key Hkey) as [-> | ->]; reflexivity. }
  unfold calculate_utility_score, scale_features.
  rewrite !Hv by key_in. cbn [bind].
  destruct (Hc "price" ltac:(key_in)) as (c1 & g1 & L1 & V1 & F1).
  destruct (Hc "range" ltac:(key_in)) as (c2 & g2 & L2 & V2 & F2).
  destruct (Hc "efficiency" ltac:(key_in)) as (c3 & g3 & L3 & V3 & F3).
  destruct (Hc "acceleration" ltac:(key_in)) as (c4 & g4 & L4 & V4 & F4).
  destruct (Hc "fast_charge" ltac:(key_in)) as (c5 & g5 & L5 & V5 & F5).
  destruct (Hc "seat_count" ltac:(key_in)) as (c6 & g6 & L6 & V6 & F6).
  cbn [mapM FEATURE_KEYS py_getitem]. rewrite L1, L2, L3, L4, L5, L6.
  cbn [bind zip zip_with mapM fst snd].
  change (py_div_int F64.zero 1000) with F64.zero.
  change (py_div_int F64.zero 100) with F64.zero.
  change (py_div_int F64.zero 10) with F64.zero.
  rewrite (py_mul_coefficient _ _ _ V1), (py_mul_coefficient _ _ _ V2),
          (py_mul_coefficient _ _ _ V3), (py_mul_coefficient _ _ _ V4),
          (py_mul_coefficient _ _ _ V5), (py_mul_coefficient _ _ _ V6).
  cbn [bind].
  destruct (mul_zero_finite _ F1) as [s1 ->].
  destruct (mul_zero_finite _ F2) as [s2 ->].
  destruct (mul_zero_finite _ F3) as [s3 ->].
  destruct (mul_zero_finite _ F4) as [s4 ->].
  destruct (mul_zero_finite _ F5) as [s5 ->].
  destruct (mul_zero_finite _ F6) as [s6 ->].
  f_equal. destruct (sum_of_zeros s1 s2 s3 s4 s5 s6) as [Hl Hk].
  destruct Hsum as [-> | ->]; assumption.
Qed.

Lemma featureless_record_scores_zero_witness :
  calculate_utility_score Sample.rt_compensated
    (VDict (<["name" := VStr "Unknown"]> ∅)) DEFAULT_COEFFS = Ok F64.zero.
Proof.
  apply (featureless_record_scores_zero Sample.rt_compensated
           (<["name" := VStr "Unknown"]> ∅) DEFAULT_COEFFS_map).
  - right. reflexivity.
  - intros key Hkey. apply list_elem_of_In in Hkey. cbn in Hkey.
    repeat (destruct Hkey as [<-|Hkey]; [left; reflexivity|]). destruct Hkey.
  - intros key Hkey. apply list_elem_of_In in Hkey. cbn in Hkey.
    repeat (destruct Hkey as [<-|Hkey];
            [eexists; eexists; split; [vm_compute; reflexivity|];
             split; vm_compute; reflexivity|]).
    destruct Hkey.
Defined.

(** ** The coefficients as the UI shows them *)

Lemma mapM_round_items rt (l : list (string * value)) :
  (forall kv, kv ∈ l -> is_number kv.2 = true) ->
  mapM (fun kv : string * value => let* v := App.py_round4 rt kv.2 in Ok (kv.1, v)) l
  = Ok (prod_map id (rounded_value rt) <$> l).
Proof.
  induction l as [|[k v] l IH]; intros H; [reflexivity|].
  cbn [mapM]. rewrite IH by (intros kv Hkv; apply H; right; exact Hkv).
  pose proof (H (k, v) ltac:(left)) as Hv. cbn in Hv.
  destruct v; try discriminate; reflexivity.
Qed.

Lemma mapM_some_error {A B : Type} (f : A -> result B) l a e :
  a ∈ l -> f a = Err e -> exists e', mapM f l = Err e'.
Proof.
  induction l as [|x l IH]; intros Hin Ha.
  - apply elem_of_nil in Hin. destruct Hin.
  - cbn. apply elem_of_cons in Hin as [<-|Hin].
    + rewrite Ha. eauto.
    + destruct (f x); cbn; [|eauto].
      destruct (IH Hin Ha) as [e' ->]. eauto.
Qed.

Lemma round_coeffs_unroundable rt (c : gmap string value) k v :
  c !! k = Some v -> is_number v = false ->
  App.round_coeffs rt (VDict c) = Err TypeError.
Proof.
  intros Hk Hv. unfold App.round_coeffs.
  destruct (mapM_some_error
              (fun kv : string * value =>
                 let* v := App.py_round4 rt kv.2 in Ok (kv.1, v))
              (map_to_list c) (k, v) TypeError) as [e He].
  - apply elem_of_map_to_list. exact Hk.
  - cbn. destruct v; try discriminate; reflexivity.
  - rewrite He. cbn [bind].
    apply mapM_error in He as ([k' v'] & _ & Hv'). cbn in Hv'.
    destruct v'; cbn in Hv'; try discriminate; injection Hv' as <-; reflexivity.
Qed.

(** X13. The coefficients in a result of the UI adapter are the
    coefficients used, entry by entry: same keys, each float rounded to
    four decimals, each integer as it is, each boolean as the integer 0
    or 1.  This holds when every entry is a number, and only then does
    the rounding succeed. *)
Theorem displayed_coefficients_are_rounded
    (rt : Runtime) (c : gmap string value) :
  ((forall k v, c !! k = Some v -> is_number v = true) ->
   App.round_coeffs rt (VDict c) = Ok (rounded_value rt <$> c))
  /\ (forall rounded,
        App.round_coeffs rt (VDict c) = Ok rounded ->
        (forall k v, c !! k = Some v -> is_number v = true)
        /\ forall k, rounded !! k = rounded_value rt <$> c !! k).
Proof.
  assert (H1 : (forall k v, c !! k = Some v -> is_number v = true) ->
               App.round_coeffs rt (VDict c) = Ok (rounded_value rt <$> c)).
  { intros H. unfold App.round_coeffs. rewrite mapM_round_items.
    - cbn [bind]. f_equal. rewrite list_to_map_fmap, list_to_map_to_list.
      reflexivity.
    - intros [k v] Hkv. apply elem_of_map_to_list in Hkv. exact (H k v Hkv). }
  split; [exact H1|].
  intros rounded Hr.
  assert (H : forall k v, c !! k = Some v -> is_number v = true).
  { intros k v Hk. destruct (is_number v) eqn:Hv; [reflexivity|].
    rewrite (round_coeffs_unroundable rt c k v Hk Hv) in Hr. discriminate. }
  split; [exact H|]. intros k. rewrite (H1 H) in Hr. injection Hr as <-.
  apply lookup_fmap.
Qed.

Lemma displayed_coefficients_are_rounded_witness :
  App.round_coeffs Sample.rt (VDict Sample.partial_coeffs)
  = Ok (rounded_value Sample.rt <$> Sample.partial_coeffs).
Proof.
  destruct (displayed_coefficients_are_rounded Sample.rt Sample.partial_coeffs)
    as [H _].
  apply H. intros k v Hk.
  destruct (decide (k = "price")) as [->|Hp].
  - vm_compute in Hk. injection Hk as <-. reflexivity.
  - destruct (decide (k = "range")) as [->|Hr].
    + vm_compute in Hk. injection Hk as <-. reflexivity.
    + unfold Sample.partial_coeffs in Hk.
      rewrite !lookup_insert_ne, lookup_empty in Hk by congruence. discriminate.
Defined.

Lemma app_find_best_from_list_unrounded rt user_id cars_json coeffs ms us e :
  json_loads rt cars_json = Ok (VList (VDict <$> ms)) ->
  get_user_coefficients rt user_id = Ok coeffs ->
  App.round_coeffs rt coeffs = Err e ->
  utilities rt coeffs ms us ->
  App.find_best_from_list_body rt user_id cars_json = Err e.
Proof.
  intros Hj Hc Hr Hu. pose proof (Forall2_length _ _ _ Hu) as Hlen.
  unfold App.find_best_from_list_body.
  rewrite Hj. cbn. rewrite Hc. cbn.
  rewrite loop_fold, (mapM_scored _ _ _ _ _ Hu). cbn.
  rewrite foldl_pick_all. cbn.
  rewrite snd_zip by (rewrite scored_records_length by assumption; lia).
  rewrite sort_by_utility_desc_scored by assumption. cbn.
  rewrite Hr. reflexivity.
Qed.

(** X14. An entry of the stored coefficient vector that is not a number
    and is not one of the six keys (a label, say) does not disturb the
    tool adapter, which never reads it, but makes the UI adapter fail:
    both of its operations return the [TypeError] of the rounding as
    their error payload, where the tool adapter returns a result. *)
Theorem unroundable_entry_fails_the_ui_only
    (rt : Runtime) (user_id : string) (c : gmap string value)
    (k : string) (v : value)
    (price range efficiency acceleration fast_charge seat_count : value)
    (u : float) :
  get_user_coefficients rt user_id = Ok (VDict c) ->
  c !! k = Some v -> is_number v = false ->
  calculate_utility_score rt
    (VDict (<["price" := price]>
           (<["range" := range]>
           (<["efficiency" := efficiency]>
           (<["acceleration" := acceleration]>
           (<["fast_charge" := fast_charge]>
           (<["seat_count" := seat_count]> ∅)))))))
    (VDict c) = Ok u ->
  (k ∉ FEATURE_KEYS)
  /\ (exists o,
        Server.handle_call_tool rt
          (Server.CalculateUtility user_id price range efficiency acceleration
             fast_charge seat_count)
        = Ok (Server.UtilityOutput o)
        /\ Server.u_utility o = u)
  /\ App.calculate_single_utility rt user_id price range efficiency acceleration
       fast_charge seat_count
     = App.Failure TypeError
  /\ forall cars_json ms us,
       json_loads rt cars_json = Ok (VList (VDict <$> ms)) ->
       utilities rt (VDict c) ms us ->
       (exists r,
          Server.handle_call_tool rt
            (Server.FindBestCar user_id (VList (VDict <$> ms)))
          = Ok (Server.RankingOutput r))
       /\ App.find_best_from_list rt user_id cars_json = App.Failure TypeError.
Proof.
  intros Hc Hk Hv Hu.
  pose proof (round_coeffs_unroundable rt c k v Hk Hv) as Hr.
  split; [|split; [|split]].
  - intros Hin.
    assert (Hnone : coefficient_value v = None)
      by (destruct v; try discriminate; reflexivity).
    unfold calculate_utility_score in Hu.
    destruct (scale_features rt _) as [scaled|] eqn:Hs; [|discriminate].
    cbn [bind] in Hu.
    destruct (mapM (py_getitem (VDict c)) FEATURE_KEYS) as [cs|] eqn:Hm;
      [|discriminate].
    cbn [bind] in Hu.
    destruct (mapM _ (zip scaled cs)) as [ps|] eqn:Hp; [|discriminate].
    assert (Hcs : Forall2 (fun key x => c !! key = Some x) FEATURE_KEYS cs).
    { clear -Hm. revert cs Hm. generalize FEATURE_KEYS.
      induction l as [|key l IH]; intros cs Hm; cbn in Hm.
      - injection Hm as <-. constructor.
      - destruct (c !! key) as [x|] eqn:Hx; [|discriminate]. cbn [bind] in Hm.
        destruct (mapM (py_getitem (VDict c)) l) as [cs'|] eqn:Hm'; [|discriminate].
        injection Hm as <-. constructor; [exact Hx | apply IH; reflexivity]. }
    apply list_elem_of_lookup in Hin as [i Hi].
    destruct (Forall2_lookup_l _ _ _ _ _ Hcs Hi) as (x & Hx & Hkx).
    assert (x = v) as -> by congruence.
    pose proof (scale_features_length _ _ _ Hs) as Hlen.
    pose proof (Forall2_length _ _ _ Hcs) as Hlen'. cbn in Hlen'.
    destruct (lookup_lt_is_Some_2 scaled i) as [f Hf].
    { apply lookup_lt_Some in Hx. lia. }
    assert (Hz : zip scaled cs !! i = Some (f, v)).
    { apply lookup_zip_with_Some. eauto. }
    apply list_elem_of_lookup_2 in Hz.
    destruct (mapM_some_error (fun fc : float * value => py_mul fc.1 fc.2)
                _ (f, v) _ Hz (py_mul_not_coefficient f v Hnone)) as [e' He'].
    congruence.
  - cbn [Server.handle_call_tool]. rewrite Hc. cbn [bind]. rewrite Hu. cbn [bind].
    eexists. split; reflexivity.
  - unfold App.calculate_single_utility. rewrite Hc. cbn [bind]. rewrite Hu.
    cbn [bind]. rewrite Hr. reflexivity.
  - intros cars_json ms us Hj Hus. split.
    + eexists. apply (server_find_best_car _ _ _ _ _ Hc Hus).
    + unfold App.find_best_from_list.
      rewrite (app_find_best_from_list_unrounded _ _ _ _ _ _ _ Hj Hc Hr Hus).
      reflexivity.
Qed.

Lemma unroundable_entry_fails_the_ui_only_witness :
  App.calculate_single_utility Sample2.rt "hank" (VInt 45000) (VInt 500) (VInt 150)
    (VFloat (F64.decimal 61 1)) (VInt 170) (VInt 5)
  = App.Failure TypeError
  /\ exists o,
       Server.handle_call_tool Sample2.rt
         (Server.CalculateUtility "hank" (VInt 45000) (VInt 500) (VInt 150)
            (VFloat (F64.decimal 61 1)) (VInt 170) (VInt 5))
       = Ok (Server.UtilityOutput o)
       /\ Server.u_utility o = F64.decimal (-2303) 2.
Proof.
  destruct (unroundable_entry_fails_the_ui_only Sample2.rt "hank"
              Sample2.labelled_coeffs "label" (VStr "mine")
              (VInt 45000) (VInt 500) (VInt 150) (VFloat (F64.decimal 61 1))
              (VInt 170) (VInt 5) (F64.decimal (-2303) 2))
    as (_ & H1 & H2 & _).
  - vm_compute. reflexivity.
  - vm_compute. reflexivity.
  - reflexivity.
  - vm_compute. reflexivity.
  - split; [exact H2 | exact H1].
Defined.

(** ** A list that is already ranked *)



(** ** The note on the coefficients *)

Lemma eqb_finite_eq f s m e :
  F64.eqb f (S754_finite s m e) = true -> f = S754_finite s m e.
Proof.
  unfold F64.eqb, SFeqb, SFcompare.
  destruct f as [s'|s'| |s' m' e']; try (destruct s'; discriminate);
    try (destruct s; discriminate); try discriminate.
  change (IntDef.Z.compare e' e) with (Z.compare e' e).
  change (PosDef.Pos.compare_cont Eq m' m) with (Pos.compare m' m).
  destruct s', s; try discriminate;
    destruct (Z.compare_spec e' e) as [->|?|?]; try discriminate;
    destruct (Pos.compare_spec m' m) as [->|?|?]; try discriminate; reflexivity.
Qed.

Lemma DEFAULT_COEFFS_finite key :
  key ∈ FEATURE_KEYS ->
  exists s m e, DEFAULT_COEFFS_map !! key = Some (VFloat (S754_finite s m e)).
Proof.
  intros H. apply list_elem_of_In in H. cbn in H.
  repeat (destruct H as [<-|H]; [vm_compute; eauto|]). destruct H.
Qed.

Lemma DEFAULT_COEFFS_other key :
  key ∉ FEATURE_KEYS -> DEFAULT_COEFFS_map !! key = None.
Proof.
  intros H. unfold DEFAULT_COEFFS_map.
  rewrite !lookup_insert_ne by (intros <-; apply H; key_in).
  apply lookup_empty.
Qed.

Lemma eq_default_iff (coeffs : value) :
  App.eq_default coeffs = true <-> coeffs = DEFAULT_COEFFS.
Proof.
  split.
  - destruct coeffs as [ | | | | | |m]; try discriminate. cbn [App.eq_default].
    intros H. apply andb_true_iff in H as [Hd Hf].
    apply bool_decide_eq_true in Hd. rewrite forallb_forall in Hf.
    unfold DEFAULT_COEFFS. f_equal. apply map_eq. intros key.
    destruct (decide (key ∈ FEATURE_KEYS)) as [Hin|Hout].
    + pose proof (Hf key (proj1 (list_elem_of_In _ _) Hin)) as Hk.
      destruct (DEFAULT_COEFFS_finite key Hin) as (s & p & e & Hdef).
      rewrite Hdef in Hk |- *.
      destruct (m !! key) as [[ | | |f| | | ]|]; try discriminate.
      apply eqb_finite_eq in Hk. subst f. reflexivity.
    + rewrite (DEFAULT_COEFFS_other key Hout).
      apply not_elem_of_dom. rewrite Hd. apply not_elem_of_dom.
      apply DEFAULT_COEFFS_other. exact Hout.
  - intros ->. vm_compute. reflexivity.
Qed.

(** X16. The note of a result of the UI adapter says "default
    coefficients" exactly when the coefficient vector used equals the
    defaults, entry for entry.  So it is shown for a user without stored
    coefficients, and also for a user who stored a vector equal to the
    defaults; any other stored vector gives "saved user preferences". *)
Theorem default_note_iff
    (rt : Runtime) (user_id : string) :
  (forall price range efficiency acceleration fast_charge seat_count r,
     App.calculate_single_utility rt user_id price range efficiency acceleration
       fast_charge seat_count = App.Success r ->
     (App.u_default_note r = true
      <-> get_user_coefficients rt user_id = Ok DEFAULT_COEFFS))
  /\ (forall cars_json r,
        App.find_best_from_list rt user_id cars_json = App.Success r ->
        (App.r_default_note r = true
         <-> get_user_coefficients rt user_id = Ok DEFAULT_COEFFS)).
Proof.
  split.
  - intros price range efficiency acceleration fast_charge seat_count r.
    unfold App.calculate_single_utility.
    destruct (get_user_coefficients rt user_id) as [coeffs|]; [|discriminate].
    cbn [bind].
    destruct (calculate_utility_score rt _ coeffs); [|discriminate]. cbn [bind].
    destruct (App.round_coeffs rt coeffs); [|discriminate]. cbn [bind].
    intros [= <-]. cbn [App.u_default_note]. rewrite eq_default_iff.
    split; [intros ->; reflexivity | intros [= ->]; reflexivity].
  - intros cars_json r.
    unfold App.find_best_from_list, App.find_best_from_list_body.
    destruct (json_loads rt cars_json) as [cars|e]; [|destruct e; discriminate].
    cbn [bind].
    destruct (get_user_coefficients rt user_id) as [coeffs|e];
      [|destruct e; discriminate].
    cbn [bind].
    destruct (py_iter cars) as [l|e]; [|destruct e; discriminate]. cbn [bind].
    destruct (loop rt (round4 rt) coeffs loop_init _) as [st|e];
      [|destruct e; discriminate].
    cbn [bind].
    destruct (App.sort_by_utility_desc _ _) as [ranked|e]; [|destruct e; discriminate].
    cbn [bind].
    destruct (App.round_coeffs rt coeffs) as [rounded|e]; [|destruct e; discriminate].
    cbn [bind].
    intros [= <-]. cbn [App.r_default_note]. rewrite eq_default_iff.
    split; [intros ->; reflexivity | intros [= ->]; reflexivity].
Qed.

Lemma default_note_iff_witness :
  exists r,
    App.find_best_from_list Sample.rt "carol" Sample.example_cars = App.Success r
    /\ App.r_default_note r = true.
Proof.
  assert (Hc : get_user_coefficients Sample.rt "carol" = Ok DEFAULT_COEFFS)
    by reflexivity.
  pose proof (app_find_best_from_list Sample.rt "carol" Sample.example_cars
                DEFAULT_COEFFS DEFAULT_COEFFS_map
                [Sample.tesla; Sample.volkswagen; Sample.hyundai]
                [F64.decimal (-2303) 2; F64.decimal (-2354) 2; F64.decimal (-2549) 2]
                eq_refl Hc sample_rounded_defaults sample_utilities) as Hr.
  eexists. split; [exact Hr|].
  destruct (default_note_iff Sample.rt "carol") as [_ H].
  apply (H _ _ Hr). exact Hc.
Defined.

(** ** The call as it arrives *)

Lemma py_getitem_ext (a a' : gmap string value) key :
  a !! key = a' !! key ->
  py_getitem (VDict a) key = py_getitem (VDict a') key.
Proof. intros H. cbn. rewrite H. reflexivity. Qed.

Lemma listed_tools (t : Protocol.Tool) :
  t ∈ Protocol.handle_list_tools ->
  (Protocol.name t = "calculate_utility"
   /\ Protocol.required (Protocol.inputSchema t)
      = ["user_id"; "price"; "range"; "efficiency"; "acceleration";
         "fast_charge"; "seat_count"])
  \/ (Protocol.name t = "find_best_car"
      /\ Protocol.required (Protocol.inputSchema t) = ["user_id"; "cars"]).
Proof.
  intros H. apply list_elem_of_In in H.
  destruct H as [<-|[<-|[]]]; [left | right]; split; reflexivity.
Qed.

Lemma listed_names (n : string) :
  (exists t, t ∈ Protocol.handle_list_tools /\ Protocol.name t = n)
  <-> n = "calculate_utility" \/ n = "find_best_car".
Proof.
  split.
  - intros (t & Ht & <-). destruct (listed_tools t Ht) as [[-> _]|[-> _]]; auto.
  - intros [-> | ->];
      [exists Protocol.calculate_utility_tool | exists Protocol.find_best_car_tool];
      (split; [apply list_elem_of_In; cbn; auto | reflexivity]).
Qed.

(** The raw call computes what the typed adapter computes: when the
    user identifier is text and the arguments are there, its result is
    the result dictionary of the typed call. *)
Lemma raw_call_is_typed_call rt py_str name arguments call :
  (forall s, py_str (VStr s) = s) ->
  Protocol.typed_call name arguments = Some call ->
  Protocol.handle_call_tool rt py_str name arguments
  = let* o := Server.handle_call_tool rt call in Ok (Protocol.result_dict o).
Proof.
  intros Hstr. unfold Protocol.typed_call, Protocol.handle_call_tool.
  destruct (decide (name = "calculate_utility")) as [->|Hn1].
  - cbn [py_getitem].
    destruct (arguments !! "user_id") as [[ | | | |u| | ]|]; try discriminate.
    destruct (arguments !! "price") as [p|]; [|discriminate].
    destruct (arguments !! "range") as [r|]; [|discriminate].
    destruct (arguments !! "efficiency") as [e|]; [|discriminate].
    destruct (arguments !! "acceleration") as [a|]; [|discriminate].
    destruct (arguments !! "fast_charge") as [f|]; [|discriminate].
    destruct (arguments !! "seat_count") as [s|]; [|discriminate].
    intros [= <-]. cbn [bind Server.handle_call_tool]. rewrite Hstr.
    destruct (get_user_coefficients rt u) as [coeffs|]; [|reflexivity]. cbn [bind].
    destruct (calculate_utility_score rt _ coeffs); reflexivity.
  - destruct (decide (name = "find_best_car")) as [->|Hn2].
    + cbn [py_getitem].
      destruct (arguments !! "user_id") as [[ | | | |u| | ]|]; try discriminate.
      destruct (arguments !! "cars") as [cars|]; [|discriminate].
      intros [= <-]. cbn [bind Server.handle_call_tool]. rewrite Hstr.
      destruct (get_user_coefficients rt u) as [coeffs|]; [|reflexivity]. cbn [bind].
      destruct (py_iter cars) as [l|]; [|reflexivity]. cbn [bind].
      destruct (loop rt _ coeffs loop_init l); reflexivity.
    + intros [= <-]. reflexivity.
Qed.

(** X17. A call depends on the arguments that the listed schema of its
    tool requires, and on nothing else of the argument dictionary: two
    dictionaries that agree on them give the same result or the same
    error.  For a name that no listed tool has, every call is refused
    alike. *)
Theorem call_reads_required_arguments_only
    (rt : Runtime) (py_str : value -> string) (name : string)
    (a a' : gmap string value) :
  (forall t key,
     t ∈ Protocol.handle_list_tools -> Protocol.name t = name ->
     key ∈ Protocol.required (Protocol.inputSchema t) ->
     a !! key = a' !! key) ->
  Protocol.handle_call_tool rt py_str name a
  = Protocol.handle_call_tool rt py_str name a'
  /\ ((forall t, t ∈ Protocol.handle_list_tools -> Protocol.name t <> name) ->
      Protocol.handle_call_tool rt py_str name a = Err ValueError).
Proof.
  intros H. unfold Protocol.handle_call_tool.
  destruct (decide (name = "calculate_utility")) as [->|Hn1].
  - assert (E : forall key,
                key ∈ ["user_id"; "price"; "range"; "efficiency"; "acceleration";
                       "fast_charge"; "seat_count"] ->
                py_getitem (VDict a) key = py_getitem (VDict a') key).
    { intros key Hkey. apply py_getitem_ext.
      apply (H Protocol.calculate_utility_tool key);
        [apply list_elem_of_In; cbn; auto | reflexivity | exact Hkey]. }
    rewrite !E by key_in. split; [reflexivity|].
    intros Hno. exfalso.
    apply (Hno Protocol.calculate_utility_tool);
      [apply list_elem_of_In; cbn; auto | reflexivity].
  - destruct (decide (name = "find_best_car")) as [->|Hn2].
    + assert (E : forall key,
                  key ∈ ["user_id"; "cars"] ->
                  py_getitem (VDict a) key = py_getitem (VDict a') key).
      { intros key Hkey. apply py_getitem_ext.
        apply (H Protocol.find_best_car_tool key);
          [apply list_elem_of_In; cbn; auto | reflexivity | exact Hkey]. }
      rewrite !E by key_in. split; [reflexivity|].
      intros Hno. exfalso.
      apply (Hno Protocol.find_best_car_tool);
        [apply list_elem_of_In; cbn; auto | reflexivity].
    + split; reflexivity.
Qed.

Lemma call_reads_required_arguments_only_witness :
  Protocol.handle_call_tool Sample2.rt Sample2.py_str "find_best_car"
    (<["user_id" := VStr "zed"]> (<["cars" := VList []]> ∅))
  = Protocol.handle_call_tool Sample2.rt Sample2.py_str "find_best_car"
      (<["limit" := VInt 3]>
         (<["user_id" := VStr "zed"]> (<["cars" := VList []]> ∅))).
Proof.
  apply (call_reads_required_arguments_only Sample2.rt Sample2.py_str "find_best_car").
  intros t key Ht Hn Hkey.
  destruct (listed_tools t Ht) as [[Hn' _]|[_ Hr]]; [congruence|].
  rewrite Hr in Hkey. apply list_elem_of_In in Hkey.
  destruct Hkey as [<-|[<-|[]]]; reflexivity.
Defined.

(** X18. Every argument that the listed schema of a tool requires is
    indeed required, and they are read in the order of the schema: when
    the first absent one is [key], the call raises [KeyError] for [key].
    [find_best_car] reads both of its arguments before it contacts the
    store; [calculate_utility] reads the user identifier, then the
    store, then the features, so a missing feature is reported only once
    the coefficients of the user are resolved. *)
Theorem missing_required_argument
    (rt : Runtime) (py_str : value -> string) (t : Protocol.Tool)
    (arguments : gmap string value) (pre post : list string) (key : string) :
  t ∈ Protocol.handle_list_tools ->
  Protocol.required (Protocol.inputSchema t) = pre ++ key :: post ->
  (forall k, k ∈ pre -> is_Some (arguments !! k)) ->
  arguments !! key = None ->
  (Protocol.name t = "calculate_utility" -> key <> "user_id" ->
   forall u, arguments !! "user_id" = Some u ->
             exists coeffs, get_user_coefficients rt (py_str u) = Ok coeffs) ->
  Protocol.handle_call_tool rt py_str (Protocol.name t) arguments
  = Err (KeyError key).
Proof.
  intros Ht Hreq Hpre Hkey Hstore.
  destruct (listed_tools t Ht) as [[Hn Hr]|[Hn Hr]]; rewrite Hn in *;
    rewrite Hr in Hreq; unfold Protocol.handle_call_tool; cbn [decide];
    cbn [py_getitem].
  - destruct pre as [|k0 pre]; cbn in Hreq.
    + injection Hreq as <- _. rewrite Hkey. reflexivity.
    + injection Hreq as <- Hreq.
      destruct (Hpre "user_id" ltac:(left)) as [u Hu]. rewrite Hu. cbn [bind].
      assert (key <> "user_id") as Hne by congruence.
      destruct (Hstore eq_refl Hne u Hu) as [coeffs ->]. cbn [bind].
      do 6 (destruct pre as [|k pre]; cbn in Hreq;
            [injection Hreq as <- _; rewrite Hkey; reflexivity|];
            injection Hreq as <- Hreq;
            let v := fresh "v" in let Hv := fresh "Hv" in
            match goal with
            | |- context [arguments !! ?k'] =>
                destruct (Hpre k' ltac:(apply list_elem_of_In; cbn; auto 10))
                  as [v Hv]; rewrite Hv; cbn [bind]
            end).
      destruct pre; discriminate.
  - destruct pre as [|k0 pre]; cbn in Hreq.
    + injection Hreq as <- _. rewrite Hkey. reflexivity.
    + injection Hreq as <- Hreq.
      destruct (Hpre "user_id" ltac:(left)) as [u Hu]. rewrite Hu. cbn [bind].
      destruct pre as [|k pre]; cbn in Hreq.
      * injection Hreq as <- _. rewrite Hkey. reflexivity.
      * injection Hreq as _ Hreq. destruct pre; discriminate.
Qed.

Lemma missing_required_argument_witness :
  Protocol.handle_call_tool Sample2.rt Sample2.py_str "find_best_car"
    (<["user_id" := VStr "ivy"]> ∅)
  = Err (KeyError "cars").
Proof.
  apply (missing_required_argument Sample2.rt Sample2.py_str
           Protocol.find_best_car_tool
           (<["user_id" := VStr "ivy"]> ∅) ["user_id"] [] "cars").
  - apply list_elem_of_In. right. left. reflexivity.
  - reflexivity.
  - intros k Hk. apply list_elem_of_In in Hk. destruct Hk as [<-|[]].
    eexists. reflexivity.
  - reflexivity.
  - intros Hn. discriminate Hn.
Defined.

(** ** The comparison of the test script *)

Lemma max_from_simulates shown : forall ms us ns st n u m,
  Forall2 (fun (m : gmap string value) name => m !! "name" = Some name) ms ns ->
  length ms = length us ->
  best_utility st = u -> best_car st = scored_record m (shown u) ->
  m !! "name" = Some n ->
  exists m' n' u',
    TestLocal.max_from snd (n, u) (zip ns us) = (n', u')
    /\ best_car (foldl pick st (zip us (scored_records shown ms us)))
       = scored_record m' (shown u')
    /\ m' !! "name" = Some n'
    /\ (m' = m \/ m' ∈ ms).
Proof.
  induction ms as [|m1 ms IH]; intros us ns st n u m Hn Hlen Hu Hc Hm.
  - inversion Hn; subst. destruct us; [|discriminate]. cbn.
    exists m, n, (best_utility st). auto.
  - inversion Hn as [|? n1 ? ns' Hn1 Hns]; subst.
    destruct us as [|u1 us]; [discriminate|]. cbn in Hlen.
    cbn [zip zip_with scored_records foldl TestLocal.max_from snd].
    unfold pick at 2. cbn [fst snd].
    destruct (F64.gtb u1 (best_utility st)) eqn:Hgt.
    + destruct (IH us ns' {| best_car := scored_record m1 (shown u1);
                             best_utility := u1;
                             all_results := all_results st
                                            ++ [scored_record m1 (shown u1)] |}
                  n1 u1 m1 Hns ltac:(lia) eq_refl eq_refl Hn1)
        as (m' & n' & u' & H1 & H2 & H3 & H4).
      exists m', n', u'. repeat split; try assumption.
      right. destruct H4 as [->|H4]; [left | right; assumption].
    + destruct (IH us ns' {| best_car := best_car st;
                             best_utility := best_utility st;
                             all_results := all_results st
                                            ++ [scored_record m1 (shown u1)] |}
                  n (best_utility st) m Hns ltac:(lia) eq_refl Hc Hm)
        as (m' & n' & u' & H1 & H2 & H3 & H4).
      exists m', n', u'. repeat split; try assumption.
      destruct H4 as [->|H4]; [left; reflexivity | right; right; assumption].
Qed.

(** X19. The test script and the tool select the same car.  Whatever
    coefficients are stored for the user [benjo], provided they can be
    printed rounded and the three cars can be scored, the first of them
    above negative infinity, the pair that [max] selects in the script
    is the name and the utility of the record that [find_best_car]
    returns as [best_car] for the same three cars. *)
Theorem test_script_selects_the_best_car
    (rt : Runtime) (coeffs : value) (rounded : gmap string value)
    (u1 u2 u3 : float) :
  get_user_coefficients rt "benjo" = Ok coeffs ->
  App.round_coeffs rt coeffs = Ok rounded ->
  utilities rt coeffs TestLocal.cars [u1; u2; u3] ->
  F64.gtb u1 F64.neg_inf = true ->
  exists m name u r,
    m ∈ TestLocal.cars
    /\ m !! "name" = Some name
    /\ TestLocal.test_with_saved_user rt = Ok (name, u)
    /\ Server.handle_call_tool rt
         (Server.FindBestCar "benjo" (VList (VDict <$> TestLocal.cars)))
       = Ok (Server.RankingOutput r)
    /\ Server.r_best_car r = scored_record m u.
Proof.
  intros Hc Hr Hu Hg.
  pose proof (server_find_best_car _ _ _ _ _ Hc Hu) as Hs.
  inversion Hu as [|? ? ? ? H1 Hu']; subst.
  inversion Hu' as [|? ? ? ? H2 Hu'']; subst.
  inversion Hu'' as [|? ? ? ? H3 _]; subst.
  destruct (max_from_simulates (fun u => u)
              [Sample.volkswagen; Sample.hyundai] [u2; u3]
              [VStr "Volkswagen ID.4"; VStr "Hyundai Ioniq 5"]
              {| best_car := scored_record Sample.tesla u1;
                 best_utility := u1;
                 all_results := [scored_record Sample.tesla u1] |}
              (VStr "Tesla Model 3") u1 Sample.tesla)
    as (m & n & u & Hmax & Hbest & Hname & Hin);
    [repeat constructor | reflexivity | reflexivity | reflexivity | reflexivity |].
  exists m, n, u. eexists. split; [|split; [exact Hname|split; [|split; [exact Hs|]]]].
  - destruct Hin as [->|Hin]; [left | right; exact Hin].
  - unfold TestLocal.test_with_saved_user. rewrite Hc. cbn [bind]. rewrite Hr.
    cbn [bind TestLocal.cars fmap list_fmap mapM]. rewrite H1, H2, H3.
    cbn [bind py_getitem].
    change (Sample.tesla !! "name") with (Some (VStr "Tesla Model 3")).
    change (Sample.volkswagen !! "name") with (Some (VStr "Volkswagen ID.4")).
    change (Sample.hyundai !! "name") with (Some (VStr "Hyundai Ioniq 5")).
    cbn [bind TestLocal.py_max]. f_equal. exact Hmax.
  - cbn [Server.r_best_car]. rewrite <- Hbest.
    cbn [zip zip_with scored_records foldl TestLocal.cars]. f_equal.
    unfold pick at 3. cbn [fst snd best_utility loop_init].
    rewrite Hg. reflexivity.
Qed.

Lemma test_script_selects_the_best_car_witness :
  exists m name u r,
    m ∈ TestLocal.cars
    /\ m !! "name" = Some name
    /\ TestLocal.test_with_saved_user Sample.rt = Ok (name, u)
    /\ Server.handle_call_tool Sample.rt
         (Server.FindBestCar "benjo" (VList (VDict <$> TestLocal.cars)))
       = Ok (Server.RankingOutput r)
    /\ Server.r_best_car r = scored_record m u.
Proof.
  apply (test_script_selects_the_best_car Sample.rt DEFAULT_COEFFS DEFAULT_COEFFS_map
           (F64.decimal (-2303) 2) (F64.decimal (-2354) 2) (F64.decimal (-2549) 2)).
  - reflexivity.
  - exact sample_rounded_defaults.
  - exact sample_utilities.
  - vm_compute. reflexivity.
Defined.

(** ** The best candidate and the head of the ranking *)

Lemma leb_antisym_eqb x y :
  SFleb x y = true -> SFleb y x = true -> F64.eqb x y = true.
Proof.
  unfold SFleb, F64.eqb, SFeqb.
  F64Facts.float_cases x; F64Facts.float_cases y; F64Facts.order_solve.
Qed.

Lemma leb_refl x : F64.is_nan x = false -> SFleb x x = true.
Proof.
  intros H. apply F64Facts.not_ltb_leb; [exact H | exact H |].
  apply F64Facts.ltb_irrefl.
Qed.


